(** * Debounced event confirmation: sales attribution and alert engines

    A shallow embedding of [backend/sales_attribution.py],
    [backend/alerts.py] and the snapshot schedule of
    [backend/inventory_persistent.py], and the properties of the
    confirmation, attribution and cooldown logic proved over it.

    Conventions of the embedding.
    - A Python [dict] keyed by product name is a [gmap string _]; iterating
      over a [dict] visits every key exactly once, in the order given by
      [map_to_list].  The iteration order of a Python [set] of strings is
      not fixed by the language: the sales engine is given both with the
      order of [elements] and, in the functions named [_in], with the
      enumeration of the set as an argument.
    - Python integers are [Z].  Timestamps and durations (Python floats in
      seconds) are exact numbers of one fixed time unit, also [Z]; only
      their differences and comparisons are used by the engines.  The age
      of a product in days, a float quotient, is an exact rational [Q].
    - A method that mutates [self] takes the engine record and returns the
      new record together with the method's result.
    - A call that raises returns [None]. *)

From stdpp Require Import gmap strings list fin_maps.
From Stdlib Require Import ZArith QArith Qround Lia.

Local Close Scope Q_scope.
Local Open Scope Z_scope.

(** ** Python built-ins used by both modules *)

(** [d.get(k, dflt)] *)
Definition dict_get (d : gmap string Z) (k : string) (dflt : Z) : Z :=
  default dflt (d !! k).

(** [sum(d.values())] *)
Definition dict_sum (d : gmap string Z) : Z :=
  map_fold (λ _ v acc, v + acc) 0 d.

(** [q.append(x)] on a [collections.deque] built with [maxlen]: the element
    is added on the right and, if the deque is then too long, one element
    is dropped on the left; with [maxlen = 0] nothing is ever stored. *)
Definition deque_append {A : Type} (maxlen : nat) (q : list A) (x : A) : list A :=
  if (maxlen =? 0)%nat then q
  else
    let q' := q ++ [x] in
    if (maxlen <? length q')%nat then tail q' else q'.

(** [l[-n:]] for an integer [n]: the last [n] elements when [n > 0], the
    whole list when [n = 0] (Python reads [-0] as [0]), and [l[k:]] with
    [k = -n] when [n < 0]. *)
Definition slice_last {A : Type} (n : Z) (l : list A) : list A :=
  if n =? 0 then l
  else if 0 <? n then drop (length l - Z.to_nat n)%nat l
  else drop (Z.to_nat (- n)) l.

(** [round(x)] to the nearest integer, a tie going to the even one. *)
Definition round_half_even (x : Q) : Z :=
  let below := Qfloor x in
  match Qcompare (Qminus x (inject_Z below)) (Qmake 1 2) with
  | Lt => below
  | Gt => below + 1
  | Eq => if Z.even below then below else below + 1
  end.

(** [round(x, 1)]: [x] rounded to one decimal, a tie going to the even
    digit, in lowest terms.  The result is the decimal itself, where
    Python returns the float nearest to it. *)
Definition round1 (x : Q) : Q :=
  Qred (Qdiv (inject_Z (round_half_even (Qmult x (inject_Z 10)))) (inject_Z 10)).

(** ** backend/sales_attribution.py *)

Module SalesAttribution.

(** The sale event dictionary built in [_detect_attributed_sales]. *)
Record SaleEvent := {
  product_name : string;
  quantity_delta : Z;
  inventory_before : Z;
  inventory_after : Z;
  timestamp_utc : Z;
  validated : bool
}.

(** The attributes of a [SalesAttributionEngine] instance.
    [snapshot_history] is the deque of [(timestamp, inventory)] pairs, oldest
    first; [pending_decreases] is the [defaultdict(list)] of
    [(timestamp, delta)] pairs. *)
Record SalesAttributionEngine := {
  confirm_intervals : Z;
  min_delta_threshold : Z;
  cooldown_seconds : Z;
  snapshot_interval : Z;
  snapshot_history : list (Z * gmap string Z);
  last_sale_time : gmap string Z;
  pending_decreases : gmap string (list (Z * Z));
  total_sales_detected : Z;
  sales_by_product : gmap string Z;
  false_positives_filtered : Z
}.

Definition set_snapshot_history (e : SalesAttributionEngine)
    (h : list (Z * gmap string Z)) : SalesAttributionEngine :=
  {| confirm_intervals := confirm_intervals e;
     min_delta_threshold := min_delta_threshold e;
     cooldown_seconds := cooldown_seconds e;
     snapshot_interval := snapshot_interval e;
     snapshot_history := h;
     last_sale_time := last_sale_time e;
     pending_decreases := pending_decreases e;
     total_sales_detected := total_sales_detected e;
     sales_by_product := sales_by_product e;
     false_positives_filtered := false_positives_filtered e |}.

Definition set_last_sale_time (e : SalesAttributionEngine)
    (m : gmap string Z) : SalesAttributionEngine :=
  {| confirm_intervals := confirm_intervals e;
     min_delta_threshold := min_delta_threshold e;
     cooldown_seconds := cooldown_seconds e;
     snapshot_interval := snapshot_interval e;
     snapshot_history := snapshot_history e;
     last_sale_time := m;
     pending_decreases := pending_decreases e;
     total_sales_detected := total_sales_detected e;
     sales_by_product := sales_by_product e;
     false_positives_filtered := false_positives_filtered e |}.

Definition set_pending_decreases (e : SalesAttributionEngine)
    (m : gmap string (list (Z * Z))) : SalesAttributionEngine :=
  {| confirm_intervals := confirm_intervals e;
     min_delta_threshold := min_delta_threshold e;
     cooldown_seconds := cooldown_seconds e;
     snapshot_interval := snapshot_interval e;
     snapshot_history := snapshot_history e;
     last_sale_time := last_sale_time e;
     pending_decreases := m;
     total_sales_detected := total_sales_detected e;
     sales_by_product := sales_by_product e;
     false_positives_filtered := false_positives_filtered e |}.

Definition set_statistics (e : SalesAttributionEngine)
    (total : Z) (by_product : gmap string Z) : SalesAttributionEngine :=
  {| confirm_intervals := confirm_intervals e;
     min_delta_threshold := min_delta_threshold e;
     cooldown_seconds := cooldown_seconds e;
     snapshot_interval := snapshot_interval e;
     snapshot_history := snapshot_history e;
     last_sale_time := last_sale_time e;
     pending_decreases := pending_decreases e;
     total_sales_detected := total;
     sales_by_product := by_product;
     false_positives_filtered := false_positives_filtered e |}.

(** [self.false_positives_filtered += 1] *)
Definition count_false_positive (e : SalesAttributionEngine) : SalesAttributionEngine :=
  {| confirm_intervals := confirm_intervals e;
     min_delta_threshold := min_delta_threshold e;
     cooldown_seconds := cooldown_seconds e;
     snapshot_interval := snapshot_interval e;
     snapshot_history := snapshot_history e;
     last_sale_time := last_sale_time e;
     pending_decreases := pending_decreases e;
     total_sales_detected := total_sales_detected e;
     sales_by_product := sales_by_product e;
     false_positives_filtered := false_positives_filtered e + 1 |}.

(** [SalesAttributionEngine.__init__].  No argument is checked; the only
    statement that can raise is [deque(maxlen=confirm_intervals + 1)], a
    [ValueError] when the bound is negative. *)
Definition __init__ (confirm_intervals min_delta_threshold
    cooldown_seconds snapshot_interval : Z) : option SalesAttributionEngine :=
  if confirm_intervals + 1 <? 0 then None
  else Some
    {| confirm_intervals := confirm_intervals;
       min_delta_threshold := min_delta_threshold;
       cooldown_seconds := cooldown_seconds;
       snapshot_interval := snapshot_interval;
       snapshot_history := [];
       last_sale_time := ∅;
       pending_decreases := ∅;
       total_sales_detected := 0;
       sales_by_product := ∅;
       false_positives_filtered := 0 |}.

(** The loop of [_validate_decrease] over [counts[1:]]. *)
Fixpoint decrease_persisted (initial_count : Z) (counts : list Z) : bool :=
  match counts with
  | [] => true
  | count :: rest =>
      if count >? initial_count then false
      else if count =? initial_count then false
      else decrease_persisted initial_count rest
  end.

Definition _validate_decrease (e : SalesAttributionEngine)
    (product_name : string) (current_timestamp : Z) : bool :=
  if Z.of_nat (length (snapshot_history e)) <? confirm_intervals e + 1 then false
  else
    let recent_snapshots := slice_last (confirm_intervals e + 1) (snapshot_history e) in
    let counts := map (λ s, dict_get s.2 product_name 0) recent_snapshots in
    match counts with
    | [] => false (* [counts[0]] would raise; the history is never empty here *)
    | initial_count :: rest => decrease_persisted initial_count rest
    end.

(** The loop of [_validate_total_decrease]: [false] as soon as
    [totals[i] >= totals[i-1]]. *)
Fixpoint consistently_decreasing (totals : list Z) : bool :=
  match totals with
  | [] => true
  | previous :: rest =>
      match rest with
      | [] => true
      | next :: _ =>
          if next >=? previous then false else consistently_decreasing rest
      end
  end.

Definition _validate_total_decrease (e : SalesAttributionEngine)
    (total_delta : Z) (current_timestamp : Z) : bool * SalesAttributionEngine :=
  if Z.abs total_delta <? min_delta_threshold e * 2 then
    (false, count_false_positive e)
  else if Z.of_nat (length (snapshot_history e)) <? confirm_intervals e + 1 then
    (false, e)
  else
    let recent_snapshots := slice_last (confirm_intervals e + 1) (snapshot_history e) in
    let totals := map (λ s, dict_sum s.2) recent_snapshots in
    if consistently_decreasing totals then (true, e)
    else (false, count_false_positive e).

Definition _check_cooldown (e : SalesAttributionEngine)
    (product_name : string) (current_timestamp : Z) : bool :=
  match last_sale_time e !! product_name with
  | None => true
  | Some last =>
      let time_since_last_sale := current_timestamp - last in
      if time_since_last_sale <? cooldown_seconds e then false else true
  end.

(** One entry of [_cleanup_pending_decreases]: the entries younger than
    [max_age] are kept, and a list left empty is deleted. *)
Definition cleanup_entry (current_timestamp max_age : Z)
    (entries : list (Z * Z)) : option (list (Z * Z)) :=
  let kept := filter (λ x, current_timestamp - x.1 < max_age) entries in
  match kept with
  | [] => None
  | _ :: _ => Some kept
  end.

Definition _cleanup_pending_decreases (e : SalesAttributionEngine)
    (current_timestamp : Z) : SalesAttributionEngine :=
  let max_age := snapshot_interval e * (confirm_intervals e + 2) in
  set_pending_decreases e
    (omap (cleanup_entry current_timestamp max_age) (pending_decreases e)).

(** The first [if]/[elif] chain of the product loop: what happens to the
    pending decreases of [product_name] for this tick's [delta]. *)
Definition record_delta (e : SalesAttributionEngine) (product_name : string)
    (current_timestamp delta : Z) : gmap string (list (Z * Z)) :=
  let pending := pending_decreases e in
  if (delta <? 0) && (Z.abs delta >=? min_delta_threshold e) then
    <[product_name := default [] (pending !! product_name)
                        ++ [(current_timestamp, delta)]]> pending
  else if (delta =? 0) && bool_decide (is_Some (pending !! product_name)) then
    pending
  else if delta >? 0 then
    match pending !! product_name with
    | Some _ => <[product_name := []]> pending
    | None => pending
    end
  else pending.

(** The body of the loop [for product_name in all_products] of
    [_detect_attributed_sales]; the result is the event appended to
    [sales_events], if any. *)
Definition attribute_product (current_timestamp : Z)
    (current_inventory previous_inventory : gmap string Z)
    (e : SalesAttributionEngine) (product_name : string)
    : SalesAttributionEngine * option SaleEvent :=
  let current_count := dict_get current_inventory product_name 0 in
  let previous_count := dict_get previous_inventory product_name 0 in
  let delta := current_count - previous_count in
  let e1 := set_pending_decreases e (record_delta e product_name current_timestamp delta) in
  match pending_decreases e1 !! product_name with
  | Some ((_, first_delta) :: _) =>
      if _validate_decrease e1 product_name current_timestamp then
        if _check_cooldown e1 product_name current_timestamp then
          let quantity_sold :=
            if delta <? 0 then Z.abs delta else Z.abs first_delta in
          let sale_event :=
            {| product_name := product_name;
               quantity_delta := quantity_sold;
               inventory_before :=
                 if delta =? 0 then previous_count + quantity_sold
                 else previous_count;
               inventory_after := current_count;
               timestamp_utc := current_timestamp;
               validated := true |} in
          let e2 := set_last_sale_time e1
                      (<[product_name := current_timestamp]> (last_sale_time e1)) in
          (set_pending_decreases e2 (<[product_name := []]> (pending_decreases e2)),
           Some sale_event)
        else (e1, None)
      else (e1, None)
  | _ => (e1, None)
  end.

(** The whole product loop; the events come out in the order in which they
    are appended to [sales_events]. *)
Fixpoint attribute_products (current_timestamp : Z)
    (current_inventory previous_inventory : gmap string Z)
    (e : SalesAttributionEngine) (all_products : list string)
    : SalesAttributionEngine * list SaleEvent :=
  match all_products with
  | [] => (e, [])
  | product_name :: rest =>
      let '(e1, sale) :=
        attribute_product current_timestamp current_inventory previous_inventory
          e product_name in
      let '(e2, sales) :=
        attribute_products current_timestamp current_inventory previous_inventory
          e1 rest in
      (e2, option_list sale ++ sales)
  end.

(** The fallback at the end of [_detect_attributed_sales]: the check for an
    unattributed total decrease. *)
Definition unattributed_fallback (e : SalesAttributionEngine)
    (current_timestamp : Z)
    (current_inventory previous_inventory : gmap string Z)
    (sales_events : list SaleEvent)
    : SalesAttributionEngine * list SaleEvent :=
  let total_current := dict_sum current_inventory in
  let total_previous := dict_sum previous_inventory in
  let total_delta := total_current - total_previous in
  if (total_delta <? 0) && bool_decide (sales_events = []) then
    let '(ok, e1) := _validate_total_decrease e total_delta current_timestamp in
    if ok then
      (e1, sales_events ++
           [ {| product_name := "Unknown";
                quantity_delta := Z.abs total_delta;
                inventory_before := total_previous;
                inventory_after := total_current;
                timestamp_utc := current_timestamp;
                validated := false |} ])
    else (e1, sales_events)
  else (e, sales_events).

Definition _detect_attributed_sales (e : SalesAttributionEngine)
    (current_timestamp : Z) : SalesAttributionEngine * list SaleEvent :=
  match rev (snapshot_history e) with
  | (current_time, current_inventory) :: (previous_time, previous_inventory) :: _ =>
      let all_products :=
        elements (dom current_inventory ∪ dom previous_inventory) in
      let '(e1, sales_events) :=
        attribute_products current_timestamp current_inventory previous_inventory
          e all_products in
      let e2 := _cleanup_pending_decreases e1 current_timestamp in
      unattributed_fallback e2 current_timestamp current_inventory
        previous_inventory sales_events
  | _ => (e, []) (* [snapshot_history[-2]] would raise; the caller excludes it *)
  end.

(** [self.sales_by_product[name] += quantity] for every event. *)
Fixpoint record_sales (by_product : gmap string Z) (sales_events : list SaleEvent)
    : gmap string Z :=
  match sales_events with
  | [] => by_product
  | sale :: rest =>
      record_sales
        (<[product_name sale :=
             dict_get by_product (product_name sale) 0 + quantity_delta sale]> by_product)
        rest
  end.

(** [self.snapshot_history.append((timestamp, inventory.copy()))]; the
    history deque was built in [__init__] with
    [maxlen = confirm_intervals + 1]. *)
Definition append_snapshot (e : SalesAttributionEngine)
    (inventory : gmap string Z) (timestamp : Z) : SalesAttributionEngine :=
  set_snapshot_history e
    (deque_append (Z.to_nat (confirm_intervals e + 1))
       (snapshot_history e) (timestamp, inventory)).

Definition process_snapshot (e : SalesAttributionEngine)
    (inventory : gmap string Z) (timestamp : Z)
    : SalesAttributionEngine * list SaleEvent :=
  let e1 := append_snapshot e inventory timestamp in
  if (length (snapshot_history e1) <? 2)%nat then (e1, [])
  else
    let '(e2, sales_events) := _detect_attributed_sales e1 timestamp in
    (set_statistics e2
       (total_sales_detected e2 + Z.of_nat (length sales_events))
       (record_sales (sales_by_product e2) sales_events),
     sales_events).

(** [SalesAttributionEngine.reset] *)
Definition reset (e : SalesAttributionEngine) : SalesAttributionEngine :=
  {| confirm_intervals := confirm_intervals e;
     min_delta_threshold := min_delta_threshold e;
     cooldown_seconds := cooldown_seconds e;
     snapshot_interval := snapshot_interval e;
     snapshot_history := [];
     last_sale_time := ∅;
     pending_decreases := ∅;
     total_sales_detected := 0;
     sales_by_product := ∅;
     false_positives_filtered := 0 |}.

(** Feeding a sequence of snapshots, one [process_snapshot] call per tick;
    the result lists the events returned by each call. *)
Fixpoint run (e : SalesAttributionEngine) (snapshots : list (gmap string Z * Z))
    : SalesAttributionEngine * list (list SaleEvent) :=
  match snapshots with
  | [] => (e, [])
  | (inventory, timestamp) :: rest =>
      let '(e1, sales_events) := process_snapshot e inventory timestamp in
      let '(e2, later) := run e1 rest in
      (e2, sales_events :: later)
  end.

(** [all_products] is a Python [set] of strings, and the loop of
    [_detect_attributed_sales] visits it in an order that the language
    leaves open: it depends on the hash seed of the process and on how the
    set was filled.  The three functions below are
    [_detect_attributed_sales], [process_snapshot] and [run] with that
    order, [order], as an argument; with [elements] for [order] they are
    the functions above. *)
Definition _detect_attributed_sales_in (order : gset string → list string)
    (e : SalesAttributionEngine)
    (current_timestamp : Z) : SalesAttributionEngine * list SaleEvent :=
  match rev (snapshot_history e) with
  | (current_time, current_inventory) :: (previous_time, previous_inventory) :: _ =>
      let all_products :=
        order (dom current_inventory ∪ dom previous_inventory) in
      let '(e1, sales_events) :=
        attribute_products current_timestamp current_inventory previous_inventory
          e all_products in
      let e2 := _cleanup_pending_decreases e1 current_timestamp in
      unattributed_fallback e2 current_timestamp current_inventory
        previous_inventory sales_events
  | _ => (e, [])
  end.

Definition process_snapshot_in (order : gset string → list string)
    (e : SalesAttributionEngine)
    (inventory : gmap string Z) (timestamp : Z)
    : SalesAttributionEngine * list SaleEvent :=
  let e1 := append_snapshot e inventory timestamp in
  if (length (snapshot_history e1) <? 2)%nat then (e1, [])
  else
    let '(e2, sales_events) := _detect_attributed_sales_in order e1 timestamp in
    (set_statistics e2
       (total_sales_detected e2 + Z.of_nat (length sales_events))
       (record_sales (sales_by_product e2) sales_events),
     sales_events).

Fixpoint run_in (order : gset string → list string)
    (e : SalesAttributionEngine) (snapshots : list (gmap string Z * Z))
    : SalesAttributionEngine * list (list SaleEvent) :=
  match snapshots with
  | [] => (e, [])
  | (inventory, timestamp) :: rest =>
      let '(e1, sales_events) := process_snapshot_in order e inventory timestamp in
      let '(e2, later) := run_in order e1 rest in
      (e2, sales_events :: later)
  end.

(** The dictionary returned by [get_statistics]; [now] is the value of
    [time.time()] read by the ['products_on_cooldown'] entry, and the three
    [config_] fields are the entries of the nested ['config'] dictionary. *)
Record Statistics := {
  stat_total_sales_detected : Z;
  stat_sales_by_product : gmap string Z;
  stat_false_positives_filtered : Z;
  stat_pending_validations : Z;
  stat_products_on_cooldown : Z;
  config_confirm_intervals : Z;
  config_min_delta_threshold : Z;
  config_cooldown_seconds : Z
}.

Definition get_statistics (e : SalesAttributionEngine) (now : Z) : Statistics :=
  {| stat_total_sales_detected := total_sales_detected e;
     stat_sales_by_product := sales_by_product e;
     stat_false_positives_filtered := false_positives_filtered e;
     stat_pending_validations :=
       map_fold (λ _ p acc, Z.of_nat (length p) + acc) 0 (pending_decreases e);
     stat_products_on_cooldown :=
       Z.of_nat (size (filter (λ entry, now - entry.2 < cooldown_seconds e)
                         (last_sale_time e)));
     config_confirm_intervals := confirm_intervals e;
     config_min_delta_threshold := min_delta_threshold e;
     config_cooldown_seconds := cooldown_seconds e |}.

End SalesAttribution.

(** ** backend/alerts.py *)

Module Alerts.

(** [class AlertType] and [class AlertSeverity]: string constants. *)
Definition LOW_STOCK : string := "low_stock".
Definition EXPIRATION : string := "expiration".
Definition INFO : string := "info".
Definition WARNING : string := "warning".
Definition CRITICAL : string := "critical".

(** The [metadata] dictionary of an alert, one shape per alert type. *)
Inductive AlertMetadata :=
  | LowStockMetadata (current_count threshold : Z) (status : string)
  | ExpirationMetadata (age_days : Q) (expiration_days : Z) (first_seen_utc : option Z).

(** [class Alert].  The [message] string is a rendering of the other
    fields and is not kept. *)
Record Alert := {
  alert_type : string;
  product_name : string;
  severity : string;
  timestamp_utc : Z;
  metadata : AlertMetadata
}.

(** [alert_id], the string made of the type, the product and
    [int(timestamp_utc)], is represented by the triple of the three.
    [int] is the identity when timestamps are counted in whole seconds.
    With a finer unit the id of the code is coarser than this triple: two
    alerts of one type and product raised within the same second, which a
    cooldown below one second allows, share their id there, and the later
    one replaces the earlier one in the cache of active alerts. *)
Definition alert_id (a : Alert) : string * string * Z :=
  (alert_type a, product_name a, timestamp_utc a).

(** One value of the [freshness_state] dictionary; a field is [None] when
    the key is absent, and the engine reads it with [.get] and a default. *)
Record FreshnessData := {
  is_expired : option bool;
  age_days : option Q;
  expiration_days : option Z;
  first_seen_utc : option Z
}.

(** The attributes of an [AlertEngine] instance that the evaluation reads
    or writes.  The two pending maps are the [defaultdict]s of deques of
    [(timestamp, observation)] pairs; the e-mail notifier and the
    persistence manager are outside the engine's state. *)
Record AlertEngine := {
  low_stock_thresholds : gmap string Z;
  low_stock_confirm_intervals : Z;
  expiration_confirm_intervals : Z;
  alert_cooldown_seconds : Z;
  pending_low_stock : gmap string (list (Z * Z));
  pending_expiration : gmap string (list (Z * Q));
  last_alert_time : gmap (string * string) Z;
  active_alerts : gmap (string * string * Z) Alert;
  total_alerts_triggered : Z;
  alerts_by_type : gmap string Z;
  alerts_suppressed_by_cooldown : Z
}.

Definition set_pending_low_stock (e : AlertEngine)
    (m : gmap string (list (Z * Z))) : AlertEngine :=
  {| low_stock_thresholds := low_stock_thresholds e;
     low_stock_confirm_intervals := low_stock_confirm_intervals e;
     expiration_confirm_intervals := expiration_confirm_intervals e;
     alert_cooldown_seconds := alert_cooldown_seconds e;
     pending_low_stock := m;
     pending_expiration := pending_expiration e;
     last_alert_time := last_alert_time e;
     active_alerts := active_alerts e;
     total_alerts_triggered := total_alerts_triggered e;
     alerts_by_type := alerts_by_type e;
     alerts_suppressed_by_cooldown := alerts_suppressed_by_cooldown e |}.

Definition set_pending_expiration (e : AlertEngine)
    (m : gmap string (list (Z * Q))) : AlertEngine :=
  {| low_stock_thresholds := low_stock_thresholds e;
     low_stock_confirm_intervals := low_stock_confirm_intervals e;
     expiration_confirm_intervals := expiration_confirm_intervals e;
     alert_cooldown_seconds := alert_cooldown_seconds e;
     pending_low_stock := pending_low_stock e;
     pending_expiration := m;
     last_alert_time := last_alert_time e;
     active_alerts := active_alerts e;
     total_alerts_triggered := total_alerts_triggered e;
     alerts_by_type := alerts_by_type e;
     alerts_suppressed_by_cooldown := alerts_suppressed_by_cooldown e |}.

Definition set_last_alert_time (e : AlertEngine)
    (m : gmap (string * string) Z) : AlertEngine :=
  {| low_stock_thresholds := low_stock_thresholds e;
     low_stock_confirm_intervals := low_stock_confirm_intervals e;
     expiration_confirm_intervals := expiration_confirm_intervals e;
     alert_cooldown_seconds := alert_cooldown_seconds e;
     pending_low_stock := pending_low_stock e;
     pending_expiration := pending_expiration e;
     last_alert_time := m;
     active_alerts := active_alerts e;
     total_alerts_triggered := total_alerts_triggered e;
     alerts_by_type := alerts_by_type e;
     alerts_suppressed_by_cooldown := alerts_suppressed_by_cooldown e |}.

(** [self.alerts_suppressed_by_cooldown += 1] *)
Definition count_suppressed (e : AlertEngine) : AlertEngine :=
  {| low_stock_thresholds := low_stock_thresholds e;
     low_stock_confirm_intervals := low_stock_confirm_intervals e;
     expiration_confirm_intervals := expiration_confirm_intervals e;
     alert_cooldown_seconds := alert_cooldown_seconds e;
     pending_low_stock := pending_low_stock e;
     pending_expiration := pending_expiration e;
     last_alert_time := last_alert_time e;
     active_alerts := active_alerts e;
     total_alerts_triggered := total_alerts_triggered e;
     alerts_by_type := alerts_by_type e;
     alerts_suppressed_by_cooldown := alerts_suppressed_by_cooldown e + 1 |}.

(** [AlertEngine.__init__]: the arguments are stored as given and no value
    is checked; the deques are only built later, on first use.  Two
    statements can raise.  With [enable_email_alerts] set, [EmailNotifier()]
    reads its settings from the environment and raises when [SMTP_PORT] is
    not an integer literal; [email_notifier_built] tells whether it
    returned.  The closing log line takes [len(low_stock_thresholds)], a
    [TypeError] when the map is [None]; the map has no default, so leaving
    it out is a [TypeError] of the call itself.  An absent map is [None]
    here. *)
Definition __init__ (low_stock_thresholds : option (gmap string Z))
    (low_stock_confirm_intervals expiration_confirm_intervals
     alert_cooldown_seconds : Z)
    (enable_email_alerts email_notifier_built : bool) : option AlertEngine :=
  if enable_email_alerts && negb email_notifier_built then None
  else
    match low_stock_thresholds with
    | None => None
    | Some thresholds =>
        Some
          {| low_stock_thresholds := thresholds;
             low_stock_confirm_intervals := low_stock_confirm_intervals;
             expiration_confirm_intervals := expiration_confirm_intervals;
             alert_cooldown_seconds := alert_cooldown_seconds;
             pending_low_stock := ∅;
             pending_expiration := ∅;
             last_alert_time := ∅;
             active_alerts := ∅;
             total_alerts_triggered := 0;
             alerts_by_type := ∅;
             alerts_suppressed_by_cooldown := 0 |}
    end.

(** [pending[product_name]] on one of the two [defaultdict]s: the deque of
    the product, or a new [deque(maxlen=maxlen)] when the key is missing,
    which raises [ValueError] for a negative [maxlen]. *)
Definition pending_deque {A : Type} (maxlen : Z) (pending : gmap string (list (Z * A)))
    (product_name : string) : option (list (Z * A)) :=
  match pending !! product_name with
  | Some q => Some q
  | None => if maxlen <? 0 then None else Some []
  end.

(** The loop of [_validate_low_stock] over the pending observations. *)
Fixpoint all_at_most (threshold : Z) (pending : list (Z * Z)) : bool :=
  match pending with
  | [] => true
  | (_, count) :: rest =>
      if count >? threshold then false else all_at_most threshold rest
  end.

Definition _validate_low_stock (e : AlertEngine) (product_name : string)
    (threshold : Z) : bool :=
  let pending := default [] (pending_low_stock e !! product_name) in
  if Z.of_nat (length pending) <? low_stock_confirm_intervals e then false
  else all_at_most threshold pending.

Definition _validate_expiration (e : AlertEngine) (product_name : string) : bool :=
  let pending := default [] (pending_expiration e !! product_name) in
  if Z.of_nat (length pending) <? expiration_confirm_intervals e then false
  else true.

Definition _check_cooldown (e : AlertEngine) (alert_type product_name : string)
    (current_time : Z) : bool * AlertEngine :=
  let key := (alert_type, product_name) in
  match last_alert_time e !! key with
  | None => (true, e)
  | Some last =>
      let time_since_last := current_time - last in
      if time_since_last <? alert_cooldown_seconds e then (false, count_suppressed e)
      else (true, e)
  end.

(** The body of the loop of [_evaluate_low_stock] for one item of
    [low_stock_thresholds]. *)
Definition low_stock_step (inventory : gmap string Z) (timestamp_utc : Z)
    (e : AlertEngine) (item : string * Z) : option (AlertEngine * option Alert) :=
  let '(product_name, threshold) := item in
  let current_count := dict_get inventory product_name 0 in
  if current_count <=? threshold then
    q ← pending_deque (low_stock_confirm_intervals e + 1) (pending_low_stock e) product_name;
    let e1 := set_pending_low_stock e
                (<[product_name :=
                     deque_append (Z.to_nat (low_stock_confirm_intervals e + 1)) q
                       (timestamp_utc, current_count)]> (pending_low_stock e)) in
    if _validate_low_stock e1 product_name threshold then
      let '(allowed, e2) := _check_cooldown e1 LOW_STOCK product_name timestamp_utc in
      if allowed then
        let alert :=
          {| alert_type := LOW_STOCK;
             product_name := product_name;
             severity := if current_count =? 0 then CRITICAL else WARNING;
             timestamp_utc := timestamp_utc;
             metadata :=
               LowStockMetadata current_count threshold
                 (if current_count =? 0 then "out_of_stock" else "low_stock") |} in
        let e3 := set_last_alert_time e2
                    (<[(LOW_STOCK, product_name) := timestamp_utc]> (last_alert_time e2)) in
        Some (set_pending_low_stock e3 (<[product_name := []]> (pending_low_stock e3)),
              Some alert)
      else Some (e2, None)
    else Some (e1, None)
  else
    match pending_low_stock e !! product_name with
    | Some _ =>
        Some (set_pending_low_stock e (<[product_name := []]> (pending_low_stock e)), None)
    | None => Some (e, None)
    end.

(** The body of the loop of [_evaluate_expiration] for one item of
    [freshness_state].  The deque keeps the age as read; the metadata of
    the alert hold [round(age_days, 1)]. *)
Definition expiration_step (timestamp_utc : Z)
    (e : AlertEngine) (item : string * FreshnessData) : option (AlertEngine * option Alert) :=
  let '(product_name, freshness_data) := item in
  let expired := default false (is_expired freshness_data) in
  let age := default 0%Q (age_days freshness_data) in
  if expired then
    q ← pending_deque (expiration_confirm_intervals e + 1) (pending_expiration e) product_name;
    let e1 := set_pending_expiration e
                (<[product_name :=
                     deque_append (Z.to_nat (expiration_confirm_intervals e + 1)) q
                       (timestamp_utc, age)]> (pending_expiration e)) in
    if _validate_expiration e1 product_name then
      let '(allowed, e2) := _check_cooldown e1 EXPIRATION product_name timestamp_utc in
      if allowed then
        let alert :=
          {| alert_type := EXPIRATION;
             product_name := product_name;
             severity := WARNING;
             timestamp_utc := timestamp_utc;
             metadata :=
               ExpirationMetadata (round1 age)
                 (default 5 (expiration_days freshness_data))
                 (first_seen_utc freshness_data) |} in
        let e3 := set_last_alert_time e2
                    (<[(EXPIRATION, product_name) := timestamp_utc]> (last_alert_time e2)) in
        Some (set_pending_expiration e3 (<[product_name := []]> (pending_expiration e3)),
              Some alert)
      else Some (e2, None)
    else Some (e1, None)
  else
    match pending_expiration e !! product_name with
    | Some _ =>
        Some (set_pending_expiration e (<[product_name := []]> (pending_expiration e)), None)
    | None => Some (e, None)
    end.

(** A [for] loop over the items of a dictionary whose body may append one
    alert and may raise. *)
Fixpoint for_items {I : Type} (body : AlertEngine → I → option (AlertEngine * option Alert))
    (e : AlertEngine) (items : list I) : option (AlertEngine * list Alert) :=
  match items with
  | [] => Some (e, [])
  | item :: rest =>
      '(e1, alert) ← body e item;
      '(e2, alerts) ← for_items body e1 rest;
      Some (e2, option_list alert ++ alerts)
  end.

Definition _evaluate_low_stock (e : AlertEngine) (inventory : gmap string Z)
    (timestamp_utc : Z) : option (AlertEngine * list Alert) :=
  for_items (low_stock_step inventory timestamp_utc) e
    (map_to_list (low_stock_thresholds e)).

Definition _evaluate_expiration (e : AlertEngine)
    (freshness_state : gmap string FreshnessData) (timestamp_utc : Z)
    : option (AlertEngine * list Alert) :=
  for_items (expiration_step timestamp_utc) e (map_to_list freshness_state).

(** [_process_alert]: the statistics and the active-alert cache; sending
    the e-mail and writing to the database do not touch the engine. *)
Definition _process_alert (e : AlertEngine) (alert : Alert) : AlertEngine :=
  {| low_stock_thresholds := low_stock_thresholds e;
     low_stock_confirm_intervals := low_stock_confirm_intervals e;
     expiration_confirm_intervals := expiration_confirm_intervals e;
     alert_cooldown_seconds := alert_cooldown_seconds e;
     pending_low_stock := pending_low_stock e;
     pending_expiration := pending_expiration e;
     last_alert_time := last_alert_time e;
     active_alerts := <[alert_id alert := alert]> (active_alerts e);
     total_alerts_triggered := total_alerts_triggered e + 1;
     alerts_by_type :=
       <[alert_type alert := dict_get (alerts_by_type e) (alert_type alert) 0 + 1]>
         (alerts_by_type e);
     alerts_suppressed_by_cooldown := alerts_suppressed_by_cooldown e |}.

Definition evaluate (e : AlertEngine) (inventory : gmap string Z)
    (freshness_state : gmap string FreshnessData) (timestamp_utc : Z)
    : option (AlertEngine * list Alert) :=
  '(e1, low_stock_alerts) ← _evaluate_low_stock e inventory timestamp_utc;
  '(e2, expiration_alerts) ← _evaluate_expiration e1 freshness_state timestamp_utc;
  let alerts := low_stock_alerts ++ expiration_alerts in
  Some (foldl _process_alert e2 alerts, alerts).

(** One [evaluate] call per tick; the result lists the alerts returned by
    each call. *)
Fixpoint run (e : AlertEngine)
    (ticks : list (gmap string Z * gmap string FreshnessData * Z))
    : option (AlertEngine * list (list Alert)) :=
  match ticks with
  | [] => Some (e, [])
  | (inventory, freshness_state, timestamp_utc) :: rest =>
      '(e1, alerts) ← evaluate e inventory freshness_state timestamp_utc;
      '(e2, later) ← run e1 rest;
      Some (e2, alerts :: later)
  end.

(** [get_active_alerts]: the cached alerts, in the order of the cache. *)
Definition get_active_alerts (e : AlertEngine) : list Alert :=
  (map_to_list (active_alerts e)).*2.

(** [acknowledge_alert]: the alert is removed from the cache if it is
    there; nothing else changes. *)
Definition acknowledge_alert (e : AlertEngine) (id : string * string * Z) : AlertEngine :=
  match active_alerts e !! id with
  | None => e
  | Some _ =>
      {| low_stock_thresholds := low_stock_thresholds e;
         low_stock_confirm_intervals := low_stock_confirm_intervals e;
         expiration_confirm_intervals := expiration_confirm_intervals e;
         alert_cooldown_seconds := alert_cooldown_seconds e;
         pending_low_stock := pending_low_stock e;
         pending_expiration := pending_expiration e;
         last_alert_time := last_alert_time e;
         active_alerts := delete id (active_alerts e);
         total_alerts_triggered := total_alerts_triggered e;
         alerts_by_type := alerts_by_type e;
         alerts_suppressed_by_cooldown := alerts_suppressed_by_cooldown e |}
  end.

End Alerts.

(** ** backend/inventory_persistent.py: the snapshot schedule *)

Module InventoryPersistent.

(** The attributes of a [PersistentInventoryTracker] that decide when the
    sales engine is fed.  After [__init__] the persistence manager is set
    exactly when [enable_persistence] is true.  The smoothing of the base
    class, the database writes, the freshness cache and the alert engine
    are outside this part. *)
Record PersistentInventoryTracker := {
  enable_persistence : bool;
  snapshot_interval : Z;
  last_snapshot_time : Z;
  sales_attribution : option SalesAttribution.SalesAttributionEngine
}.

(** [PersistentInventoryTracker.__init__]: [persistence_started] tells
    whether [PersistenceManager(db_path)] returned; if it raised,
    persistence is switched off.  The sales engine is built only with
    persistence on, and an exception of its constructor leaves [None]. *)
Definition __init__ (snapshot_interval : Z) (enable_persistence persistence_started : bool)
    (sales_confirm_intervals sales_min_delta sales_cooldown_seconds : Z)
    : PersistentInventoryTracker :=
  let enabled := enable_persistence && persistence_started in
  {| enable_persistence := enabled;
     snapshot_interval := snapshot_interval;
     last_snapshot_time := 0;
     sales_attribution :=
       if enabled then
         SalesAttribution.__init__ sales_confirm_intervals sales_min_delta
           sales_cooldown_seconds snapshot_interval
       else None |}.

(** [_detect_and_log_sales]: the result lists the events handed to
    [persistence.log_sale]. *)
Definition _detect_and_log_sales (t : PersistentInventoryTracker)
    (current_inventory : gmap string Z) (current_time : Z)
    : PersistentInventoryTracker * list SalesAttribution.SaleEvent :=
  if negb (enable_persistence t) then (t, [])
  else
    match sales_attribution t with
    | None => (t, [])
    | Some e =>
        let '(e1, sales_events) :=
          SalesAttribution.process_snapshot e current_inventory current_time in
        ({| enable_persistence := enable_persistence t;
            snapshot_interval := snapshot_interval t;
            last_snapshot_time := last_snapshot_time t;
            sales_attribution := Some e1 |},
         sales_events)
    end.

(** [update], after the base class has smoothed the detections:
    [current_inventory] is [self.get_inventory()] and [current_time] is
    [time.time()]. *)
Definition update (t : PersistentInventoryTracker)
    (current_inventory : gmap string Z) (current_time : Z)
    : PersistentInventoryTracker * list SalesAttribution.SaleEvent :=
  if negb (enable_persistence t) then (t, [])
  else if current_time - last_snapshot_time t >=? snapshot_interval t then
    let '(t1, logged) := _detect_and_log_sales t current_inventory current_time in
    ({| enable_persistence := enable_persistence t1;
        snapshot_interval := snapshot_interval t1;
        last_snapshot_time := current_time;
        sales_attribution := sales_attribution t1 |},
     logged)
  else (t, []).

(** A sequence of [update] calls. *)
Fixpoint updates (t : PersistentInventoryTracker) (calls : list (gmap string Z * Z))
    : PersistentInventoryTracker * list (list SalesAttribution.SaleEvent) :=
  match calls with
  | [] => (t, [])
  | (current_inventory, current_time) :: rest =>
      let '(t1, logged) := update t current_inventory current_time in
      let '(t2, later) := updates t1 rest in
      (t2, logged :: later)
  end.

End InventoryPersistent.

(** ** Vocabulary of the statements *)

(** Construct a [SalesAttributionEngine] and feed it [snapshots]; the
    events of every tick, or [None] when the constructor raises. *)
Definition fresh_sales_run (confirm_intervals min_delta_threshold
    cooldown_seconds snapshot_interval : Z)
    (snapshots : list (gmap string Z * Z)) : option (list (list SalesAttribution.SaleEvent)) :=
  e ← SalesAttribution.__init__ confirm_intervals min_delta_threshold
         cooldown_seconds snapshot_interval;
  Some (SalesAttribution.run e snapshots).2.

(** Construct an [AlertEngine] for a given threshold map, with e-mail
    notifications off, and evaluate it on [ticks]. *)
Definition fresh_alert_run (low_stock_thresholds : gmap string Z)
    (low_stock_confirm_intervals expiration_confirm_intervals
     alert_cooldown_seconds : Z)
    (ticks : list (gmap string Z * gmap string Alerts.FreshnessData * Z))
    : option (Alerts.AlertEngine * list (list Alerts.Alert)) :=
  e ← Alerts.__init__ (Some low_stock_thresholds) low_stock_confirm_intervals
         expiration_confirm_intervals alert_cooldown_seconds false false;
  Alerts.run e ticks.

(** The engine of the test configuration ([confirm_intervals = 2],
    [min_delta_threshold = 1], [snapshot_interval = 5]) in a given state. *)
Definition test_engine (cooldown : Z) (history : list (Z * gmap string Z))
    (last_sale : gmap string Z) (pending : gmap string (list (Z * Z)))
    (filtered total : Z) (by_product : gmap string Z)
    : SalesAttribution.SalesAttributionEngine :=
  {| SalesAttribution.confirm_intervals := 2;
     SalesAttribution.min_delta_threshold := 1;
     SalesAttribution.cooldown_seconds := cooldown;
     SalesAttribution.snapshot_interval := 5;
     SalesAttribution.snapshot_history := history;
     SalesAttribution.last_sale_time := last_sale;
     SalesAttribution.pending_decreases := pending;
     SalesAttribution.total_sales_detected := total;
     SalesAttribution.sales_by_product := by_product;
     SalesAttribution.false_positives_filtered := filtered |}.

(** The inventories that [_detect_attributed_sales] reads off the history,
    [snapshot_history[-1]] and [snapshot_history[-2]], and the deltas it
    computes from them. *)
Definition current_inventory (e : SalesAttribution.SalesAttributionEngine)
    : gmap string Z :=
  match rev (SalesAttribution.snapshot_history e) with
  | (_, inventory) :: _ => inventory
  | [] => ∅
  end.

Definition previous_inventory (e : SalesAttribution.SalesAttributionEngine)
    : gmap string Z :=
  match rev (SalesAttribution.snapshot_history e) with
  | _ :: (_, inventory) :: _ => inventory
  | _ => ∅
  end.

Definition tick_delta (e : SalesAttribution.SalesAttributionEngine)
    (product_name : string) : Z :=
  dict_get (current_inventory e) product_name 0
  - dict_get (previous_inventory e) product_name 0.

Definition tick_products (e : SalesAttribution.SalesAttributionEngine) : list string :=
  elements (dom (current_inventory e) ∪ dom (previous_inventory e)).

(** The sum of the per-product deltas of the tick. *)
Definition sum_of_deltas (e : SalesAttribution.SalesAttributionEngine) : Z :=
  foldr Z.add 0 (tick_delta e <$> tick_products e).

(** Two engines with the same configuration and the same history. *)
Definition same_settings (e1 e2 : SalesAttribution.SalesAttributionEngine) : Prop :=
  SalesAttribution.confirm_intervals e1 = SalesAttribution.confirm_intervals e2
  ∧ SalesAttribution.min_delta_threshold e1 = SalesAttribution.min_delta_threshold e2
  ∧ SalesAttribution.cooldown_seconds e1 = SalesAttribution.cooldown_seconds e2
  ∧ SalesAttribution.snapshot_interval e1 = SalesAttribution.snapshot_interval e2
  ∧ SalesAttribution.snapshot_history e1 = SalesAttribution.snapshot_history e2.

(** Two engines that the loop body cannot tell apart when it handles
    [product_name]. *)
Definition agree_on (product_name : string)
    (e1 e2 : SalesAttribution.SalesAttributionEngine) : Prop :=
  same_settings e1 e2
  ∧ SalesAttribution.pending_decreases e1 !! product_name
    = SalesAttribution.pending_decreases e2 !! product_name
  ∧ SalesAttribution.last_sale_time e1 !! product_name
    = SalesAttribution.last_sale_time e2 !! product_name.

(** The pending queue of a product at the moment the loop body tests it
    for confirmation: its queue with this tick's delta recorded. *)
Definition confirming_queue (e : SalesAttribution.SalesAttributionEngine)
    (current_timestamp : Z) (product_name : string) : list (Z * Z) :=
  default []
    (SalesAttribution.record_delta e product_name current_timestamp
       (tick_delta e product_name) !! product_name).

(** The count of a product in the snapshot that immediately precedes the
    snapshot taken at [timestamp], if the history still holds both. *)
Fixpoint count_before_tick (history : list (Z * gmap string Z))
    (timestamp : Z) (product_name : string) : option Z :=
  match history with
  | [] => None
  | (_, inventory) :: rest =>
      match rest with
      | [] => None
      | (next_timestamp, _) :: _ =>
          if next_timestamp =? timestamp then Some (dict_get inventory product_name 0)
          else count_before_tick rest timestamp product_name
      end
  end.

(** The fields of an attributed sale as the specification words them:
    the quantity is the magnitude of the earliest pending delta, the
    inventory before is the count that preceded the first pending tick and
    the inventory after is the current count.  [e] is the engine with the
    snapshot of the tick appended. *)
Definition sale_fields_as_specified (e : SalesAttribution.SalesAttributionEngine)
    (current_timestamp : Z) (ev : SalesAttribution.SaleEvent) : Prop :=
  match confirming_queue e current_timestamp (SalesAttribution.product_name ev) with
  | [] => False
  | (first_pending_tick, earliest_delta) :: _ =>
      SalesAttribution.quantity_delta ev = Z.abs earliest_delta
      ∧ count_before_tick (SalesAttribution.snapshot_history e) first_pending_tick
          (SalesAttribution.product_name ev)
        = Some (SalesAttribution.inventory_before ev)
      ∧ SalesAttribution.inventory_after ev
        = dict_get (current_inventory e) (SalesAttribution.product_name ev) 0
  end.

(** The multi-step decrease 10 -> 8 -> 7 of one product under the test
    configuration with a cooldown of 10: the engine after the snapshots
    [{mango: 10}] at 0 and [{mango: 8}] at 5. *)
Definition multi_step_engine : SalesAttribution.SalesAttributionEngine :=
  test_engine 10 [(0, {["mango" := 10]}); (5, {["mango" := 8]})] ∅
    {["mango" := [(5, -2)]]} 0 0 ∅.

(** The sale that the third snapshot, [{mango: 7}] at 10, produces. *)
Definition multi_step_sale : SalesAttribution.SaleEvent :=
  {| SalesAttribution.product_name := "mango";
     SalesAttribution.quantity_delta := 1;
     SalesAttribution.inventory_before := 8;
     SalesAttribution.inventory_after := 7;
     SalesAttribution.timestamp_utc := 10;
     SalesAttribution.validated := true |}.

(** A series in which every value is below the one before it. *)
Definition strictly_decreasing (series : list Z) : Prop :=
  ∀ i a b, series !! i = Some a → series !! S i = Some b → b < a.

(** The total counts of the last [confirm_intervals + 1] retained
    snapshots, oldest first. *)
Definition window_totals (e : SalesAttribution.SalesAttributionEngine) : list Z :=
  map (λ s, dict_sum s.2)
    (slice_last (SalesAttribution.confirm_intervals e + 1)
       (SalesAttribution.snapshot_history e)).

(** The list of events holds an unattributed, ["Unknown"] sale. *)
Definition unattributed_sale_emitted (sales_events : list SalesAttribution.SaleEvent) : Prop :=
  ∃ ev, ev ∈ sales_events
        ∧ SalesAttribution.product_name ev = "Unknown"
        ∧ SalesAttribution.validated ev = false.

(** The rule of the unattributed fallback as the specification words it,
    for the tick that feeds [inventory] at [timestamp] to [e]: when the
    deltas sum to a negative total and no attributed sale is emitted, the
    ["Unknown"] sale is emitted exactly when the magnitude reaches twice
    the threshold and the totals of the window are strictly decreasing. *)
Definition fallback_rule_as_specified (e : SalesAttribution.SalesAttributionEngine)
    (inventory : gmap string Z) (timestamp : Z) : Prop :=
  let e1 := SalesAttribution.append_snapshot e inventory timestamp in
  let r := SalesAttribution.process_snapshot e inventory timestamp in
  (2 ≤ length (SalesAttribution.snapshot_history e1))%nat →
  sum_of_deltas e1 < 0 →
  (∀ ev, ev ∈ r.2 → SalesAttribution.validated ev = false) →
  (unattributed_sale_emitted r.2 ↔
     2 * SalesAttribution.min_delta_threshold e ≤ Z.abs (sum_of_deltas e1)
     ∧ strictly_decreasing (window_totals e1)).

(** Four products with the same count. *)
Definition crate (count : Z) : gmap string Z :=
  {[ "apple" := count; "kiwi" := count; "mango" := count; "pear" := count ]}.

(** A steady decrease: every product loses one item per tick, so that with
    [min_delta_threshold = 2] no product qualifies on its own while the
    total drops by 4 on every tick. *)
Definition steady_decrease : list (gmap string Z * Z) :=
  [ (crate 10, 0); (crate 9, 5); (crate 8, 10); (crate 7, 15); (crate 6, 20) ].

Definition unknown_sale (quantity before after timestamp : Z)
    : SalesAttribution.SaleEvent :=
  {| SalesAttribution.product_name := "Unknown";
     SalesAttribution.quantity_delta := quantity;
     SalesAttribution.inventory_before := before;
     SalesAttribution.inventory_after := after;
     SalesAttribution.timestamp_utc := timestamp;
     SalesAttribution.validated := false |}.

(** The engine with [confirm_intervals = 2], [min_delta_threshold = 2],
    [cooldown_seconds = 10] and [snapshot_interval = 5] after the first two
    snapshots of [steady_decrease]. *)
Definition steady_engine : SalesAttribution.SalesAttributionEngine :=
  {| SalesAttribution.confirm_intervals := 2;
     SalesAttribution.min_delta_threshold := 2;
     SalesAttribution.cooldown_seconds := 10;
     SalesAttribution.snapshot_interval := 5;
     SalesAttribution.snapshot_history := [(0, crate 10); (5, crate 9)];
     SalesAttribution.last_sale_time := ∅;
     SalesAttribution.pending_decreases := ∅;
     SalesAttribution.total_sales_detected := 0;
     SalesAttribution.sales_by_product := ∅;
     SalesAttribution.false_positives_filtered := 0 |}.

(** The history respects the bound of its deque, and decreases are only
    pending once two snapshots are held. *)
Definition history_within_bound (e : SalesAttribution.SalesAttributionEngine) : Prop :=
  (length (SalesAttribution.snapshot_history e)
   ≤ Z.to_nat (SalesAttribution.confirm_intervals e + 1))%nat
  ∧ (SalesAttribution.pending_decreases e = ∅
     ∨ (2 ≤ length (SalesAttribution.snapshot_history e))%nat).

(** The attributed sales of a run, in the order of their emission. *)
Definition attributed_sales (ticks : list (list SalesAttribution.SaleEvent))
    : list SalesAttribution.SaleEvent :=
  filter (λ ev, SalesAttribution.validated ev = true) (concat ticks).

Section cooldown.
Context {E K : Type} `{Countable K}.
Variables (key : E → K) (time : E → Z) (cooldown : Z).

(** Any two events of the trace with the same key are at least one
    cooldown apart. *)
Definition cooldown_spaced (trace : list E) : Prop :=
  ∀ i j a b, (i < j)%nat → trace !! i = Some a → trace !! j = Some b →
             key a = key b → cooldown ≤ time b - time a.

(** The trace is spaced and the cooldown record of every key that has
    emitted is not older than its emissions. *)
Definition cooldown_invariant (last : gmap K Z) (trace : list E) : Prop :=
  cooldown_spaced trace
  ∧ ∀ a, a ∈ trace → ∃ t, last !! key a = Some t ∧ time a ≤ t.

End cooldown.

(** One product that loses one item per tick, watched with
    [confirm_intervals = 1], [min_delta_threshold = 1],
    [cooldown_seconds = 60] and [snapshot_interval = 5]. *)
Definition slow_sale : list (gmap string Z * Z) :=
  [ ({["mango" := 10]}, 0); ({["mango" := 9]}, 5); ({["mango" := 8]}, 10);
    ({["mango" := 7]}, 15); ({["mango" := 6]}, 20) ].

(** Every deque of a pending map holds at most [bound] observations. *)
Definition deques_bounded {A : Type} (bound : Z)
    (pending : gmap string (list (Z * A))) : Prop :=
  ∀ product_name q, pending !! product_name = Some q → Z.of_nat (length q) ≤ bound.

(** Two alert engines with the same configuration. *)
Definition same_alert_settings (e1 e2 : Alerts.AlertEngine) : Prop :=
  Alerts.low_stock_thresholds e1 = Alerts.low_stock_thresholds e2
  ∧ Alerts.low_stock_confirm_intervals e1 = Alerts.low_stock_confirm_intervals e2
  ∧ Alerts.expiration_confirm_intervals e1 = Alerts.expiration_confirm_intervals e2
  ∧ Alerts.alert_cooldown_seconds e1 = Alerts.alert_cooldown_seconds e2.

(** The cooldown key of an alert. *)
Definition alert_key (a : Alerts.Alert) : string * string :=
  (Alerts.alert_type a, Alerts.product_name a).

(** A freshness record of an expired product. *)
Definition expired_record : Alerts.FreshnessData :=
  {| Alerts.is_expired := Some true;
     Alerts.age_days := Some 6%Q;
     Alerts.expiration_days := Some 5;
     Alerts.first_seen_utc := Some 0 |}.

(** Two products watched with thresholds 3 and 2: the mangos are sold out
    and the kiwis are low for two ticks, then both are restocked; the
    mangos are also reported expired throughout. *)
Definition stockout_ticks
    : list (gmap string Z * gmap string Alerts.FreshnessData * Z) :=
  [ ({["mango" := 0; "kiwi" := 1]}, {["mango" := expired_record]}, 0);
    ({["mango" := 0; "kiwi" := 1]}, {["mango" := expired_record]}, 5);
    ({["mango" := 9; "kiwi" := 8]}, {["mango" := expired_record]}, 10) ].

Definition stockout_thresholds : gmap string Z := {["mango" := 3; "kiwi" := 2]}.

(** The alert engine with [stockout_thresholds], both confirmation
    intervals 2 and a cooldown of 3600, after the first tick of
    [stockout_ticks]. *)
Definition stockout_engine : Alerts.AlertEngine :=
  {| Alerts.low_stock_thresholds := stockout_thresholds;
     Alerts.low_stock_confirm_intervals := 2;
     Alerts.expiration_confirm_intervals := 2;
     Alerts.alert_cooldown_seconds := 3600;
     Alerts.pending_low_stock := {["mango" := [(0, 0)]; "kiwi" := [(0, 1)]]};
     Alerts.pending_expiration := {["mango" := [(0, 6%Q)]]};
     Alerts.last_alert_time := ∅;
     Alerts.active_alerts := ∅;
     Alerts.total_alerts_triggered := 0;
     Alerts.alerts_by_type := ∅;
     Alerts.alerts_suppressed_by_cooldown := 0 |}.

(** A freshness record of a product that is not expired. *)
Definition fresh_record : Alerts.FreshnessData :=
  {| Alerts.is_expired := Some false;
     Alerts.age_days := Some 1%Q;
     Alerts.expiration_days := Some 5;
     Alerts.first_seen_utc := Some 0 |}.

Definition out_of_stock_alert : Alerts.Alert :=
  {| Alerts.alert_type := Alerts.LOW_STOCK;
     Alerts.product_name := "mango";
     Alerts.severity := Alerts.CRITICAL;
     Alerts.timestamp_utc := 5;
     Alerts.metadata := Alerts.LowStockMetadata 0 3 "out_of_stock" |}.

(** No product's count drops from one snapshot of the sequence to the
    next. *)
Definition never_decreasing (snapshots : list (gmap string Z * Z)) : Prop :=
  ∀ i a b p, snapshots !! i = Some a → snapshots !! S i = Some b →
             dict_get a.1 p 0 ≤ dict_get b.1 p 0.

(** Every pending delta of the engine is negative. *)
Definition pending_negative (e : SalesAttribution.SalesAttributionEngine) : Prop :=
  ∀ product_name entries,
    SalesAttribution.pending_decreases e !! product_name = Some entries →
    Forall (λ x, x.2 < 0) entries.

(** The [k]-th entry from the end of a pending list was recorded at least
    [k] intervals before [now]. *)
Definition entries_aged (interval now : Z) (entries : list (Z * Z)) : Prop :=
  ∀ k x, rev entries !! k = Some x → x.1 + interval * Z.of_nat k ≤ now.

(** The camera loop calls [update] more often than snapshots are due: one
    product that loses one item per due snapshot, with a call in between
    that comes too early. *)
Definition tracked_sale : list (gmap string Z * Z) :=
  [ ({["mango" := 10]}, 100); ({["mango" := 10]}, 102); ({["mango" := 9]}, 105);
    ({["mango" := 8]}, 110); ({["mango" := 7]}, 115); ({["mango" := 6]}, 120) ].

(** The counts of [product_name] seen by the evaluations of an alert run,
    most recent first. *)
Definition counts_seen (product_name : string)
    (ticks : list (gmap string Z * gmap string Alerts.FreshnessData * Z)) : list Z :=
  rev (map (λ tick, dict_get tick.1.1 product_name 0) ticks).

(** An alert engine that differs from [e] in its cache of active alerts
    only. *)
Definition with_active_alerts (e : Alerts.AlertEngine)
    (cache : gmap (string * string * Z) Alerts.Alert) : Alerts.AlertEngine :=
  {| Alerts.low_stock_thresholds := Alerts.low_stock_thresholds e;
     Alerts.low_stock_confirm_intervals := Alerts.low_stock_confirm_intervals e;
     Alerts.expiration_confirm_intervals := Alerts.expiration_confirm_intervals e;
     Alerts.alert_cooldown_seconds := Alerts.alert_cooldown_seconds e;
     Alerts.pending_low_stock := Alerts.pending_low_stock e;
     Alerts.pending_expiration := Alerts.pending_expiration e;
     Alerts.last_alert_time := Alerts.last_alert_time e;
     Alerts.active_alerts := cache;
     Alerts.total_alerts_triggered := Alerts.total_alerts_triggered e;
     Alerts.alerts_by_type := Alerts.alerts_by_type e;
     Alerts.alerts_suppressed_by_cooldown := Alerts.alerts_suppressed_by_cooldown e |}.

(** The calls of a sequence at which a snapshot is due: those that come at
    least [interval] after the last due one, the clock starting at
    [last]. *)
Fixpoint due_calls (interval last : Z) (calls : list (gmap string Z * Z))
    : list (gmap string Z * Z) :=
  match calls with
  | [] => []
  | (inventory, time) :: rest =>
      if time - last >=? interval then (inventory, time) :: due_calls interval time rest
      else due_calls interval last rest
  end.

(** What the schedule of the tracker guarantees about its sales engine
    when the last snapshot was taken at [last_snapshot_time]: the engine has the
    tracker's interval, its history respects the deque, its snapshots are
    at least one interval apart and not newer than it, and every
    pending list is aged and pruned with respect to it. *)
Definition on_schedule (interval last_snapshot_time : Z)
    (e : SalesAttribution.SalesAttributionEngine) : Prop :=
  SalesAttribution.snapshot_interval e = interval
  ∧ history_within_bound e
  ∧ (∀ i a b, SalesAttribution.snapshot_history e !! i = Some a →
              SalesAttribution.snapshot_history e !! S i = Some b →
              interval ≤ b.1 - a.1)
  ∧ (∀ a, last (SalesAttribution.snapshot_history e) = Some a → a.1 ≤ last_snapshot_time)
  ∧ (0 ≤ interval →
     ∀ product_name entries,
       SalesAttribution.pending_decreases e !! product_name = Some entries →
       entries_aged interval last_snapshot_time entries
       ∧ Forall (λ x, last_snapshot_time - x.1
                      < interval * (SalesAttribution.confirm_intervals e + 2)) entries).

(** The sales engine of a tracker built with [snapshot_interval = 5],
    [sales_confirm_intervals = 1], [sales_min_delta = 1] and
    [sales_cooldown_seconds = 60] after the calls of [tracked_sale]: one
    sale was attributed at 105 and the later decreases wait for the
    cooldown. *)
Definition tracked_engine : SalesAttribution.SalesAttributionEngine :=
  {| SalesAttribution.confirm_intervals := 1;
     SalesAttribution.min_delta_threshold := 1;
     SalesAttribution.cooldown_seconds := 60;
     SalesAttribution.snapshot_interval := 5;
     SalesAttribution.snapshot_history :=
       [(115, {["mango" := 7]}); (120, {["mango" := 6]})];
     SalesAttribution.last_sale_time := {["mango" := 105]};
     SalesAttribution.pending_decreases :=
       {["mango" := [(110, -1); (115, -1); (120, -1)]]};
     SalesAttribution.total_sales_detected := 1;
     SalesAttribution.sales_by_product := {["mango" := 1]};
     SalesAttribution.false_positives_filtered := 3 |}.

(** Every low-stock deque of [e] only holds observations of the most
    recent evaluations of [ticks], on each of which the product's count
    was at or below its threshold. *)
Definition streak_recorded (e : Alerts.AlertEngine)
    (ticks : list (gmap string Z * gmap string Alerts.FreshnessData * Z)) : Prop :=
  ∀ product_name q threshold,
    Alerts.pending_low_stock e !! product_name = Some q →
    Alerts.low_stock_thresholds e !! product_name = Some threshold →
    ∀ j, (j < length q)%nat →
         ∃ count, counts_seen product_name ticks !! j = Some count ∧ count ≤ threshold.

(** No product's count drops by [threshold] or more from one snapshot of
    the sequence to the next. *)
Definition drops_below (threshold : Z) (snapshots : list (gmap string Z * Z)) : Prop :=
  ∀ i a b p, snapshots !! i = Some a → snapshots !! S i = Some b →
             dict_get a.1 p 0 - dict_get b.1 p 0 < threshold.

(** The multi-step decrease 10 -> 8 -> 7 of one product, one snapshot
    every five seconds, and the same with the count then staying at 7. *)
Definition multi_step_decrease : list (gmap string Z * Z) :=
  [ ({["mango" := 10]}, 0); ({["mango" := 8]}, 5); ({["mango" := 7]}, 10) ].

Definition multi_step_then_stable : list (gmap string Z * Z) :=
  multi_step_decrease ++ [ ({["mango" := 7]}, 15) ].

(** An attributed sale. *)
Definition attributed_sale (product_name : string)
    (quantity before after timestamp : Z) : SalesAttribution.SaleEvent :=
  {| SalesAttribution.product_name := product_name;
     SalesAttribution.quantity_delta := quantity;
     SalesAttribution.inventory_before := before;
     SalesAttribution.inventory_after := after;
     SalesAttribution.timestamp_utc := timestamp;
     SalesAttribution.validated := true |}.

(** [order] is a way of iterating over a set: every set is visited once,
    element by element. *)
Definition enumerates (order : gset string → list string) : Prop :=
  ∀ X, order X ≡ₚ elements X.

(** The iteration order opposite to that of [elements]. *)
Definition backwards (X : gset string) : list string := rev (elements X).

(** Two products that each lose one item between the first and the second
    snapshot and keep their count on the third. *)
Definition double_sale : list (gmap string Z * Z) :=
  [ ({["kiwi" := 5; "mango" := 5]}, 0); ({["kiwi" := 4; "mango" := 4]}, 5);
    ({["kiwi" := 4; "mango" := 4]}, 10) ].

(** A freshness record of an expired product that is 6.04 days old. *)
Definition aged_record : Alerts.FreshnessData :=
  {| Alerts.is_expired := Some true;
     Alerts.age_days := Some (151 # 25)%Q;
     Alerts.expiration_days := Some 5;
     Alerts.first_seen_utc := Some 0 |}.

(** One monitored product that stays sold out and expired over four
    evaluations. *)
Definition sold_out_ticks
    : list (gmap string Z * gmap string Alerts.FreshnessData * Z) :=
  [ ({["mango" := 0]}, {["mango" := aged_record]}, 0);
    ({["mango" := 0]}, {["mango" := aged_record]}, 5);
    ({["mango" := 0]}, {["mango" := aged_record]}, 10);
    ({["mango" := 0]}, {["mango" := aged_record]}, 15) ].

(** The two alerts of [sold_out_ticks] when the mangos are watched with a
    threshold of 3. *)
Definition sold_out_alert (timestamp : Z) : Alerts.Alert :=
  {| Alerts.alert_type := Alerts.LOW_STOCK;
     Alerts.product_name := "mango";
     Alerts.severity := Alerts.CRITICAL;
     Alerts.timestamp_utc := timestamp;
     Alerts.metadata := Alerts.LowStockMetadata 0 3 "out_of_stock" |}.

Definition expired_alert (timestamp : Z) : Alerts.Alert :=
  {| Alerts.alert_type := Alerts.EXPIRATION;
     Alerts.product_name := "mango";
     Alerts.severity := Alerts.WARNING;
     Alerts.timestamp_utc := timestamp;
     Alerts.metadata := Alerts.ExpirationMetadata 6%Q 5 (Some 0) |}.

(** The alert engine with a threshold of 3 for the mangos, both
    confirmation intervals 1 and a cooldown of 3600, after the first three
    evaluations of [sold_out_ticks]: both alerts were raised at 0, and the
    observations made since then wait for the cooldown in two full
    deques. *)
Definition sold_out_engine : Alerts.AlertEngine :=
  {| Alerts.low_stock_thresholds := {["mango" := 3]};
     Alerts.low_stock_confirm_intervals := 1;
     Alerts.expiration_confirm_intervals := 1;
     Alerts.alert_cooldown_seconds := 3600;
     Alerts.pending_low_stock := {["mango" := [(5, 0); (10, 0)]]};
     Alerts.pending_expiration := {["mango" := [(5, (151 # 25)%Q); (10, (151 # 25)%Q)]]};
     Alerts.last_alert_time :=
       {[ (Alerts.LOW_STOCK, "mango") := 0; (Alerts.EXPIRATION, "mango") := 0 ]};
     Alerts.active_alerts :=
       {[ Alerts.alert_id (sold_out_alert 0) := sold_out_alert 0;
          Alerts.alert_id (expired_alert 0) := expired_alert 0 ]};
     Alerts.total_alerts_triggered := 2;
     Alerts.alerts_by_type := {[ Alerts.LOW_STOCK := 1; Alerts.EXPIRATION := 1 ]};
     Alerts.alerts_suppressed_by_cooldown := 4 |}.

(** * Properties *)

(** ** Dictionaries, deques and slices *)

Lemma dict_get_singleton (k : string) (v dflt : Z) :
  dict_get {[k := v]} k dflt = v.
Proof. unfold dict_get. by rewrite lookup_singleton_eq. Qed.

Lemma dict_sum_empty : dict_sum ∅ = 0.
Proof. unfold dict_sum. by rewrite map_fold_empty. Qed.

Lemma dict_sum_insert (k : string) (v : Z) (d : gmap string Z) :
  d !! k = None → dict_sum (<[k := v]> d) = v + dict_sum d.
Proof.
  intros Hk. unfold dict_sum.
  rewrite map_fold_insert_L; [done | intros; lia | done].
Qed.

Lemma dict_sum_singleton (k : string) (v : Z) : dict_sum {[k := v]} = v.
Proof.
  rewrite <- insert_empty, dict_sum_insert by apply lookup_empty.
  rewrite dict_sum_empty. lia.
Qed.

Lemma products_of_singletons (k : string) (v w : Z) :
  elements (dom ({[k := v]} : gmap string Z) ∪ dom ({[k := w]} : gmap string Z)) = [k].
Proof. rewrite !dom_singleton_L, union_idemp_L. apply elements_singleton. Qed.

Section exact_scenario.
Import SalesAttribution.

Lemma cleanup_entry_keep (now max_age : Z) (entries : list (Z * Z)) :
  entries ≠ [] →
  Forall (λ x, now - x.1 < max_age) entries →
  cleanup_entry now max_age entries = Some entries.
Proof.
  intros Hne Hall. unfold cleanup_entry.
  assert (filter (λ x : Z * Z, now - x.1 < max_age) entries = entries) as ->.
  { induction Hall as [|x l Hx Hl IH]; [done|].
    rewrite filter_cons, decide_True by done.
    destruct l as [|y l]; [done|]. by rewrite IH. }
  by destruct entries.
Qed.

(** Second tick of the scenario: the decrease 5 -> 4 is recorded as
    pending, and the total decrease of 1 is filtered by the fallback. *)
Lemma exact_scenario_tick2 (t0 cd : Z) :
  process_snapshot (test_engine cd [(t0, {["mango" := 5]})] ∅ ∅ 0 0 ∅)
    {["mango" := 4]} (t0 + 5)
  = (test_engine cd [(t0, {["mango" := 5]}); (t0 + 5, {["mango" := 4]})] ∅
        {["mango" := [(t0 + 5, -1)]]} 1 0 ∅, []).
Proof.
  unfold process_snapshot, append_snapshot, test_engine; simpl.
  unfold _detect_attributed_sales; simpl.
  rewrite products_of_singletons. simpl.
  unfold attribute_product. rewrite !dict_get_singleton. simpl.
  unfold record_delta. simpl. rewrite lookup_empty. simpl. rewrite lookup_insert_eq.
  unfold _cleanup_pending_decreases. simpl.
  erewrite omap_insert_Some
    by (apply cleanup_entry_keep; [done | repeat constructor; simpl; lia]).
  rewrite omap_empty.
  unfold unattributed_fallback. rewrite !dict_sum_singleton. simpl.
  reflexivity.
Qed.

(** Third tick: the count is stable at 4, the window [5; 4; 4] validates
    the decrease and no sale was recorded before, so the sale is emitted. *)
Lemma exact_scenario_tick3 (t0 cd : Z) :
  (process_snapshot
    (test_engine cd [(t0, {["mango" := 5]}); (t0 + 5, {["mango" := 4]})] ∅
        {["mango" := [(t0 + 5, -1)]]} 1 0 ∅) {["mango" := 4]} (t0 + 10)).2
  = [ {| product_name := "mango"; quantity_delta := 1; inventory_before := 5;
         inventory_after := 4; timestamp_utc := t0 + 10; validated := true |} ].
Proof.
  unfold process_snapshot, append_snapshot, test_engine; simpl.
  unfold _detect_attributed_sales; simpl.
  rewrite products_of_singletons. simpl.
  unfold attribute_product. rewrite !dict_get_singleton. simpl.
  unfold record_delta. simpl. rewrite lookup_singleton_eq. simpl.
  rewrite lookup_singleton_eq.
  unfold _validate_decrease. simpl. rewrite !dict_get_singleton. simpl.
  unfold _check_cooldown. simpl. rewrite lookup_empty.
  unfold unattributed_fallback. rewrite !dict_sum_singleton. simpl.
  reflexivity.
Qed.

(** C1. A fresh engine with [confirm_intervals = 2],
    [min_delta_threshold = 1] and [snapshot_interval = 5] (and any
    cooldown), fed [{mango: 5}] at [t0], [{mango: 4}] at [t0 + 5] and
    [{mango: 4}] at [t0 + 10], returns no event on the first two calls and
    exactly the sale of one mango, from 5 to 4, on the third. *)
Theorem exact_scenario_mango (t0 cd : Z) :
  fresh_sales_run 2 1 cd 5
    [ ({["mango" := 5]}, t0); ({["mango" := 4]}, t0 + 5); ({["mango" := 4]}, t0 + 10) ]
  = Some [ []; [];
      [ {| product_name := "mango"; quantity_delta := 1; inventory_before := 5;
           inventory_after := 4; timestamp_utc := t0 + 10; validated := true |} ] ].
Proof.
  unfold fresh_sales_run.
  change (__init__ 2 1 cd 5) with (Some (test_engine cd [] ∅ ∅ 0 0 ∅)).
  cbn [mbind option_bind run].
  change (process_snapshot _ {["mango" := 5]} t0)
    with (test_engine cd [(t0, {["mango" := 5]})] ∅ ∅ 0 0 ∅, @nil SaleEvent).
  cbv beta iota. rewrite exact_scenario_tick2.
  pose proof (exact_scenario_tick3 t0 cd) as H3.
  destruct (process_snapshot _ _ (t0 + 10)) as [e3 ev3]. simpl in *. by rewrite H3.
Qed.

End exact_scenario.

(** ** The product loop of the sales engine *)

Section sales_loop.
Import SalesAttribution.

Implicit Types (e : SalesAttributionEngine) (p q : string) (ev : SaleEvent).

Lemma same_settings_refl e : same_settings e e.
Proof. by repeat split. Qed.

Lemma same_settings_sym e1 e2 : same_settings e1 e2 → same_settings e2 e1.
Proof. intros (? & ? & ? & ? & ?). by repeat split. Qed.

Lemma same_settings_trans e1 e2 e3 :
  same_settings e1 e2 → same_settings e2 e3 → same_settings e1 e3.
Proof.
  intros (? & ? & ? & ? & ?) (? & ? & ? & ? & ?). repeat split; congruence.
Qed.

Lemma agree_on_refl p e : agree_on p e e.
Proof. split; [apply same_settings_refl | done]. Qed.

Lemma agree_on_sym p e1 e2 : agree_on p e1 e2 → agree_on p e2 e1.
Proof. intros (? & ? & ?). split; [by apply same_settings_sym | done]. Qed.

Lemma agree_on_trans p e1 e2 e3 :
  agree_on p e1 e2 → agree_on p e2 e3 → agree_on p e1 e3.
Proof.
  intros (? & ? & ?) (? & ? & ?).
  split; [by eapply same_settings_trans | split; congruence].
Qed.

(** The pending decreases of the other products are not touched. *)
Lemma record_delta_other e p q now delta :
  q ≠ p → record_delta e p now delta !! q = pending_decreases e !! q.
Proof.
  intros Hne. unfold record_delta.
  repeat case_match; rewrite ?lookup_insert_ne by done; done.
Qed.

(** The new queue of the product depends on its old queue only. *)
Lemma record_delta_agree e1 e2 p now delta :
  min_delta_threshold e1 = min_delta_threshold e2 →
  pending_decreases e1 !! p = pending_decreases e2 !! p →
  record_delta e1 p now delta !! p = record_delta e2 p now delta !! p.
Proof.
  intros Hthr Hp. unfold record_delta. rewrite Hthr, Hp.
  repeat case_match; rewrite ?lookup_insert_eq; congruence.
Qed.

Lemma record_delta_stable e p now :
  record_delta e p now 0 = pending_decreases e.
Proof. unfold record_delta. simpl. by case_match. Qed.

Lemma record_delta_increase e p now delta :
  0 < delta →
  record_delta e p now delta !! p = None ∨ record_delta e p now delta !! p = Some [].
Proof.
  intros Hd. unfold record_delta.
  assert ((delta <? 0) = false) as -> by lia.
  assert ((delta =? 0) = false) as -> by lia.
  assert ((delta >? 0) = true) as -> by lia.
  simpl. destruct (pending_decreases e !! p) eqn:Hp.
  - right. apply lookup_insert_eq.
  - by left.
Qed.

Lemma record_delta_decrease e p now delta :
  delta < 0 → min_delta_threshold e ≤ Z.abs delta →
  record_delta e p now delta !! p
  = Some (default [] (pending_decreases e !! p) ++ [(now, delta)]).
Proof.
  intros Hd Hthr. unfold record_delta.
  assert ((delta <? 0) = true) as -> by lia.
  assert ((Z.abs delta >=? min_delta_threshold e) = true) as -> by lia.
  simpl. apply lookup_insert_eq.
Qed.

Lemma validate_decrease_settings e1 e2 p now :
  same_settings e1 e2 → _validate_decrease e1 p now = _validate_decrease e2 p now.
Proof. intros (Hc & _ & _ & _ & Hh). unfold _validate_decrease. by rewrite Hc, Hh. Qed.

Lemma check_cooldown_agree e1 e2 p now :
  agree_on p e1 e2 → _check_cooldown e1 p now = _check_cooldown e2 p now.
Proof.
  intros ((_ & _ & Hcd & _) & _ & Hl). unfold _check_cooldown. by rewrite Hcd, Hl.
Qed.

(** What the loop body emits, and when. *)
(** The loop body, with its tests named. *)
Lemma attribute_product_unfold now cur prev e p :
  attribute_product now cur prev e p =
  let delta := dict_get cur p 0 - dict_get prev p 0 in
  let e1 := set_pending_decreases e (record_delta e p now delta) in
  match record_delta e p now delta !! p with
  | Some ((_, first_delta) :: _) =>
      if _validate_decrease e p now then
        if _check_cooldown e p now then
          let quantity_sold := if delta <? 0 then Z.abs delta else Z.abs first_delta in
          (set_pending_decreases
             (set_last_sale_time e1 (<[p := now]> (last_sale_time e)))
             (<[p := []]> (record_delta e p now delta)),
           Some {| product_name := p;
                   quantity_delta := quantity_sold;
                   inventory_before :=
                     if delta =? 0 then dict_get prev p 0 + quantity_sold
                     else dict_get prev p 0;
                   inventory_after := dict_get cur p 0;
                   timestamp_utc := now;
                   validated := true |})
        else (e1, None)
      else (e1, None)
  | _ => (e1, None)
  end.
Proof. reflexivity. Qed.

(** What the loop body emits, and when. *)
Lemma attribute_product_event now cur prev e p ev :
  (attribute_product now cur prev e p).2 = Some ev ↔
  ∃ ts0 d0 rest,
    record_delta e p now (dict_get cur p 0 - dict_get prev p 0) !! p
      = Some ((ts0, d0) :: rest)
    ∧ _validate_decrease e p now = true
    ∧ _check_cooldown e p now = true
    ∧ ev = {| product_name := p;
              quantity_delta :=
                if dict_get cur p 0 - dict_get prev p 0 <? 0
                then Z.abs (dict_get cur p 0 - dict_get prev p 0) else Z.abs d0;
              inventory_before :=
                if dict_get cur p 0 - dict_get prev p 0 =? 0
                then dict_get prev p 0 +
                     (if dict_get cur p 0 - dict_get prev p 0 <? 0
                      then Z.abs (dict_get cur p 0 - dict_get prev p 0) else Z.abs d0)
                else dict_get prev p 0;
              inventory_after := dict_get cur p 0;
              timestamp_utc := now;
              validated := true |}.
Proof.
  rewrite attribute_product_unfold. cbv zeta.
  set (delta := dict_get cur p 0 - dict_get prev p 0).
  destruct (record_delta e p now delta !! p) as [[|[ts0 d0] rest]|] eqn:Hq.
  - simpl. split; [done | by intros (? & ? & ? & ? & _)].
  - destruct (_validate_decrease e p now);
      [|simpl; split; [done | by intros (? & ? & ? & _ & ? & _)]].
    destruct (_check_cooldown e p now);
      [|simpl; split; [done | by intros (? & ? & ? & _ & _ & ? & _)]].
    simpl. split.
    + intros [= <-]. by exists ts0, d0, rest.
    + intros (? & ? & ? & [= <- <- <-] & _ & _ & ->). done.
  - simpl. split; [done | by intros (? & ? & ? & ? & _)].
Qed.

Lemma attribute_product_settings now cur prev e p :
  same_settings e (attribute_product now cur prev e p).1.
Proof.
  rewrite attribute_product_unfold. cbv zeta.
  destruct (record_delta e p now _ !! p) as [[|[ts0 d0] rest]|];
    [by repeat split | | by repeat split].
  destruct (_validate_decrease e p now); [|by repeat split].
  destruct (_check_cooldown e p now); by repeat split.
Qed.

Lemma attribute_product_filtered now cur prev e p :
  false_positives_filtered (attribute_product now cur prev e p).1
  = false_positives_filtered e.
Proof.
  rewrite attribute_product_unfold. cbv zeta.
  destruct (record_delta e p now _ !! p) as [[|[ts0 d0] rest]|]; [done | | done].
  destruct (_validate_decrease e p now); [|done].
  by destruct (_check_cooldown e p now).
Qed.

(** Handling [p] leaves every other product as it was. *)
Lemma attribute_product_frame now cur prev e p q :
  q ≠ p → agree_on q e (attribute_product now cur prev e p).1.
Proof.
  intros Hne. split; [apply attribute_product_settings|].
  rewrite attribute_product_unfold. cbv zeta.
  set (delta := dict_get cur p 0 - dict_get prev p 0).
  pose proof (record_delta_other e p q now delta Hne) as Hrd.
  destruct (record_delta e p now delta !! p) as [[|[ts0 d0] rest]|];
    [by split | | by split].
  destruct (_validate_decrease e p now); [|by split].
  destruct (_check_cooldown e p now); [|by split].
  simpl. by rewrite !lookup_insert_ne.
Qed.

(** The outcome for [p] depends on the settings and on the entries of [p]
    in the two dictionaries only. *)
Lemma attribute_product_agree now cur prev e1 e2 p :
  agree_on p e1 e2 →
  (attribute_product now cur prev e1 p).2 = (attribute_product now cur prev e2 p).2
  ∧ agree_on p (attribute_product now cur prev e1 p).1
               (attribute_product now cur prev e2 p).1.
Proof.
  intros Hag. pose proof Hag as (Hset & Hp & Hl).
  pose proof Hset as (Hc & Hthr & Hcd & Hsi & Hh).
  pose proof (record_delta_agree e1 e2 p now
                (dict_get cur p 0 - dict_get prev p 0) Hthr Hp) as Hrd.
  pose proof (validate_decrease_settings e1 e2 p now Hset) as Hv.
  pose proof (check_cooldown_agree e1 e2 p now Hag) as Hcool.
  rewrite !attribute_product_unfold. cbv zeta.
  set (delta := dict_get cur p 0 - dict_get prev p 0) in *.
  rewrite <- Hv, <- Hcool.
  assert (∀ m1 m2, m1 !! p = m2 !! p →
            agree_on p (set_pending_decreases e1 m1) (set_pending_decreases e2 m2))
    as Hstay by (intros m1 m2 Hm; by split).
  destruct (record_delta e1 p now delta !! p) as [[|[ts0 d0] rest]|] eqn:Hq;
    rewrite <- Hrd; [by split; [|apply Hstay; congruence] | |
                     by split; [|apply Hstay; congruence]].
  destruct (_validate_decrease e1 p now); [|by split; [|apply Hstay; congruence]].
  destruct (_check_cooldown e1 p now); [|by split; [|apply Hstay; congruence]].
  split; [done|]. split; [done|]. simpl. by rewrite !lookup_insert_eq.
Qed.

Lemma attribute_products_settings now cur prev e l :
  same_settings e (attribute_products now cur prev e l).1.
Proof.
  revert e. induction l as [|p l IH]; intros e; simpl; [apply same_settings_refl|].
  destruct (attribute_product now cur prev e p) as [e1 sale] eqn:H1.
  destruct (attribute_products now cur prev e1 l) as [e2 sales] eqn:H2. simpl.
  eapply same_settings_trans.
  - pose proof (attribute_product_settings now cur prev e p) as H. by rewrite H1 in H.
  - pose proof (IH e1) as H. by rewrite H2 in H.
Qed.

Lemma attribute_products_filtered now cur prev e l :
  false_positives_filtered (attribute_products now cur prev e l).1
  = false_positives_filtered e.
Proof.
  revert e. induction l as [|p l IH]; intros e; simpl; [done|].
  pose proof (attribute_product_filtered now cur prev e p) as Hp.
  destruct (attribute_product now cur prev e p) as [e1 sale].
  specialize (IH e1).
  destruct (attribute_products now cur prev e1 l) as [e2 sales]. simpl in *. congruence.
Qed.

(** The loop leaves the products it does not visit as they were. *)
Lemma attribute_products_frame now cur prev e l q :
  q ∉ l → agree_on q e (attribute_products now cur prev e l).1.
Proof.
  revert e. induction l as [|p l IH]; intros e Hq; simpl; [apply agree_on_refl|].
  apply not_elem_of_cons in Hq as [Hne Hq].
  pose proof (attribute_product_frame now cur prev e p q Hne) as Hp.
  destruct (attribute_product now cur prev e p) as [e1 sale].
  specialize (IH e1 Hq).
  destruct (attribute_products now cur prev e1 l) as [e2 sales]. simpl in *.
  by eapply agree_on_trans.
Qed.

(** Every product is handled once, so the events of the loop are exactly
    the events that the body emits, product by product, from the state in
    which the loop starts. *)
Lemma attribute_products_events now cur prev e l ev :
  NoDup l →
  ev ∈ (attribute_products now cur prev e l).2 ↔
  ∃ p, p ∈ l ∧ (attribute_product now cur prev e p).2 = Some ev.
Proof.
  revert e. induction l as [|p l IH]; intros e Hnd; simpl.
  { split; [by intros ?%elem_of_nil | by intros (? & ?%elem_of_nil & _)]. }
  apply NoDup_cons in Hnd as [Hp Hnd].
  pose proof (attribute_product_frame now cur prev e p) as Hframe.
  destruct (attribute_product now cur prev e p) as [e1 sale] eqn:H1.
  specialize (IH e1 Hnd).
  destruct (attribute_products now cur prev e1 l) as [e2 sales] eqn:H2.
  simpl in *. rewrite elem_of_app, IH. split.
  - intros [Hev | (q & Hq & Hev)].
    + exists p. split; [left|]. rewrite H1. simpl.
      destruct sale; simpl in Hev; [by apply list_elem_of_singleton in Hev as -> |].
      by apply elem_of_nil in Hev.
    + exists q. split; [by right|].
      assert (q ≠ p) as Hne by (intros ->; done).
      destruct (attribute_product_agree now cur prev e e1 q (Hframe q Hne)) as [-> _].
      done.
  - intros (q & [-> | Hq]%elem_of_cons & Hev).
    + left. rewrite H1 in Hev. simpl in Hev. subst sale. simpl. by left.
    + right. exists q. split; [done|].
      assert (q ≠ p) as Hne by (intros ->; done).
      destruct (attribute_product_agree now cur prev e e1 q (Hframe q Hne)) as [<- _].
      done.
Qed.

(** After the loop, a visited product is in the state in which the body
    left it. *)
Lemma attribute_products_state now cur prev e l p :
  NoDup l → p ∈ l →
  agree_on p (attribute_product now cur prev e p).1
             (attribute_products now cur prev e l).1.
Proof.
  revert e. induction l as [|a l IH]; intros e Hnd Hin; [by apply elem_of_nil in Hin|].
  apply NoDup_cons in Hnd as [Ha Hnd]. simpl.
  pose proof (attribute_product_frame now cur prev e a) as Hframe.
  destruct (attribute_product now cur prev e a) as [e1 sale] eqn:H1.
  pose proof (attribute_products_frame now cur prev e1 l) as Hrest.
  specialize (IH e1 Hnd).
  destruct (attribute_products now cur prev e1 l) as [e2 sales] eqn:H2.
  simpl in *. apply elem_of_cons in Hin as [-> | Hin].
  - rewrite H1. simpl. by apply Hrest.
  - assert (p ≠ a) as Hne by (intros ->; done).
    destruct (attribute_product_agree now cur prev e e1 p (Hframe p Hne)) as [_ Hag].
    eapply agree_on_trans; [exact Hag | by apply IH].
Qed.

End sales_loop.

(** ** One tick of the sales engine *)

Section sales_tick.
Import SalesAttribution.

Implicit Types (e : SalesAttributionEngine) (p q : string) (ev : SaleEvent).

(** [_detect_attributed_sales] in terms of the two inventories it reads. *)
Lemma detect_unfold e now :
  (2 ≤ length (snapshot_history e))%nat →
  _detect_attributed_sales e now =
  let '(e1, sales_events) :=
    attribute_products now (current_inventory e) (previous_inventory e) e
      (tick_products e) in
  unattributed_fallback (_cleanup_pending_decreases e1 now) now
    (current_inventory e) (previous_inventory e) sales_events.
Proof.
  intros Hlen. unfold _detect_attributed_sales, tick_products,
    current_inventory, previous_inventory.
  rewrite <- length_rev in Hlen.
  destruct (rev (snapshot_history e)) as [|[t1 cur] [|[t2 prev] rest]];
    simpl in Hlen; [lia | lia | done].
Qed.

Lemma process_snapshot_unfold e inventory timestamp :
  process_snapshot e inventory timestamp =
  let e1 := append_snapshot e inventory timestamp in
  if (length (snapshot_history e1) <? 2)%nat then (e1, [])
  else
    let '(e2, sales_events) := _detect_attributed_sales e1 timestamp in
    (set_statistics e2
       (total_sales_detected e2 + Z.of_nat (length sales_events))
       (record_sales (sales_by_product e2) sales_events),
     sales_events).
Proof. reflexivity. Qed.

Lemma tick_products_NoDup e : NoDup (tick_products e).
Proof. unfold tick_products. apply NoDup_elements. Qed.

Lemma elem_of_tick_products e p :
  p ∈ tick_products e ↔
  is_Some (current_inventory e !! p) ∨ is_Some (previous_inventory e !! p).
Proof.
  unfold tick_products. by rewrite elem_of_elements, elem_of_union, !elem_of_dom.
Qed.

(** A product whose count changed is one of the products of the tick. *)
Lemma tick_delta_nonzero_product e p : tick_delta e p ≠ 0 → p ∈ tick_products e.
Proof.
  intros Hd. apply elem_of_tick_products. unfold tick_delta, dict_get in Hd.
  destruct (current_inventory e !! p); [left; eauto|].
  destruct (previous_inventory e !! p); [right; eauto|]. simpl in Hd. lia.
Qed.

(** The fallback adds at most the unattributed event, after the others. *)
Lemma unattributed_fallback_events e now cur prev sales_events :
  let r := unattributed_fallback e now cur prev sales_events in
  r.2 = sales_events
  ∨ sales_events = []
    ∧ dict_sum cur - dict_sum prev < 0
    ∧ (_validate_total_decrease e (dict_sum cur - dict_sum prev) now).1 = true
    ∧ r.2 = [ {| product_name := "Unknown";
                 quantity_delta := Z.abs (dict_sum cur - dict_sum prev);
                 inventory_before := dict_sum prev;
                 inventory_after := dict_sum cur;
                 timestamp_utc := now;
                 validated := false |} ].
Proof.
  unfold unattributed_fallback. cbv zeta.
  destruct (dict_sum cur - dict_sum prev <? 0) eqn:Hneg; simpl; [|by left].
  case_bool_decide as Hnil; simpl; [|by left].
  destruct (_validate_total_decrease e (dict_sum cur - dict_sum prev) now)
    as [[] e1] eqn:Hv; simpl; [|by left].
  right. subst sales_events. repeat split; try done; lia.
Qed.

Lemma validate_total_decrease_state e total_delta now :
  let r := _validate_total_decrease e total_delta now in
  same_settings e r.2
  ∧ last_sale_time r.2 = last_sale_time e
  ∧ pending_decreases r.2 = pending_decreases e.
Proof.
  unfold _validate_total_decrease. repeat case_match; by repeat split.
Qed.

Lemma unattributed_fallback_state e now cur prev sales_events :
  let r := unattributed_fallback e now cur prev sales_events in
  same_settings e r.1
  ∧ last_sale_time r.1 = last_sale_time e
  ∧ pending_decreases r.1 = pending_decreases e.
Proof.
  unfold unattributed_fallback. cbv zeta.
  pose proof (validate_total_decrease_state e (dict_sum cur - dict_sum prev) now) as Hv.
  destruct (_ && _); [|by repeat split].
  destruct (_validate_total_decrease e (dict_sum cur - dict_sum prev) now) as [[] e1];
    exact Hv.
Qed.

(** The attributed events of a tick are those of the product loop. *)
Lemma unattributed_fallback_attributed e now cur prev sales_events ev :
  ev ∈ (unattributed_fallback e now cur prev sales_events).2 ∧ validated ev = true
  ↔ ev ∈ sales_events ∧ validated ev = true.
Proof.
  destruct (unattributed_fallback_events e now cur prev sales_events)
    as [-> | (-> & _ & _ & ->)]; [done|].
  split.
  - intros [->%list_elem_of_singleton Hv]. done.
  - intros [?%elem_of_nil _]. done.
Qed.

Lemma attribute_product_validated now cur prev e p ev :
  (attribute_product now cur prev e p).2 = Some ev →
  validated ev = true ∧ product_name ev = p ∧ timestamp_utc ev = now.
Proof. intros (? & ? & ? & _ & _ & _ & ->)%attribute_product_event. done. Qed.

Lemma attribute_products_validated now cur prev e l ev :
  ev ∈ (attribute_products now cur prev e l).2 →
  validated ev = true ∧ product_name ev ∈ l ∧ timestamp_utc ev = now.
Proof.
  revert e. induction l as [|p l IH]; intros e; simpl; [by intros ?%elem_of_nil|].
  pose proof (attribute_product_validated now cur prev e p) as Hp.
  destruct (attribute_product now cur prev e p) as [e1 sale].
  specialize (IH e1).
  destruct (attribute_products now cur prev e1 l) as [e2 sales]. simpl in *.
  intros [Hev | Hev]%elem_of_app.
  - destruct sale as [ev'|]; simpl in Hev; [|by apply elem_of_nil in Hev].
    apply list_elem_of_singleton in Hev as ->.
    destruct (Hp ev' eq_refl) as (? & <- & ?). repeat split; [done | left | done].
  - destruct (IH Hev) as (? & ? & ?). repeat split; [done | by right | done].
Qed.

(** The events of a tick, read off [process_snapshot]. *)
Lemma process_snapshot_events e inventory timestamp :
  let e1 := append_snapshot e inventory timestamp in
  (process_snapshot e inventory timestamp).2 =
  if (length (snapshot_history e1) <? 2)%nat then []
  else
    (unattributed_fallback
       (_cleanup_pending_decreases
          (attribute_products timestamp (current_inventory e1) (previous_inventory e1)
             e1 (tick_products e1)).1 timestamp)
       timestamp (current_inventory e1) (previous_inventory e1)
       (attribute_products timestamp (current_inventory e1) (previous_inventory e1)
          e1 (tick_products e1)).2).2.
Proof.
  cbv zeta. rewrite process_snapshot_unfold. cbv zeta.
  destruct (length _ <? 2)%nat eqn:Hlen; [done|].
  apply Nat.ltb_ge in Hlen. rewrite detect_unfold by done.
  destruct (attribute_products _ _ _ _ _) as [e2 evs]. simpl.
  by destruct (unattributed_fallback _ _ _ _ _).
Qed.

(** The engine after a tick, read off [process_snapshot]. *)
Lemma process_snapshot_state e inventory timestamp :
  let e1 := append_snapshot e inventory timestamp in
  let r := process_snapshot e inventory timestamp in
  (2 ≤ length (snapshot_history e1))%nat →
  let looped := attribute_products timestamp (current_inventory e1)
                  (previous_inventory e1) e1 (tick_products e1) in
  same_settings e1 r.1
  ∧ last_sale_time r.1 = last_sale_time looped.1
  ∧ pending_decreases r.1
    = pending_decreases (_cleanup_pending_decreases looped.1 timestamp).
Proof.
  cbv zeta. intros Hlen. rewrite process_snapshot_unfold. cbv zeta.
  pose proof Hlen as Hlen'. apply Nat.ltb_ge in Hlen'. rewrite Hlen'.
  rewrite detect_unfold by done.
  pose proof (attribute_products_settings timestamp
    (current_inventory (append_snapshot e inventory timestamp))
    (previous_inventory (append_snapshot e inventory timestamp))
    (append_snapshot e inventory timestamp)
    (tick_products (append_snapshot e inventory timestamp))) as Hset.
  destruct (attribute_products _ _ _ _ _) as [e2 evs]. simpl in *.
  pose proof (unattributed_fallback_state
    (_cleanup_pending_decreases e2 timestamp) timestamp
    (current_inventory (append_snapshot e inventory timestamp))
    (previous_inventory (append_snapshot e inventory timestamp)) evs) as Hfb.
  destruct (unattributed_fallback _ _ _ _ _) as [e3 evs']. simpl in *.
  destruct Hfb as (Hs & Hl & Hp). repeat split; try done.
  all: destruct Hset as (? & ? & ? & ? & ?); destruct Hs as (? & ? & ? & ? & ?);
    simpl in *; congruence.
Qed.

End sales_tick.

(** ** The fields of an attributed sale *)

Section sale_fields.
Import SalesAttribution.

Implicit Types (e : SalesAttributionEngine) (p q : string) (ev : SaleEvent).

(** The attributed events of a tick are the events that the loop body
    emits for the products of the tick. *)
Lemma process_snapshot_attributed e inventory timestamp ev :
  let e1 := append_snapshot e inventory timestamp in
  ev ∈ (process_snapshot e inventory timestamp).2 ∧ validated ev = true ↔
  (2 ≤ length (snapshot_history e1))%nat
  ∧ ∃ p, p ∈ tick_products e1
       ∧ (attribute_product timestamp (current_inventory e1) (previous_inventory e1)
            e1 p).2 = Some ev.
Proof.
  cbv zeta. rewrite process_snapshot_events. cbv zeta.
  destruct (length _ <? 2)%nat eqn:Hlen.
  - apply Nat.ltb_lt in Hlen. split; [by intros [?%elem_of_nil _] | lia].
  - apply Nat.ltb_ge in Hlen.
    rewrite unattributed_fallback_attributed,
      attribute_products_events by apply tick_products_NoDup.
    split.
    + intros [(p & Hp & Hev) _]. eauto.
    + intros (_ & p & Hp & Hev). split; [eauto|].
      by apply attribute_product_validated in Hev as (? & _).
Qed.

(** The fields of an attributed sale as the two conditional expressions
    of the loop body compute them: the current count is
    [inventory_after]; the quantity is the magnitude of this tick's delta
    when that delta is negative and the magnitude of the earliest pending
    delta otherwise; [inventory_before] is the previous count plus the
    quantity when this tick's delta is zero and the previous count
    otherwise.  The comment above the first expression announces the
    total decrease, which this is not when the decrease took several
    ticks. *)
Lemma attributed_sale_fields e inventory timestamp ev :
  ev ∈ (process_snapshot e inventory timestamp).2 →
  validated ev = true →
  let e1 := append_snapshot e inventory timestamp in
  let p := product_name ev in
  let delta := tick_delta e1 p in
  let previous_count := dict_get (previous_inventory e1) p 0 in
  ∃ first_pending_tick earliest_delta rest,
    confirming_queue e1 timestamp p = (first_pending_tick, earliest_delta) :: rest
    ∧ delta ≤ 0
    ∧ quantity_delta ev = (if delta <? 0 then Z.abs delta else Z.abs earliest_delta)
    ∧ inventory_before ev
      = (if delta =? 0 then previous_count + Z.abs earliest_delta else previous_count)
    ∧ inventory_after ev = dict_get (current_inventory e1) p 0
    ∧ timestamp_utc ev = timestamp.
Proof.
  intros Hin Hval. cbv zeta.
  destruct (proj1 (process_snapshot_attributed e inventory timestamp ev)
              (conj Hin Hval)) as (Hlen & p & Hp & Hev).
  apply attribute_product_event in Hev as (ts0 & d0 & rest & Hq & _ & _ & ->).
  cbn [product_name quantity_delta inventory_before inventory_after timestamp_utc].
  set (e1 := append_snapshot e inventory timestamp) in *.
  fold (tick_delta e1 p) in *.
  exists ts0, d0, rest.
  assert (tick_delta e1 p ≤ 0) as Hle.
  { destruct (decide (0 < tick_delta e1 p)) as [Hpos|]; [|lia].
    destruct (record_delta_increase e1 p timestamp _ Hpos); congruence. }
  split; [unfold confirming_queue; by rewrite Hq|].
  split; [done|]. split; [done|]. split; [|done].
  destruct (tick_delta e1 p =? 0) eqn:Hz; [|done].
  apply Z.eqb_eq in Hz. rewrite Hz. done.
Qed.

(** The snapshots [{mango: 10}] at 0 and [{mango: 8}] at 5 bring a fresh
    engine to [multi_step_engine]. *)
Lemma multi_step_engine_reached :
  run (test_engine 10 [] ∅ ∅ 0 0 ∅)
    [ ({["mango" := 10]}, 0); ({["mango" := 8]}, 5) ]
  = (multi_step_engine, [ []; [] ]).
Proof. vm_compute. reflexivity. Qed.

Lemma multi_step_tick3 :
  (process_snapshot multi_step_engine {["mango" := 7]} 10).2 = [multi_step_sale].
Proof. vm_compute. reflexivity. Qed.

(** The fields that the specification gives an attributed sale are not
    those of the sale emitted on the multi-step decrease 10 -> 8 -> 7: it
    has quantity 1 and [inventory_before] 8, while the earliest pending
    delta is -2 and the count before the first pending tick is 10. *)
Lemma multi_step_decrease_counterexample :
  ¬ (∀ e inventory timestamp ev,
       ev ∈ (process_snapshot e inventory timestamp).2 →
       validated ev = true →
       sale_fields_as_specified (append_snapshot e inventory timestamp) timestamp ev).
Proof.
  intros Hclaim.
  specialize (Hclaim multi_step_engine {["mango" := 7]} 10 multi_step_sale).
  rewrite multi_step_tick3 in Hclaim.
  specialize (Hclaim (proj2 (list_elem_of_singleton _ _) eq_refl) eq_refl).
  unfold sale_fields_as_specified in Hclaim.
  assert (confirming_queue (append_snapshot multi_step_engine {["mango" := 7]} 10) 10
            (product_name multi_step_sale) = [(5, -2); (10, -1)]) as Hq
    by (vm_compute; reflexivity).
  rewrite Hq in Hclaim. destruct Hclaim as (Hquantity & _). done.
Qed.

(** C2.  The code does not report the total of a multi-step decrease,
    which the specification asks for and the comment of the code
    announces.  On 10 -> 8 -> 7 with [confirm_intervals = 2] the queue
    confirmed on the third tick starts with the decrease of 2 recorded
    when the count was 10, but the sale emitted is one item, from 8 to 7;
    the queue is cleared with it, so that [sales_by_product] ends at 1
    after a drop of 3.  With [confirm_intervals = 3] and a fourth snapshot
    that still counts 7, the sale is two items from 9 to 7, and 9 is a
    count that no snapshot held. *)
Theorem multi_step_decrease_misreported :
  fresh_sales_run 2 1 10 5 multi_step_decrease
  = Some [ []; []; [attributed_sale "mango" 1 8 7 10] ]
  ∧ confirming_queue (append_snapshot multi_step_engine {["mango" := 7]} 10) 10 "mango"
    = [(5, -2); (10, -1)]
  ∧ count_before_tick
      (snapshot_history (append_snapshot multi_step_engine {["mango" := 7]} 10)) 5 "mango"
    = Some 10
  ∧ (e ← __init__ 2 1 10 5;
     Some (pending_decreases (run e multi_step_decrease).1 !! "mango",
           sales_by_product (run e multi_step_decrease).1 !! "mango"))
    = Some (None, Some 1)
  ∧ fresh_sales_run 3 1 10 5 multi_step_then_stable
    = Some [ []; []; []; [attributed_sale "mango" 2 9 7 15] ].
Proof. split_and!; vm_compute; reflexivity. Qed.

End sale_fields.

(** ** The unattributed fallback *)

Section fallback.
Import SalesAttribution.

Implicit Types (e : SalesAttributionEngine) (p q : string) (ev : SaleEvent).

(** *** The sum of the deltas is the difference of the totals *)

Lemma sum_permutation (l1 l2 : list Z) :
  l1 ≡ₚ l2 → foldr Z.add 0 l1 = foldr Z.add 0 l2.
Proof. induction 1; simpl; lia. Qed.

Lemma sum_zero {A : Type} (l : list A) : foldr Z.add 0 ((λ _, 0) <$> l) = 0.
Proof. induction l; csimpl; lia. Qed.

Lemma sum_ext {A : Type} (f g : A → Z) (l : list A) :
  (∀ x, x ∈ l → f x = g x) → foldr Z.add 0 (f <$> l) = foldr Z.add 0 (g <$> l).
Proof.
  induction l as [|x l IH]; intros Hfg; csimpl; [done|].
  rewrite Hfg by left. rewrite IH; [done|]. intros y Hy. apply Hfg. by right.
Qed.

Lemma sum_minus {A : Type} (f g : A → Z) (l : list A) :
  foldr Z.add 0 ((λ x, f x - g x) <$> l)
  = foldr Z.add 0 (f <$> l) - foldr Z.add 0 (g <$> l).
Proof. induction l; csimpl; lia. Qed.

(** Summing [d.get(p, 0)] over any set of keys that covers [d] gives
    [sum(d.values())]. *)
Lemma sum_over_keys (d : gmap string Z) :
  ∀ keys : gset string, dom d ⊆ keys →
  foldr Z.add 0 ((λ p, dict_get d p 0) <$> elements keys) = dict_sum d.
Proof.
  induction d as [|k v d Hk IH] using map_ind; intros keys Hdom.
  - rewrite dict_sum_empty. erewrite sum_ext; [apply sum_zero|].
    intros p _. unfold dict_get. by rewrite lookup_empty.
  - rewrite dict_sum_insert by done.
    assert (k ∈ keys) as Hin by (apply Hdom; rewrite dom_insert_L; set_solver).
    assert (keys = {[k]} ∪ keys ∖ {[k]}) as Hsplit.
    { apply set_eq. intros x. rewrite elem_of_union, elem_of_difference,
        elem_of_singleton. destruct (decide (x = k)); naive_solver. }
    assert (elements keys ≡ₚ k :: elements (keys ∖ {[k]})) as Hperm.
    { rewrite Hsplit at 1. apply elements_union_singleton. set_solver. }
    rewrite (sum_permutation _ _ (fmap_Permutation _ _ _ Hperm)).
    csimpl. unfold dict_get at 1. rewrite lookup_insert_eq. simpl. f_equal.
    rewrite <- (IH (keys ∖ {[k]})).
    + apply sum_ext. intros p Hp%elem_of_elements.
      unfold dict_get. rewrite lookup_insert_ne; [done|]. set_solver.
    + apply not_elem_of_dom in Hk. rewrite dom_insert_L in Hdom. set_solver.
Qed.

Lemma sum_of_deltas_total e :
  sum_of_deltas e = dict_sum (current_inventory e) - dict_sum (previous_inventory e).
Proof.
  unfold sum_of_deltas, tick_delta, tick_products.
  rewrite (sum_minus (λ p, dict_get (current_inventory e) p 0)
                     (λ p, dict_get (previous_inventory e) p 0)).
  rewrite !sum_over_keys; [done | set_solver | set_solver].
Qed.

(** *** The trend check *)

Lemma consistently_decreasing_spec (totals : list Z) :
  consistently_decreasing totals = true ↔ strictly_decreasing totals.
Proof.
  unfold strictly_decreasing.
  induction totals as [|a [|b rest] IH]; simpl.
  - split; [by intros _ [|?] | done].
  - split; [|done]. intros _ [|[|?]] ? ?; simpl; done.
  - destruct (b >=? a) eqn:Hge.
    + split; [done|]. intros H. specialize (H 0%nat a b eq_refl eq_refl). lia.
    + rewrite IH. split.
      * intros H [|i] x y Hx Hy; simpl in *.
        -- injection Hx as <-. injection Hy as <-. lia.
        -- by eapply H.
      * intros H i x y Hx Hy. by apply (H (S i)).
Qed.

(** [_validate_total_decrease]: the answer and the counter. *)
Lemma validate_total_decrease_spec e total_delta now :
  let r := _validate_total_decrease e total_delta now in
  (r.1 = true ↔
     2 * min_delta_threshold e ≤ Z.abs total_delta
     ∧ confirm_intervals e + 1 ≤ Z.of_nat (length (snapshot_history e))
     ∧ strictly_decreasing (window_totals e))
  ∧ (Z.abs total_delta < 2 * min_delta_threshold e →
     false_positives_filtered r.2 = false_positives_filtered e + 1)
  ∧ (confirm_intervals e + 1 ≤ Z.of_nat (length (snapshot_history e)) →
     ¬ strictly_decreasing (window_totals e) →
     false_positives_filtered r.2 = false_positives_filtered e + 1)
  ∧ (r.1 = true → false_positives_filtered r.2 = false_positives_filtered e)
  ∧ (2 * min_delta_threshold e ≤ Z.abs total_delta →
     Z.of_nat (length (snapshot_history e)) < confirm_intervals e + 1 →
     false_positives_filtered r.2 = false_positives_filtered e).
Proof.
  cbv zeta. unfold _validate_total_decrease. fold (window_totals e).
  pose proof (consistently_decreasing_spec (window_totals e)) as Htrend.
  destruct (Z.abs total_delta <? min_delta_threshold e * 2) eqn:Hsmall.
  { apply Z.ltb_lt in Hsmall. simpl.
    split; [split; [done | intros (? & _); lia]|].
    split; [done|]. split; [done|]. split; [done|]. lia. }
  apply Z.ltb_ge in Hsmall.
  destruct (Z.of_nat (length (snapshot_history e)) <? confirm_intervals e + 1) eqn:Hshort.
  { apply Z.ltb_lt in Hshort. simpl.
    split; [split; [done | intros (_ & ? & _); lia]|].
    split; [lia|]. split; [lia|]. split; done. }
  apply Z.ltb_ge in Hshort.
  destruct (consistently_decreasing (window_totals e)) eqn:Hdec; simpl.
  - split.
    { split; [|done]. intros _. split; [lia|]. split; [lia|]. by apply Htrend. }
    split; [lia|]. split; [|split; [done | lia]].
    intros _ Hn. destruct Hn. by apply Htrend.
  - split.
    { split; [done|]. intros (_ & _ & Hd). apply Htrend in Hd. done. }
    split; [done|]. split; [done|]. split; [done | lia].
Qed.

(** *** The rule *)

(** C3, with the guard of the code.  On a tick whose deltas sum to a
    negative total and on which no attributed sale is emitted, the
    ["Unknown"] sale is emitted exactly when the magnitude of the total
    decrease is at least twice [min_delta_threshold], the history holds
    [confirm_intervals + 1] snapshots, and their totals are strictly
    decreasing.  A total decrease below twice the threshold, and a tie or
    an increase in a full window, each add one to
    [false_positives_filtered]; an emission leaves the counter as it was,
    and so does a decrease of at least twice the threshold that comes
    while the history holds fewer than [confirm_intervals + 1]
    snapshots. *)
Theorem unattributed_fallback_rule e inventory timestamp :
  let e1 := append_snapshot e inventory timestamp in
  let r := process_snapshot e inventory timestamp in
  (2 ≤ length (snapshot_history e1))%nat →
  sum_of_deltas e1 < 0 →
  (∀ ev, ev ∈ r.2 → validated ev = false) →
  (unattributed_sale_emitted r.2 ↔
     2 * min_delta_threshold e ≤ Z.abs (sum_of_deltas e1)
     ∧ confirm_intervals e + 1 ≤ Z.of_nat (length (snapshot_history e1))
     ∧ strictly_decreasing (window_totals e1))
  ∧ (Z.abs (sum_of_deltas e1) < 2 * min_delta_threshold e →
     false_positives_filtered r.1 = false_positives_filtered e + 1)
  ∧ (confirm_intervals e + 1 ≤ Z.of_nat (length (snapshot_history e1)) →
     ¬ strictly_decreasing (window_totals e1) →
     false_positives_filtered r.1 = false_positives_filtered e + 1)
  ∧ (unattributed_sale_emitted r.2 →
     false_positives_filtered r.1 = false_positives_filtered e)
  ∧ (2 * min_delta_threshold e ≤ Z.abs (sum_of_deltas e1) →
     Z.of_nat (length (snapshot_history e1)) < confirm_intervals e + 1 →
     false_positives_filtered r.1 = false_positives_filtered e).
Proof.
  cbv zeta. intros Hlen Hneg Hnone.
  set (e1 := append_snapshot e inventory timestamp) in *.
  rewrite sum_of_deltas_total in *.
  set (total_delta := dict_sum (current_inventory e1) - dict_sum (previous_inventory e1)) in *.
  revert Hnone. rewrite process_snapshot_unfold. cbv zeta. fold e1.
  pose proof Hlen as Hlen'. apply Nat.ltb_ge in Hlen'. rewrite Hlen'.
  rewrite detect_unfold by done.
  pose proof (attribute_products_settings timestamp (current_inventory e1)
                (previous_inventory e1) e1 (tick_products e1)) as Hset.
  pose proof (attribute_products_filtered timestamp (current_inventory e1)
                (previous_inventory e1) e1 (tick_products e1)) as Hfpf.
  pose proof (attribute_products_validated timestamp (current_inventory e1)
                (previous_inventory e1) e1 (tick_products e1)) as Hval.
  destruct (attribute_products _ _ _ _ _) as [e2 sales_events]. simpl in Hset, Hfpf, Hval.
  set (e3 := _cleanup_pending_decreases e2 timestamp).
  assert (confirm_intervals e3 = confirm_intervals e) as Hc
    by (destruct Hset as (Hs & _); simpl in *; congruence).
  assert (min_delta_threshold e3 = min_delta_threshold e) as Hthr
    by (destruct Hset as (_ & Hs & _); simpl in *; congruence).
  assert (snapshot_history e3 = snapshot_history e1) as Hh
    by (destruct Hset as (_ & _ & _ & _ & Hs); simpl in *; congruence).
  assert (window_totals e3 = window_totals e1) as Hw.
  { unfold window_totals. rewrite Hh. destruct Hset as (Hs & _).
    simpl in *. by rewrite Hs. }
  assert (false_positives_filtered e3 = false_positives_filtered e) as Hf3 by done.
  pose proof (validate_total_decrease_spec e3 total_delta timestamp) as Hspec.
  cbv zeta in Hspec. rewrite Hh, Hw, Hc, Hthr, Hf3 in Hspec.
  unfold unattributed_fallback. cbv zeta. fold total_delta.
  assert ((total_delta <? 0) = true) as -> by lia.
  destruct sales_events as [|ev0 rest].
  2:{ simpl. intros Hnone. exfalso.
      specialize (Hnone ev0 ltac:(left)). destruct (Hval ev0 ltac:(left)). congruence. }
  rewrite bool_decide_eq_true_2 by done. simpl andb. cbv iota.
  destruct (_validate_total_decrease e3 total_delta timestamp) as [ok e4].
  simpl in Hspec. destruct Hspec as (Hok & Hsmall & Htie & Hemit & Hshort).
  intros _.
  assert (unattributed_sale_emitted
            (if ok then
               (e4, [] ++ [ {| product_name := "Unknown";
                               quantity_delta := Z.abs total_delta;
                               inventory_before := dict_sum (previous_inventory e1);
                               inventory_after := dict_sum (current_inventory e1);
                               timestamp_utc := timestamp;
                               validated := false |} ])
             else (e4, [])).2 ↔ ok = true) as Hem.
  { destruct ok; simpl.
    - split; [done|]. intros _. eexists. split; [by apply list_elem_of_singleton|done].
    - split; [|done]. intros (ev & ?%elem_of_nil & _). done. }
  destruct ok; simpl in *; (split; [by rewrite Hem|]); repeat split; try done.
  all: intros; try (by apply Hsmall); try (by apply Htie); try (by apply Hemit);
    try (by apply Hshort).
  all: by apply Hemit, Hem.
Qed.

Lemma steady_engine_reached :
  (e ← __init__ 2 2 10 5; Some (run e (take 2 steady_decrease)))
  = Some (steady_engine, [ []; [] ]).
Proof. vm_compute. reflexivity. Qed.

Lemma steady_engine_tick3 :
  (process_snapshot steady_engine (crate 8) 10).2 = [unknown_sale 4 36 32 10].
Proof. vm_compute. reflexivity. Qed.

Lemma filling_history_tick2 :
  (process_snapshot (test_engine 10 [(0, {["mango" := 10]})] ∅ ∅ 0 0 ∅)
     {["mango" := 5]} 5).2 = [].
Proof. vm_compute. reflexivity. Qed.

Lemma unattributed_fallback_rule_witness :
  (let e1 := append_snapshot steady_engine (crate 8) 10 in
   let r := process_snapshot steady_engine (crate 8) 10 in
   (unattributed_sale_emitted r.2 ↔
      2 * min_delta_threshold steady_engine ≤ Z.abs (sum_of_deltas e1)
      ∧ confirm_intervals steady_engine + 1 ≤ Z.of_nat (length (snapshot_history e1))
      ∧ strictly_decreasing (window_totals e1))
   ∧ (Z.abs (sum_of_deltas e1) < 2 * min_delta_threshold steady_engine →
      false_positives_filtered r.1 = false_positives_filtered steady_engine + 1)
   ∧ (confirm_intervals steady_engine + 1 ≤ Z.of_nat (length (snapshot_history e1)) →
      ¬ strictly_decreasing (window_totals e1) →
      false_positives_filtered r.1 = false_positives_filtered steady_engine + 1)
   ∧ (unattributed_sale_emitted r.2 →
      false_positives_filtered r.1 = false_positives_filtered steady_engine)
   ∧ (2 * min_delta_threshold steady_engine ≤ Z.abs (sum_of_deltas e1) →
      Z.of_nat (length (snapshot_history e1)) < confirm_intervals steady_engine + 1 →
      false_positives_filtered r.1 = false_positives_filtered steady_engine))
  ∧ false_positives_filtered
      (process_snapshot (test_engine 10 [(0, {["mango" := 10]})] ∅ ∅ 0 0 ∅)
         {["mango" := 5]} 5).1
    = false_positives_filtered (test_engine 10 [(0, {["mango" := 10]})] ∅ ∅ 0 0 ∅).
Proof.
  split.
  - apply (unattributed_fallback_rule steady_engine (crate 8) 10).
    + vm_compute. lia.
    + vm_compute. reflexivity.
    + intros ev Hev. rewrite steady_engine_tick3 in Hev.
      apply list_elem_of_singleton in Hev as ->. reflexivity.
  - pose proof (unattributed_fallback_rule
                  (test_engine 10 [(0, {["mango" := 10]})] ∅ ∅ 0 0 ∅)
                  {["mango" := 5]} 5) as Hrule.
    cbv zeta in Hrule. destruct Hrule as (_ & _ & _ & _ & Hshort).
    + vm_compute. lia.
    + vm_compute. reflexivity.
    + intros ev Hev. rewrite filling_history_tick2 in Hev.
      destruct (proj1 (elem_of_nil ev) Hev).
    + apply Hshort; vm_compute; [discriminate | reflexivity].
Defined.

(** C3, as the specification words it, fails while the history is still
    filling: after [{mango: 10}] at 0, the snapshot [{mango: 5}] at 5 is a
    total decrease of 5, at least twice the threshold, and the totals of
    the two retained snapshots are strictly decreasing, yet no ["Unknown"]
    sale is emitted because the history does not hold
    [confirm_intervals + 1 = 3] snapshots. *)
Lemma fallback_rule_counterexample :
  ¬ (∀ e inventory timestamp, fallback_rule_as_specified e inventory timestamp).
Proof.
  intros Hclaim.
  specialize (Hclaim (test_engine 10 [(0, {["mango" := 10]})] ∅ ∅ 0 0 ∅)
                {["mango" := 5]} 5).
  unfold fallback_rule_as_specified in Hclaim. cbv zeta in Hclaim.
  assert ((process_snapshot (test_engine 10 [(0, {["mango" := 10]})] ∅ ∅ 0 0 ∅)
             {["mango" := 5]} 5).2 = []) as Hnone by (vm_compute; reflexivity).
  rewrite Hnone in Hclaim. clear Hnone.
  destruct Hclaim as [_ Hemit].
  - vm_compute. lia.
  - vm_compute. reflexivity.
  - intros ev Hin. apply elem_of_nil in Hin. destruct Hin.
  - assert (window_totals (append_snapshot
              (test_engine 10 [(0, {["mango" := 10]})] ∅ ∅ 0 0 ∅) {["mango" := 5]} 5)
            = [10; 5]) as Hwindow by (vm_compute; reflexivity).
    assert (sum_of_deltas (append_snapshot
              (test_engine 10 [(0, {["mango" := 10]})] ∅ ∅ 0 0 ∅) {["mango" := 5]} 5)
            = -5) as Hsum by (vm_compute; reflexivity).
    rewrite Hwindow, Hsum in Hemit.
    destruct Hemit as (ev & Hin & _).
    + split; [simpl; lia|].
      intros [|[|i]] a b; simpl; intros [= <-] [= <-]. lia.
    + apply elem_of_nil in Hin. destruct Hin.
Qed.

End fallback.

(** ** Cooldown records and pending queues of the sales engine *)

Section sales_state.
Import SalesAttribution.

Implicit Types (e : SalesAttributionEngine) (p q : string) (ev : SaleEvent).

(** *** The cooldown record is written by attributed sales only *)

Lemma attribute_product_silent now cur prev e p :
  (attribute_product now cur prev e p).2 = None →
  last_sale_time (attribute_product now cur prev e p).1 = last_sale_time e.
Proof.
  rewrite attribute_product_unfold. cbv zeta.
  destruct (record_delta e p now _ !! p) as [[|[ts0 d0] rest]|]; [done | | done].
  destruct (_validate_decrease e p now); [|done].
  by destruct (_check_cooldown e p now).
Qed.

Lemma attribute_products_silent now cur prev e l :
  (attribute_products now cur prev e l).2 = [] →
  last_sale_time (attribute_products now cur prev e l).1 = last_sale_time e.
Proof.
  revert e. induction l as [|p l IH]; intros e; simpl; [done|].
  pose proof (attribute_product_silent now cur prev e p) as Hp.
  destruct (attribute_product now cur prev e p) as [e1 sale].
  specialize (IH e1).
  destruct (attribute_products now cur prev e1 l) as [e2 sales]. simpl in *.
  intros [Hsale ->]%app_eq_nil. destruct sale; [done|].
  rewrite IH by done. by apply Hp.
Qed.

Lemma append_snapshot_length_small e inventory timestamp :
  (length (snapshot_history (append_snapshot e inventory timestamp)) < 2)%nat →
  (process_snapshot e inventory timestamp)
  = (append_snapshot e inventory timestamp, []).
Proof.
  intros Hlen. rewrite process_snapshot_unfold. cbv zeta.
  apply Nat.ltb_lt in Hlen. by rewrite Hlen.
Qed.

(** A tick that emits the unattributed sale leaves the cooldown records
    as they were. *)
Lemma unattributed_sale_keeps_cooldown e inventory timestamp ev :
  ev ∈ (process_snapshot e inventory timestamp).2 →
  validated ev = false →
  last_sale_time (process_snapshot e inventory timestamp).1 = last_sale_time e.
Proof.
  intros Hin Hval.
  destruct (decide (length (snapshot_history (append_snapshot e inventory timestamp)) < 2)%nat)
    as [Hsmall | Hlen].
  { rewrite append_snapshot_length_small in Hin by done. by apply elem_of_nil in Hin. }
  apply Nat.nlt_ge in Hlen.
  destruct (process_snapshot_state e inventory timestamp Hlen) as (_ & -> & _).
  revert Hin. rewrite process_snapshot_events. cbv zeta.
  pose proof Hlen as Hlen'. apply Nat.ltb_ge in Hlen'. rewrite Hlen'.
  set (e1 := append_snapshot e inventory timestamp) in *.
  pose proof (attribute_products_validated timestamp (current_inventory e1)
                (previous_inventory e1) e1 (tick_products e1) ev) as Hloop.
  pose proof (attribute_products_silent timestamp (current_inventory e1)
                (previous_inventory e1) e1 (tick_products e1)) as Hsilent.
  destruct (unattributed_fallback_events
              (_cleanup_pending_decreases
                 (attribute_products timestamp (current_inventory e1)
                    (previous_inventory e1) e1 (tick_products e1)).1 timestamp)
              timestamp (current_inventory e1) (previous_inventory e1)
              (attribute_products timestamp (current_inventory e1)
                 (previous_inventory e1) e1 (tick_products e1)).2)
    as [-> | (Hnil & _)].
  - intros Hin. destruct (Hloop Hin) as (? & _). congruence.
  - intros _. by rewrite Hsilent.
Qed.

(** The fallback does not read the cooldown records. *)
Lemma unattributed_fallback_ignores_cooldown e m now cur prev sales_events :
  (unattributed_fallback (set_last_sale_time e m) now cur prev sales_events).2
  = (unattributed_fallback e now cur prev sales_events).2.
Proof.
  unfold unattributed_fallback, _validate_total_decrease. cbv zeta.
  cbn [min_delta_threshold confirm_intervals snapshot_history set_last_sale_time].
  by repeat case_match.
Qed.

(** *** A positive delta empties the pending queue *)

Lemma cleanup_lookup e now p :
  pending_decreases (_cleanup_pending_decreases e now) !! p
  = pending_decreases e !! p
      ≫= cleanup_entry now (snapshot_interval e * (confirm_intervals e + 2)).
Proof. unfold _cleanup_pending_decreases. simpl. apply lookup_omap. Qed.

Lemma increase_clears_pending e inventory timestamp p :
  let e1 := append_snapshot e inventory timestamp in
  (2 ≤ length (snapshot_history e1))%nat →
  0 < tick_delta e1 p →
  pending_decreases (process_snapshot e inventory timestamp).1 !! p = None.
Proof.
  cbv zeta. intros Hlen Hpos.
  set (e1 := append_snapshot e inventory timestamp) in *.
  destruct (process_snapshot_state e inventory timestamp Hlen) as (_ & _ & ->).
  fold e1. rewrite cleanup_lookup.
  assert (p ∈ tick_products e1) as Hp by (apply tick_delta_nonzero_product; lia).
  destruct (attribute_products_state timestamp (current_inventory e1)
              (previous_inventory e1) e1 (tick_products e1) p
              (tick_products_NoDup e1) Hp) as (_ & <- & _).
  rewrite attribute_product_unfold. cbv zeta. fold (tick_delta e1 p).
  destruct (record_delta_increase e1 p timestamp _ Hpos) as [Hq | Hq];
    rewrite Hq; simpl; by rewrite Hq.
Qed.

(** *** The pending list is pruned by age *)

Lemma cleanup_pending_young e now p entries :
  pending_decreases (_cleanup_pending_decreases e now) !! p = Some entries →
  entries ≠ []
  ∧ Forall (λ x, now - x.1 < snapshot_interval e * (confirm_intervals e + 2)) entries.
Proof.
  rewrite cleanup_lookup. intros (old & _ & Hclean)%bind_Some.
  unfold cleanup_entry in Hclean.
  destruct (filter _ old) as [|x kept] eqn:Hf; [done|].
  injection Hclean as <-. split; [done|]. rewrite <- Hf.
  apply Forall_forall. by intros y [? _]%list_elem_of_filter.
Qed.

Lemma tail_length {A : Type} (l : list A) : length (tail l) = pred (length l).
Proof. by destruct l. Qed.

Lemma deque_append_length {A : Type} (maxlen : nat) (q : list A) (x : A) :
  (length q ≤ maxlen)%nat → (length (deque_append maxlen q x) ≤ maxlen)%nat.
Proof.
  intros Hq. unfold deque_append.
  destruct (maxlen =? 0)%nat eqn:H0; [done|].
  destruct (maxlen <? length (q ++ [x]))%nat eqn:Hfull.
  - rewrite tail_length, length_app. simpl. lia.
  - by apply Nat.ltb_ge in Hfull.
Qed.

Lemma deque_append_keeps_two {A : Type} (maxlen : nat) (q : list A) (x : A) :
  (2 ≤ length q ≤ maxlen)%nat → (2 ≤ length (deque_append maxlen q x))%nat.
Proof.
  intros Hq. unfold deque_append.
  destruct (maxlen =? 0)%nat eqn:H0; [apply Nat.eqb_eq in H0; lia|].
  destruct (maxlen <? length (q ++ [x]))%nat;
    rewrite ?tail_length, length_app; simpl; lia.
Qed.

Lemma process_snapshot_within_bound e inventory timestamp :
  history_within_bound e →
  history_within_bound (process_snapshot e inventory timestamp).1.
Proof.
  intros [Hbound Hpending].
  assert (length (snapshot_history (append_snapshot e inventory timestamp))
          ≤ Z.to_nat (confirm_intervals e + 1))%nat as Hbound1
    by (by apply deque_append_length).
  destruct (decide (length (snapshot_history (append_snapshot e inventory timestamp)) < 2)%nat)
    as [Hsmall | Hlen].
  - rewrite append_snapshot_length_small by done. split; [done|].
    destruct Hpending as [Hempty | Htwo]; [by left|].
    pose proof (deque_append_keeps_two (Z.to_nat (confirm_intervals e + 1))
                  (snapshot_history e) (timestamp, inventory) (conj Htwo Hbound)).
    simpl in Hsmall. lia.
  - apply Nat.nlt_ge in Hlen.
    destruct (process_snapshot_state e inventory timestamp Hlen)
      as ((Hc & _ & _ & _ & Hh) & _ & _).
    unfold history_within_bound. rewrite <- Hh, <- Hc. split; [done | by right].
Qed.

Lemma run_within_bound e snapshots :
  history_within_bound e → history_within_bound (run e snapshots).1.
Proof.
  revert e. induction snapshots as [|[inventory timestamp] rest IH]; intros e He;
    simpl; [done|].
  pose proof (process_snapshot_within_bound e inventory timestamp He) as H1.
  destruct (process_snapshot e inventory timestamp) as [e1 evs].
  specialize (IH e1 H1). by destruct (run e1 rest).
Qed.

Lemma run_app e snapshots1 snapshots2 :
  run e (snapshots1 ++ snapshots2)
  = ((run (run e snapshots1).1 snapshots2).1,
     (run e snapshots1).2 ++ (run (run e snapshots1).1 snapshots2).2).
Proof.
  revert e. induction snapshots1 as [|[inventory timestamp] rest IH]; intros e; simpl.
  { by destruct (run e snapshots2). }
  destruct (process_snapshot e inventory timestamp) as [e1 evs].
  rewrite IH. by destruct (run e1 rest).
Qed.

Lemma run_settings e snapshots :
  confirm_intervals (run e snapshots).1 = confirm_intervals e
  ∧ min_delta_threshold (run e snapshots).1 = min_delta_threshold e
  ∧ cooldown_seconds (run e snapshots).1 = cooldown_seconds e
  ∧ snapshot_interval (run e snapshots).1 = snapshot_interval e.
Proof.
  revert e. induction snapshots as [|[inventory timestamp] rest IH]; intros e;
    simpl; [done|].
  assert (confirm_intervals (process_snapshot e inventory timestamp).1 = confirm_intervals e
          ∧ min_delta_threshold (process_snapshot e inventory timestamp).1
            = min_delta_threshold e
          ∧ cooldown_seconds (process_snapshot e inventory timestamp).1
            = cooldown_seconds e
          ∧ snapshot_interval (process_snapshot e inventory timestamp).1
            = snapshot_interval e) as H1.
  { destruct (decide (length (snapshot_history
                (append_snapshot e inventory timestamp)) < 2)%nat) as [Hsmall | Hlen].
    - by rewrite append_snapshot_length_small.
    - apply Nat.nlt_ge in Hlen.
      destruct (process_snapshot_state e inventory timestamp Hlen)
        as ((? & ? & ? & ? & _) & _ & _). done. }
  destruct (process_snapshot e inventory timestamp) as [e1 evs].
  specialize (IH e1). destruct (run e1 rest). simpl in *.
  destruct IH as (-> & -> & -> & ->). done.
Qed.

(** After every tick of a run that starts within bounds, every pending
    entry is younger than [snapshot_interval * (confirm_intervals + 2)]
    and no pending list is empty. *)
Lemma run_pending_young e snapshots inventory timestamp p entries :
  history_within_bound e →
  pending_decreases (run e (snapshots ++ [(inventory, timestamp)])).1 !! p = Some entries →
  entries ≠ []
  ∧ Forall (λ x, timestamp - x.1 < snapshot_interval e * (confirm_intervals e + 2))
      entries.
Proof.
  intros He. rewrite run_app. simpl.
  pose proof (run_within_bound e snapshots He) as [Hbound Hpending].
  destruct (run_settings e snapshots) as (Hc & _ & _ & Hsi).
  set (e1 := (run e snapshots).1) in *.
  destruct (process_snapshot e1 inventory timestamp) as [e2 evs] eqn:Htick. simpl.
  assert (e2 = (process_snapshot e1 inventory timestamp).1) as -> by by rewrite Htick.
  destruct (decide (length (snapshot_history (append_snapshot e1 inventory timestamp)) < 2)%nat)
    as [Hsmall | Hlen].
  - rewrite append_snapshot_length_small by done. simpl.
    destruct Hpending as [-> | Htwo]; [by rewrite lookup_empty|].
    pose proof (deque_append_keeps_two (Z.to_nat (confirm_intervals e1 + 1))
                  (snapshot_history e1) (timestamp, inventory) (conj Htwo Hbound)).
    simpl in Hsmall. lia.
  - apply Nat.nlt_ge in Hlen.
    destruct (process_snapshot_state e1 inventory timestamp Hlen) as (_ & _ & ->).
    intros Hq. apply cleanup_pending_young in Hq.
    pose proof (attribute_products_settings timestamp
      (current_inventory (append_snapshot e1 inventory timestamp))
      (previous_inventory (append_snapshot e1 inventory timestamp))
      (append_snapshot e1 inventory timestamp)
      (tick_products (append_snapshot e1 inventory timestamp)))
      as (Hc' & _ & _ & Hsi' & _).
    simpl in Hc', Hsi'. by rewrite <- Hc', <- Hsi', Hc, Hsi in Hq.
Qed.

End sales_state.

(** ** Cooldown spacing *)

Section cooldown_traces.
Context {E K : Type} `{Countable K}.
Variables (key : E → K) (time : E → Z) (cooldown : Z).

Lemma cooldown_invariant_nil (last : gmap K Z) :
  cooldown_invariant key time cooldown last [].
Proof.
  split.
  - intros i j a b _ Hi. by rewrite lookup_nil in Hi.
  - intros a Ha. by apply elem_of_nil in Ha.
Qed.

(** Emitting for a key whose record, if any, is at least one cooldown old,
    and recording the emission, keeps the invariant. *)
Lemma cooldown_invariant_emit (last : gmap K Z) (trace : list E) (b : E) :
  0 ≤ cooldown →
  cooldown_invariant key time cooldown last trace →
  (∀ t, last !! key b = Some t → cooldown ≤ time b - t) →
  cooldown_invariant key time cooldown (<[key b := time b]> last) (trace ++ [b]).
Proof.
  intros Hcd [Hspaced Hlast] Hallowed. split.
  - intros i j a c Hij Hi Hj Hkey.
    destruct (decide (j < length trace)%nat) as [Hjl | Hjl].
    + rewrite lookup_app_l in Hi by lia. rewrite lookup_app_l in Hj by done.
      exact (Hspaced i j a c Hij Hi Hj Hkey).
    + assert (i < length trace)%nat as Hil.
      { apply lookup_lt_Some in Hj. rewrite length_app in Hj. simpl in Hj. lia. }
      rewrite lookup_app_l in Hi by done.
      rewrite lookup_app_r in Hj by lia.
      destruct (j - length trace)%nat as [|n]; simpl in Hj; [|by destruct n].
      injection Hj as <-.
      destruct (Hlast a) as (t & Ht & Hle); [by eapply list_elem_of_lookup_2|].
      rewrite Hkey in Ht. specialize (Hallowed t Ht). lia.
  - intros a [Ha | ->%list_elem_of_singleton]%elem_of_app.
    + destruct (Hlast a Ha) as (t & Ht & Hle).
      destruct (decide (key b = key a)) as [Heq | Hne].
      * rewrite <- Heq, lookup_insert_eq. eexists. split; [done|].
        rewrite <- Heq in Ht. specialize (Hallowed t Ht). lia.
      * rewrite lookup_insert_ne by done. eauto.
    + rewrite lookup_insert_eq. eexists. split; [done | lia].
Qed.

End cooldown_traces.

Section sales_cooldown.
Import SalesAttribution.

Implicit Types (e : SalesAttributionEngine) (p q : string) (ev : SaleEvent).

Lemma check_cooldown_allows e p now :
  _check_cooldown e p now = true →
  ∀ t, last_sale_time e !! p = Some t → cooldown_seconds e ≤ now - t.
Proof.
  unfold _check_cooldown. intros Hc t Ht. rewrite Ht in Hc.
  destruct (now - t <? cooldown_seconds e) eqn:Hlt; [done|]. lia.
Qed.

Lemma attribute_product_cooldown now cur prev e p trace :
  0 ≤ cooldown_seconds e →
  cooldown_invariant product_name timestamp_utc (cooldown_seconds e)
    (last_sale_time e) trace →
  cooldown_invariant product_name timestamp_utc (cooldown_seconds e)
    (last_sale_time (attribute_product now cur prev e p).1)
    (trace ++ option_list (attribute_product now cur prev e p).2).
Proof.
  intros Hcd Hinv. rewrite attribute_product_unfold. cbv zeta.
  destruct (record_delta e p now _ !! p) as [[|[ts0 d0] rest]|];
    [simpl; by rewrite app_nil_r | | simpl; by rewrite app_nil_r].
  destruct (_validate_decrease e p now); [|simpl; by rewrite app_nil_r].
  destruct (_check_cooldown e p now) eqn:Hcool; [|simpl; by rewrite app_nil_r].
  cbn [fst snd option_list last_sale_time set_pending_decreases set_last_sale_time].
  match goal with
  | |- cooldown_invariant _ _ _ _ (_ ++ option_list (Some ?b)) =>
      apply (cooldown_invariant_emit product_name timestamp_utc
               (cooldown_seconds e) (last_sale_time e) trace b Hcd Hinv)
  end.
  simpl. by apply check_cooldown_allows.
Qed.

Lemma attribute_products_cooldown now cur prev e l trace :
  0 ≤ cooldown_seconds e →
  cooldown_invariant product_name timestamp_utc (cooldown_seconds e)
    (last_sale_time e) trace →
  cooldown_invariant product_name timestamp_utc (cooldown_seconds e)
    (last_sale_time (attribute_products now cur prev e l).1)
    (trace ++ (attribute_products now cur prev e l).2).
Proof.
  revert e trace. induction l as [|p l IH]; intros e trace Hcd Hinv; simpl.
  { by rewrite app_nil_r. }
  pose proof (attribute_product_cooldown now cur prev e p trace Hcd Hinv) as Hp.
  pose proof (attribute_product_settings now cur prev e p) as (_ & _ & Hsame & _).
  destruct (attribute_product now cur prev e p) as [e1 sale]. simpl in *.
  rewrite Hsame in Hcd, Hp. specialize (IH e1 _ Hcd Hp).
  destruct (attribute_products now cur prev e1 l) as [e2 sales]. simpl in *.
  by rewrite Hsame, app_assoc.
Qed.

Lemma filter_attributed_all (sales_events : list SaleEvent) :
  (∀ ev, ev ∈ sales_events → validated ev = true) →
  filter (λ ev, validated ev = true) sales_events = sales_events.
Proof.
  induction sales_events as [|ev l IH]; intros Hall; [done|].
  rewrite filter_cons, decide_True by (apply Hall; left).
  rewrite IH; [done|]. intros ev' Hev'. apply Hall. by right.
Qed.

(** The attributed sales of one tick, as a list. *)
Lemma process_snapshot_attributed_list e inventory timestamp :
  let e1 := append_snapshot e inventory timestamp in
  filter (λ ev, validated ev = true) (process_snapshot e inventory timestamp).2
  = if (length (snapshot_history e1) <? 2)%nat then []
    else (attribute_products timestamp (current_inventory e1) (previous_inventory e1)
            e1 (tick_products e1)).2.
Proof.
  cbv zeta. rewrite process_snapshot_events. cbv zeta.
  destruct (length _ <? 2)%nat; [done|].
  set (e1 := append_snapshot e inventory timestamp).
  pose proof (attribute_products_validated timestamp (current_inventory e1)
                (previous_inventory e1) e1 (tick_products e1)) as Hval.
  destruct (unattributed_fallback_events
              (_cleanup_pending_decreases
                 (attribute_products timestamp (current_inventory e1)
                    (previous_inventory e1) e1 (tick_products e1)).1 timestamp)
              timestamp (current_inventory e1) (previous_inventory e1)
              (attribute_products timestamp (current_inventory e1)
                 (previous_inventory e1) e1 (tick_products e1)).2)
    as [-> | (-> & _ & _ & ->)].
  - apply filter_attributed_all. intros ev Hev. by destruct (Hval ev Hev).
  - done.
Qed.

Lemma process_snapshot_cooldown e inventory timestamp trace :
  0 ≤ cooldown_seconds e →
  cooldown_invariant product_name timestamp_utc (cooldown_seconds e)
    (last_sale_time e) trace →
  cooldown_invariant product_name timestamp_utc (cooldown_seconds e)
    (last_sale_time (process_snapshot e inventory timestamp).1)
    (trace ++ filter (λ ev, validated ev = true)
                (process_snapshot e inventory timestamp).2).
Proof.
  intros Hcd Hinv. rewrite process_snapshot_attributed_list. cbv zeta.
  destruct (decide (length (snapshot_history (append_snapshot e inventory timestamp)) < 2)%nat)
    as [Hsmall | Hlen].
  - rewrite append_snapshot_length_small by done.
    apply Nat.ltb_lt in Hsmall. rewrite Hsmall. simpl. by rewrite app_nil_r.
  - apply Nat.nlt_ge in Hlen.
    destruct (process_snapshot_state e inventory timestamp Hlen) as (_ & -> & _).
    apply Nat.ltb_ge in Hlen. rewrite Hlen.
    by apply (attribute_products_cooldown timestamp _ _
                (append_snapshot e inventory timestamp)).
Qed.

Lemma run_cooldown e snapshots trace :
  0 ≤ cooldown_seconds e →
  cooldown_invariant product_name timestamp_utc (cooldown_seconds e)
    (last_sale_time e) trace →
  cooldown_invariant product_name timestamp_utc (cooldown_seconds e)
    (last_sale_time (run e snapshots).1)
    (trace ++ attributed_sales (run e snapshots).2).
Proof.
  revert e trace. induction snapshots as [|[inventory timestamp] rest IH];
    intros e trace Hcd Hinv; simpl.
  { unfold attributed_sales. simpl. by rewrite app_nil_r. }
  pose proof (process_snapshot_cooldown e inventory timestamp trace Hcd Hinv) as H1.
  destruct (run_settings e [(inventory, timestamp)]) as (_ & _ & Hsame & _).
  simpl in Hsame.
  destruct (process_snapshot e inventory timestamp) as [e1 evs]. simpl in *.
  rewrite <- Hsame in Hcd, H1. specialize (IH e1 _ Hcd H1).
  destruct (run e1 rest) as [e2 later]. simpl in *.
  unfold attributed_sales in *. simpl. rewrite filter_app, app_assoc.
  by rewrite <- Hsame.
Qed.

(** The attributed sales of a fresh engine are spaced by the cooldown. *)
Lemma attributed_sales_spaced c thr cd si snapshots ticks :
  0 ≤ cd →
  fresh_sales_run c thr cd si snapshots = Some ticks →
  cooldown_spaced product_name timestamp_utc cd (attributed_sales ticks).
Proof.
  intros Hcd. unfold fresh_sales_run, __init__.
  destruct (c + 1 <? 0); [done|]. simpl. intros [= <-].
  match goal with
  | |- context [run ?e0 snapshots] =>
      pose proof (run_cooldown e0 snapshots [] Hcd
                    (cooldown_invariant_nil product_name timestamp_utc _ _)) as [Hs _]
  end.
  exact Hs.
Qed.

End sales_cooldown.

(** ** The alert engine *)

Section alert_steps.
Import Alerts.

Implicit Types (e : AlertEngine) (p : string) (a : Alert).


Lemma same_alert_settings_trans e1 e2 e3 :
  same_alert_settings e1 e2 → same_alert_settings e2 e3 → same_alert_settings e1 e3.
Proof.
  intros (? & ? & ? & ?) (? & ? & ? & ?). repeat split; congruence.
Qed.

(** The engine that [fresh_alert_run] starts from. *)
Lemma fresh_alert_run_unfold thresholds lc ec cd ticks :
  fresh_alert_run thresholds lc ec cd ticks
  = run {| low_stock_thresholds := thresholds;
           low_stock_confirm_intervals := lc;
           expiration_confirm_intervals := ec;
           alert_cooldown_seconds := cd;
           pending_low_stock := ∅;
           pending_expiration := ∅;
           last_alert_time := ∅;
           active_alerts := ∅;
           total_alerts_triggered := 0;
           alerts_by_type := ∅;
           alerts_suppressed_by_cooldown := 0 |} ticks.
Proof. reflexivity. Qed.

Lemma alert_check_cooldown_state e ty p now :
  let r := _check_cooldown e ty p now in
  same_alert_settings e r.2
  ∧ pending_low_stock r.2 = pending_low_stock e
  ∧ pending_expiration r.2 = pending_expiration e
  ∧ last_alert_time r.2 = last_alert_time e.
Proof.
  cbv zeta. unfold _check_cooldown.
  destruct (last_alert_time e !! (ty, p)) as [t|]; [|by repeat split].
  destruct (now - t <? alert_cooldown_seconds e); by repeat split.
Qed.

Lemma alert_check_cooldown_allows e ty p now :
  (_check_cooldown e ty p now).1 = true →
  ∀ t, last_alert_time e !! (ty, p) = Some t → alert_cooldown_seconds e ≤ now - t.
Proof.
  unfold _check_cooldown. intros Hc t Ht. rewrite Ht in Hc.
  destruct (now - t <? alert_cooldown_seconds e) eqn:Hlt; [done|]. lia.
Qed.

Lemma pending_deque_bound {A : Type} maxlen (pending : gmap string (list (Z * A))) p q :
  deques_bounded maxlen pending →
  pending_deque maxlen pending p = Some q →
  0 ≤ maxlen ∧ Z.of_nat (length q) ≤ maxlen.
Proof.
  intros Hb. unfold pending_deque.
  destruct (pending !! p) as [q'|] eqn:Hp.
  - intros [= <-]. specialize (Hb p q' Hp). lia.
  - destruct (maxlen <? 0) eqn:Hneg; [done|]. intros [= <-]. simpl. lia.
Qed.

Lemma deques_bounded_insert {A : Type} maxlen (pending : gmap string (list (Z * A))) p q :
  deques_bounded maxlen pending →
  Z.of_nat (length q) ≤ maxlen →
  deques_bounded maxlen (<[p := q]> pending).
Proof.
  intros Hb Hq p' q'. destruct (decide (p = p')) as [<- | Hne].
  - rewrite lookup_insert_eq. by intros [= <-].
  - rewrite lookup_insert_ne by done. apply Hb.
Qed.

Lemma deque_append_bound {A : Type} (maxlen : Z) (q : list A) (x : A) :
  0 ≤ maxlen → Z.of_nat (length q) ≤ maxlen →
  Z.of_nat (length (deque_append (Z.to_nat maxlen) q x)) ≤ maxlen.
Proof.
  intros H0 Hq.
  pose proof (deque_append_length (Z.to_nat maxlen) q x). lia.
Qed.

(** Everything one step of the low-stock loop does. *)
Lemma low_stock_step_spec inventory timestamp e p threshold e' alert :
  low_stock_step inventory timestamp e (p, threshold) = Some (e', alert) →
  same_alert_settings e e'
  ∧ pending_expiration e' = pending_expiration e
  ∧ (∀ r, r ≠ p → pending_low_stock e' !! r = pending_low_stock e !! r)
  ∧ (threshold < dict_get inventory p 0 →
     alert = None ∧ default [] (pending_low_stock e' !! p) = [])
  ∧ (deques_bounded (low_stock_confirm_intervals e + 1) (pending_low_stock e) →
     deques_bounded (low_stock_confirm_intervals e + 1) (pending_low_stock e'))
  ∧ match alert with
    | None => last_alert_time e' = last_alert_time e
    | Some a =>
        a = {| alert_type := LOW_STOCK;
               product_name := p;
               severity := if dict_get inventory p 0 =? 0 then CRITICAL else WARNING;
               timestamp_utc := timestamp;
               metadata :=
                 LowStockMetadata (dict_get inventory p 0) threshold
                   (if dict_get inventory p 0 =? 0 then "out_of_stock"
                    else "low_stock") |}
        ∧ dict_get inventory p 0 ≤ threshold
        ∧ last_alert_time e' = <[(LOW_STOCK, p) := timestamp]> (last_alert_time e)
        ∧ (∀ t, last_alert_time e !! (LOW_STOCK, p) = Some t →
                alert_cooldown_seconds e ≤ timestamp - t)
    end.
Proof.
  unfold low_stock_step. cbv zeta.
  set (count := dict_get inventory p 0).
  destruct (count <=? threshold) eqn:Hlow.
  - apply Z.leb_le in Hlow.
    destruct (pending_deque _ _ p) as [q|] eqn:Hq; simpl; [|done].
    set (q' := deque_append _ q (timestamp, count)).
    set (e1 := set_pending_low_stock e (<[p := q']> (pending_low_stock e))).
    assert (∀ maxlen, deques_bounded maxlen (pending_low_stock e) →
              maxlen = low_stock_confirm_intervals e + 1 →
              deques_bounded maxlen (<[p := q']> (pending_low_stock e))
              ∧ deques_bounded maxlen (<[p := []]> (<[p := q']> (pending_low_stock e))))
      as Hbound.
    { intros maxlen Hb ->. destruct (pending_deque_bound _ _ _ _ Hb Hq) as [H0 Hlen].
      split; repeat apply deques_bounded_insert; try done; simpl; try lia.
      all: by apply deque_append_bound. }
    destruct (_validate_low_stock e1 p threshold).
    + pose proof (alert_check_cooldown_state e1 LOW_STOCK p timestamp) as Hstate.
      pose proof (alert_check_cooldown_allows e1 LOW_STOCK p timestamp) as Hallow.
      destruct (_check_cooldown e1 LOW_STOCK p timestamp) as [[] e2];
        simpl in Hstate, Hallow; destruct Hstate as (Hset & Hpl & Hpe & Hl);
        intros [= <- <-]; simpl; rewrite ?Hpl, ?Hpe, ?Hl.
      * split; [done|]. split; [done|].
        split; [intros r Hr; by rewrite !lookup_insert_ne|].
        split; [lia|]. split; [intros Hb; by apply Hbound|].
        split; [done|]. split; [done|]. split; [done|]. by apply Hallow.
      * split; [done|]. split; [done|].
        split; [intros r Hr; by rewrite lookup_insert_ne|].
        split; [lia|]. split; [intros Hb; by apply Hbound|]. done.
    + intros [= <- <-]. simpl.
      split; [by repeat split|]. split; [done|].
      split; [intros r Hr; by rewrite lookup_insert_ne|].
      split; [lia|]. split; [intros Hb; by apply Hbound|]. done.
  - apply Z.leb_gt in Hlow.
    destruct (pending_low_stock e !! p) as [q|] eqn:Hq; intros [= <- <-]; simpl.
    + split; [by repeat split|]. split; [done|].
      split; [intros r Hr; by rewrite lookup_insert_ne|].
      split; [by rewrite lookup_insert_eq|].
      split; [|done]. intros Hb. apply deques_bounded_insert; [done|].
      specialize (Hb p q Hq). simpl. lia.
    + split; [by repeat split|]. split; [done|]. split; [done|].
      split; [by rewrite Hq|]. done.
Qed.

(** Everything one step of the expiration loop does. *)
Lemma expiration_step_spec timestamp e p freshness_data e' alert :
  expiration_step timestamp e (p, freshness_data) = Some (e', alert) →
  same_alert_settings e e'
  ∧ pending_low_stock e' = pending_low_stock e
  ∧ (∀ r, r ≠ p → pending_expiration e' !! r = pending_expiration e !! r)
  ∧ (default false (is_expired freshness_data) = false →
     alert = None ∧ default [] (pending_expiration e' !! p) = [])
  ∧ (deques_bounded (expiration_confirm_intervals e + 1) (pending_expiration e) →
     deques_bounded (expiration_confirm_intervals e + 1) (pending_expiration e'))
  ∧ match alert with
    | None => last_alert_time e' = last_alert_time e
    | Some a =>
        alert_type a = EXPIRATION
        ∧ product_name a = p
        ∧ timestamp_utc a = timestamp
        ∧ severity a = WARNING
        ∧ last_alert_time e' = <[(EXPIRATION, p) := timestamp]> (last_alert_time e)
        ∧ (∀ t, last_alert_time e !! (EXPIRATION, p) = Some t →
                alert_cooldown_seconds e ≤ timestamp - t)
    end.
Proof.
  unfold expiration_step. cbv zeta.
  destruct (default false (is_expired freshness_data)) eqn:Hexp.
  - destruct (pending_deque _ _ p) as [q|] eqn:Hq; simpl; [|done].
    set (q' := deque_append _ q (timestamp, default 0%Q (age_days freshness_data))).
    set (e1 := set_pending_expiration e (<[p := q']> (pending_expiration e))).
    assert (∀ maxlen, deques_bounded maxlen (pending_expiration e) →
              maxlen = expiration_confirm_intervals e + 1 →
              deques_bounded maxlen (<[p := q']> (pending_expiration e))
              ∧ deques_bounded maxlen (<[p := []]> (<[p := q']> (pending_expiration e))))
      as Hbound.
    { intros maxlen Hb ->. destruct (pending_deque_bound _ _ _ _ Hb Hq) as [H0 Hlen].
      split; repeat apply deques_bounded_insert; try done; simpl; try lia.
      all: by apply deque_append_bound. }
    destruct (_validate_expiration e1 p).
    + pose proof (alert_check_cooldown_state e1 EXPIRATION p timestamp) as Hstate.
      pose proof (alert_check_cooldown_allows e1 EXPIRATION p timestamp) as Hallow.
      destruct (_check_cooldown e1 EXPIRATION p timestamp) as [[] e2];
        simpl in Hstate, Hallow; destruct Hstate as (Hset & Hpl & Hpe & Hl);
        intros [= <- <-]; simpl; rewrite ?Hpl, ?Hpe, ?Hl.
      * split; [done|]. split; [done|].
        split; [intros r Hr; by rewrite !lookup_insert_ne|].
        split; [done|]. split; [intros Hb; by apply Hbound|].
        repeat split; try done. by apply Hallow.
      * split; [done|]. split; [done|].
        split; [intros r Hr; by rewrite lookup_insert_ne|].
        split; [done|]. split; [intros Hb; by apply Hbound|]. done.
    + intros [= <- <-]. simpl.
      split; [by repeat split|]. split; [done|].
      split; [intros r Hr; by rewrite lookup_insert_ne|].
      split; [done|]. split; [intros Hb; by apply Hbound|]. done.
  - destruct (pending_expiration e !! p) as [q|] eqn:Hq; intros [= <- <-]; simpl.
    + split; [by repeat split|]. split; [done|].
      split; [intros r Hr; by rewrite lookup_insert_ne|].
      split; [by rewrite lookup_insert_eq|].
      split; [|done]. intros Hb. apply deques_bounded_insert; [done|].
      specialize (Hb p q Hq). simpl. lia.
    + split; [by repeat split|]. split; [done|]. split; [done|].
      split; [by rewrite Hq|]. done.
Qed.

End alert_steps.

(** ** The loops of the alert engine *)

Section alert_loops.
Import Alerts.

Implicit Types (e : AlertEngine) (p : string) (a : Alert).

Section for_items.
Context {I : Type} (body : AlertEngine → I → option (AlertEngine * option Alert)).

Lemma for_items_cons e item rest e' alerts :
  for_items body e (item :: rest) = Some (e', alerts) ↔
  ∃ e1 alert later,
    body e item = Some (e1, alert)
    ∧ for_items body e1 rest = Some (e', later)
    ∧ alerts = option_list alert ++ later.
Proof.
  simpl. destruct (body e item) as [[e1 alert]|]; simpl.
  - destruct (for_items body e1 rest) as [[e2 later]|] eqn:Hrest; simpl.
    + split.
      * intros [= <- <-]. by exists e1, alert, later.
      * intros (? & ? & ? & [= <- <-] & Hr & ->).
        rewrite Hrest in Hr. by injection Hr as <- <-.
    + split; [done|]. intros (? & ? & ? & [= <- <-] & Hr & _). congruence.
  - split; [done|]. by intros (? & ? & ? & ? & _).
Qed.

(** A property of the engine kept by every step is kept by the loop. *)
Lemma for_items_invariant (P : AlertEngine → Prop) items :
  (∀ e item e' alert, item ∈ items → P e → body e item = Some (e', alert) → P e') →
  ∀ e e' alerts, P e → for_items body e items = Some (e', alerts) → P e'.
Proof.
  induction items as [|item rest IH]; intros Hstep e e' alerts HP.
  - simpl. by intros [= <- <-].
  - intros (e1 & alert & later & Hb & Hrest & _)%for_items_cons.
    eapply IH; [|by eapply (Hstep e item); [left|..]|exact Hrest].
    intros e2 it e3 alert' Hit. apply Hstep. by right.
Qed.

(** A property of the engine and of the alerts emitted so far. *)
Lemma for_items_trace (T : AlertEngine → list Alert → Prop) items :
  (∀ e item e' alert trace,
     T e trace → body e item = Some (e', alert) → T e' (trace ++ option_list alert)) →
  ∀ e e' alerts trace,
    T e trace → for_items body e items = Some (e', alerts) → T e' (trace ++ alerts).
Proof.
  intros Hstep. induction items as [|item rest IH]; intros e e' alerts trace HT.
  - simpl. intros [= <- <-]. by rewrite app_nil_r.
  - intros (e1 & alert & later & Hb & Hrest & ->)%for_items_cons.
    rewrite app_assoc. eapply IH; [|exact Hrest]. by eapply Hstep.
Qed.

(** Every alert of the loop is emitted by the step of one of the items. *)
Lemma for_items_alerts (Q : I → Alert → Prop) items :
  (∀ e item e' a, body e item = Some (e', Some a) → Q item a) →
  ∀ e e' alerts a,
    for_items body e items = Some (e', alerts) → a ∈ alerts →
    ∃ item, item ∈ items ∧ Q item a.
Proof.
  intros Hstep. induction items as [|item rest IH]; intros e e' alerts a.
  - simpl. intros [= <- <-] Ha. by apply elem_of_nil in Ha.
  - intros (e1 & alert & later & Hb & Hrest & ->)%for_items_cons
      [Ha | Ha]%elem_of_app.
    + destruct alert as [a'|]; simpl in Ha; [|by apply elem_of_nil in Ha].
      apply list_elem_of_singleton in Ha as ->.
      exists item. split; [left | by eapply Hstep].
    + destruct (IH _ _ _ _ Hrest Ha) as (it & Hit & HQ).
      exists it. split; [by right | done].
Qed.

(** What the step of one item establishes holds after the loop, when the
    steps of the items with another key keep it. *)
Lemma for_items_at (key : I → string) (R : AlertEngine → Prop) item items :
  NoDup (key <$> items) → item ∈ items →
  (∀ e r, body e item = Some r → R r.1) →
  (∀ e other r, key other ≠ key item → R e → body e other = Some r → R r.1) →
  ∀ e e' alerts, for_items body e items = Some (e', alerts) → R e'.
Proof.
  intros Hnd Hin Hestablish Hkeep.
  induction items as [|first rest IH]; [by apply elem_of_nil in Hin|].
  rewrite fmap_cons in Hnd. apply NoDup_cons in Hnd as [Hfirst Hnd].
  intros e e' alerts (e1 & alert & later & Hb & Hrest & _)%for_items_cons.
  apply elem_of_cons in Hin as [<- | Hin].
  - eapply (for_items_invariant R rest); [| |exact Hrest].
    + intros e2 other e3 alert' Hother HR Hstep.
      apply (Hkeep e2 other (e3, alert')); [|done|done].
      intros Heq. apply Hfirst. rewrite <- Heq.
      apply list_elem_of_fmap. by exists other.
    + by apply (Hestablish e (e1, alert)).
  - eapply (IH Hnd Hin); exact Hrest.
Qed.

End for_items.

(** *** One evaluation *)

Lemma process_alerts_state e alerts :
  same_alert_settings e (foldl _process_alert e alerts)
  ∧ pending_low_stock (foldl _process_alert e alerts) = pending_low_stock e
  ∧ pending_expiration (foldl _process_alert e alerts) = pending_expiration e
  ∧ last_alert_time (foldl _process_alert e alerts) = last_alert_time e.
Proof.
  revert e. induction alerts as [|a alerts IH]; intros e; simpl; [by repeat split|].
  destruct (IH (_process_alert e a)) as ((? & ? & ? & ?) & ? & ? & ?).
  by repeat split.
Qed.

Lemma evaluate_unfold e inventory freshness_state timestamp e' alerts :
  evaluate e inventory freshness_state timestamp = Some (e', alerts) ↔
  ∃ e1 low_stock_alerts e2 expiration_alerts,
    _evaluate_low_stock e inventory timestamp = Some (e1, low_stock_alerts)
    ∧ _evaluate_expiration e1 freshness_state timestamp = Some (e2, expiration_alerts)
    ∧ alerts = low_stock_alerts ++ expiration_alerts
    ∧ e' = foldl _process_alert e2 alerts.
Proof.
  unfold evaluate.
  destruct (_evaluate_low_stock e inventory timestamp) as [[e1 low]|]; simpl.
  - destruct (_evaluate_expiration e1 freshness_state timestamp) as [[e2 exp]|] eqn:He;
      simpl.
    + split.
      * intros [= <- <-]. by exists e1, low, e2, exp.
      * intros (? & ? & ? & ? & [= <- <-] & Hx & -> & ->).
        rewrite He in Hx. by injection Hx as <- <-.
    + split; [done|]. intros (? & ? & ? & ? & [= <- <-] & Hx & _). congruence.
  - split; [done|]. by intros (? & ? & ? & ? & ? & _).
Qed.

(** What the low-stock loop and the expiration loop keep. *)
Lemma evaluate_low_stock_keeps e inventory timestamp e' alerts :
  _evaluate_low_stock e inventory timestamp = Some (e', alerts) →
  same_alert_settings e e'
  ∧ pending_expiration e' = pending_expiration e
  ∧ (deques_bounded (low_stock_confirm_intervals e + 1) (pending_low_stock e) →
     deques_bounded (low_stock_confirm_intervals e + 1) (pending_low_stock e')).
Proof.
  unfold _evaluate_low_stock.
  generalize (map_to_list (low_stock_thresholds e)). intros items Hloop.
  apply (for_items_invariant (low_stock_step inventory timestamp)
           (λ x, same_alert_settings e x
                 ∧ pending_expiration x = pending_expiration e
                 ∧ (deques_bounded (low_stock_confirm_intervals e + 1)
                      (pending_low_stock e) →
                    deques_bounded (low_stock_confirm_intervals e + 1)
                      (pending_low_stock x)))
           items) with (e := e) (alerts := alerts); [|by repeat split|done].
  intros x [p threshold] x' alert _ (Hset & Hpe & Hb) Hstep.
  destruct (low_stock_step_spec _ _ _ _ _ _ _ Hstep) as (Hset' & Hpe' & _ & _ & Hb' & _).
  split; [by eapply same_alert_settings_trans|]. split; [congruence|].
  intros Hbound. destruct Hset as (_ & Hlc & _). rewrite Hlc in *. auto.
Qed.

Lemma evaluate_expiration_keeps e freshness_state timestamp e' alerts :
  _evaluate_expiration e freshness_state timestamp = Some (e', alerts) →
  same_alert_settings e e'
  ∧ pending_low_stock e' = pending_low_stock e
  ∧ (deques_bounded (expiration_confirm_intervals e + 1) (pending_expiration e) →
     deques_bounded (expiration_confirm_intervals e + 1) (pending_expiration e')).
Proof.
  unfold _evaluate_expiration.
  generalize (map_to_list freshness_state). intros items Hloop.
  apply (for_items_invariant (expiration_step timestamp)
           (λ x, same_alert_settings e x
                 ∧ pending_low_stock x = pending_low_stock e
                 ∧ (deques_bounded (expiration_confirm_intervals e + 1)
                      (pending_expiration e) →
                    deques_bounded (expiration_confirm_intervals e + 1)
                      (pending_expiration x)))
           items) with (e := e) (alerts := alerts); [|by repeat split|done].
  intros x [p freshness_data] x' alert _ (Hset & Hpl & Hb) Hstep.
  destruct (expiration_step_spec _ _ _ _ _ _ Hstep) as (Hset' & Hpl' & _ & _ & Hb' & _).
  split; [by eapply same_alert_settings_trans|]. split; [congruence|].
  intros Hbound. destruct Hset as (_ & _ & Hec & _). rewrite Hec in *. auto.
Qed.

Lemma evaluate_keeps e inventory freshness_state timestamp e' alerts :
  evaluate e inventory freshness_state timestamp = Some (e', alerts) →
  same_alert_settings e e'
  ∧ (deques_bounded (low_stock_confirm_intervals e + 1) (pending_low_stock e) →
     deques_bounded (low_stock_confirm_intervals e + 1) (pending_low_stock e'))
  ∧ (deques_bounded (expiration_confirm_intervals e + 1) (pending_expiration e) →
     deques_bounded (expiration_confirm_intervals e + 1) (pending_expiration e')).
Proof.
  intros (e1 & low & e2 & exp & Hlow & Hexp & -> & ->)%evaluate_unfold.
  destruct (evaluate_low_stock_keeps _ _ _ _ _ Hlow) as (Hs1 & Hpe1 & Hb1).
  destruct (evaluate_expiration_keeps _ _ _ _ _ Hexp) as (Hs2 & Hpl2 & Hb2).
  destruct (process_alerts_state e2 (low ++ exp)) as (Hs3 & -> & -> & _).
  split; [eauto using same_alert_settings_trans|].
  rewrite Hpl2. split; [done|].
  intros Hb. destruct Hs1 as (_ & _ & Hec & _). rewrite Hec in *.
  apply Hb2. by rewrite Hpe1.
Qed.

Lemma alert_run_cons e inventory freshness_state timestamp rest e' ticks :
  run e ((inventory, freshness_state, timestamp) :: rest) = Some (e', ticks) ↔
  ∃ e1 alerts later,
    evaluate e inventory freshness_state timestamp = Some (e1, alerts)
    ∧ run e1 rest = Some (e', later)
    ∧ ticks = alerts :: later.
Proof.
  simpl.
  destruct (evaluate e inventory freshness_state timestamp) as [[e1 alerts]|]; simpl.
  - destruct (run e1 rest) as [[e2 later]|] eqn:Hrest; simpl.
    + split.
      * intros [= <- <-]. by exists e1, alerts, later.
      * intros (? & ? & ? & [= <- <-] & Hr & ->).
        rewrite Hrest in Hr. by injection Hr as <- <-.
    + split; [done|]. intros (? & ? & ? & [= <- <-] & Hr & _). congruence.
  - split; [done|]. by intros (? & ? & ? & ? & _).
Qed.

(** The deques of a run keep their bounds. *)
Lemma alert_run_bounded e ticks e' out :
  run e ticks = Some (e', out) →
  deques_bounded (low_stock_confirm_intervals e + 1) (pending_low_stock e) →
  deques_bounded (expiration_confirm_intervals e + 1) (pending_expiration e) →
  deques_bounded (low_stock_confirm_intervals e + 1) (pending_low_stock e')
  ∧ deques_bounded (expiration_confirm_intervals e + 1) (pending_expiration e').
Proof.
  revert e out. induction ticks as [|[[inventory freshness_state] timestamp] rest IH];
    intros e out.
  - simpl. by intros [= <- <-].
  - intros (e1 & alerts & later & Hev & Hrest & _)%alert_run_cons Hl He.
    destruct (evaluate_keeps _ _ _ _ _ _ Hev) as ((_ & Hlc & Hec & _) & Hbl & Hbe).
    rewrite Hlc, Hec in *. apply (IH e1 later Hrest); auto.
Qed.

(** *** Cooldown spacing of the alerts *)

Lemma low_stock_step_cooldown inventory timestamp e item e' alert trace :
  0 ≤ alert_cooldown_seconds e →
  cooldown_invariant alert_key timestamp_utc (alert_cooldown_seconds e)
    (last_alert_time e) trace →
  low_stock_step inventory timestamp e item = Some (e', alert) →
  cooldown_invariant alert_key timestamp_utc (alert_cooldown_seconds e)
    (last_alert_time e') (trace ++ option_list alert).
Proof.
  intros Hcd Hinv Hstep. destruct item as [p threshold].
  destruct (low_stock_step_spec _ _ _ _ _ _ _ Hstep) as (_ & _ & _ & _ & _ & Ha).
  destruct alert as [a|]; simpl.
  - destruct Ha as (-> & _ & -> & Hallow).
    by apply (cooldown_invariant_emit alert_key timestamp_utc).
  - by rewrite Ha, app_nil_r.
Qed.

Lemma expiration_step_cooldown timestamp e item e' alert trace :
  0 ≤ alert_cooldown_seconds e →
  cooldown_invariant alert_key timestamp_utc (alert_cooldown_seconds e)
    (last_alert_time e) trace →
  expiration_step timestamp e item = Some (e', alert) →
  cooldown_invariant alert_key timestamp_utc (alert_cooldown_seconds e)
    (last_alert_time e') (trace ++ option_list alert).
Proof.
  intros Hcd Hinv Hstep. destruct item as [p freshness_data].
  destruct (expiration_step_spec _ _ _ _ _ _ Hstep) as (_ & _ & _ & _ & _ & Ha).
  destruct alert as [a|]; simpl.
  - destruct Ha as (Hty & Hp & Hts & _ & -> & Hallow).
    assert ((EXPIRATION, p) = alert_key a) as -> by (unfold alert_key; congruence).
    rewrite <- Hts.
    apply (cooldown_invariant_emit alert_key timestamp_utc); [done | done |].
    unfold alert_key. rewrite Hty, Hp, Hts. exact Hallow.
  - by rewrite Ha, app_nil_r.
Qed.

Lemma evaluate_cooldown e inventory freshness_state timestamp e' alerts trace :
  0 ≤ alert_cooldown_seconds e →
  cooldown_invariant alert_key timestamp_utc (alert_cooldown_seconds e)
    (last_alert_time e) trace →
  evaluate e inventory freshness_state timestamp = Some (e', alerts) →
  cooldown_invariant alert_key timestamp_utc (alert_cooldown_seconds e)
    (last_alert_time e') (trace ++ alerts).
Proof.
  intros Hcd Hinv (e1 & low & e2 & exp & Hlow & Hexp & -> & ->)%evaluate_unfold.
  destruct (process_alerts_state e2 (low ++ exp)) as (_ & _ & _ & ->).
  rewrite app_assoc.
  set (T := λ x (tr : list Alert),
         alert_cooldown_seconds x = alert_cooldown_seconds e
         ∧ cooldown_invariant alert_key timestamp_utc (alert_cooldown_seconds e)
             (last_alert_time x) tr).
  assert (T e1 (trace ++ low)) as HT1.
  { unfold _evaluate_low_stock in Hlow.
    apply (for_items_trace (low_stock_step inventory timestamp) T
             (map_to_list (low_stock_thresholds e)) ) with (e := e); [|done|done].
    intros x item x' alert tr [Hsame Hx] Hstep. split.
    - destruct item as [p threshold].
      destruct (low_stock_step_spec _ _ _ _ _ _ _ Hstep) as ((_ & _ & _ & <-) & _).
      done.
    - rewrite <- Hsame in *. by eapply low_stock_step_cooldown. }
  assert (T e2 ((trace ++ low) ++ exp)) as [_ HT2]; [|done].
  unfold _evaluate_expiration in Hexp.
  apply (for_items_trace (expiration_step timestamp) T
           (map_to_list freshness_state)) with (e := e1); [|done|done].
  intros x item x' alert tr [Hsame Hx] Hstep. split.
  - destruct item as [p freshness_data].
    destruct (expiration_step_spec _ _ _ _ _ _ Hstep) as ((_ & _ & _ & <-) & _).
    done.
  - rewrite <- Hsame in *. by eapply expiration_step_cooldown.
Qed.

Lemma alert_run_cooldown e ticks e' out trace :
  0 ≤ alert_cooldown_seconds e →
  cooldown_invariant alert_key timestamp_utc (alert_cooldown_seconds e)
    (last_alert_time e) trace →
  run e ticks = Some (e', out) →
  cooldown_invariant alert_key timestamp_utc (alert_cooldown_seconds e)
    (last_alert_time e') (trace ++ concat out).
Proof.
  revert e out trace.
  induction ticks as [|[[inventory freshness_state] timestamp] rest IH];
    intros e out trace Hcd Hinv.
  - simpl. intros [= <- <-]. simpl. by rewrite app_nil_r.
  - intros (e1 & alerts & later & Hev & Hrest & ->)%alert_run_cons.
    pose proof (evaluate_cooldown _ _ _ _ _ _ _ Hcd Hinv Hev) as H1.
    destruct (evaluate_keeps _ _ _ _ _ _ Hev) as ((_ & _ & _ & Hsame) & _).
    simpl. rewrite app_assoc. rewrite Hsame in *. by apply (IH e1).
Qed.

End alert_loops.

(** ** Contradictions, severities, bounds and cooldowns *)

Section alert_properties.
Import Alerts.

Implicit Types (e : AlertEngine) (p : string) (a : Alert).

(** A count above the threshold empties the low-stock deque. *)
Lemma above_threshold_clears e inventory freshness_state timestamp e' alerts p threshold :
  evaluate e inventory freshness_state timestamp = Some (e', alerts) →
  low_stock_thresholds e !! p = Some threshold →
  threshold < dict_get inventory p 0 →
  default [] (pending_low_stock e' !! p) = [].
Proof.
  intros (e1 & low & e2 & exp & Hlow & Hexp & -> & ->)%evaluate_unfold Hthr Habove.
  destruct (process_alerts_state e2 (low ++ exp)) as (_ & -> & _).
  destruct (evaluate_expiration_keeps _ _ _ _ _ Hexp) as (_ & -> & _).
  unfold _evaluate_low_stock in Hlow.
  apply (for_items_at (low_stock_step inventory timestamp) fst
           (λ x, default [] (pending_low_stock x !! p) = [])
           (p, threshold) (map_to_list (low_stock_thresholds e)))
    with (e := e) (alerts := low).
  - apply NoDup_fst_map_to_list.
  - by apply elem_of_map_to_list.
  - intros x [x' alert] Hstep.
    by destruct (low_stock_step_spec _ _ _ _ _ _ _ Hstep)
      as (_ & _ & _ & Hclear & _); destruct (Hclear Habove).
  - intros x [p' threshold'] [x' alert] Hne HR Hstep. simpl in *.
    destruct (low_stock_step_spec _ _ _ _ _ _ _ Hstep) as (_ & _ & Hother & _).
    rewrite Hother; [done | congruence].
  - exact Hlow.
Qed.

(** A freshness record that is not expired empties the expiration deque. *)
Lemma not_expired_clears e inventory freshness_state timestamp e' alerts p freshness_data :
  evaluate e inventory freshness_state timestamp = Some (e', alerts) →
  freshness_state !! p = Some freshness_data →
  default false (is_expired freshness_data) = false →
  default [] (pending_expiration e' !! p) = [].
Proof.
  intros (e1 & low & e2 & exp & Hlow & Hexp & -> & ->)%evaluate_unfold Hfd Hfresh.
  destruct (process_alerts_state e2 (low ++ exp)) as (_ & _ & -> & _).
  unfold _evaluate_expiration in Hexp.
  apply (for_items_at (expiration_step timestamp) fst
           (λ x, default [] (pending_expiration x !! p) = [])
           (p, freshness_data) (map_to_list freshness_state))
    with (e := e1) (alerts := exp).
  - apply NoDup_fst_map_to_list.
  - by apply elem_of_map_to_list.
  - intros x [x' alert] Hstep.
    by destruct (expiration_step_spec _ _ _ _ _ _ Hstep)
      as (_ & _ & _ & Hclear & _); destruct (Hclear Hfresh).
  - intros x [p' fd'] [x' alert] Hne HR Hstep. simpl in *.
    destruct (expiration_step_spec _ _ _ _ _ _ Hstep) as (_ & _ & Hother & _).
    rewrite Hother; [done | congruence].
  - exact Hexp.
Qed.



Lemma stockout_engine_reached :
  fresh_alert_run stockout_thresholds 2 2 3600 (take 1 stockout_ticks)
  = Some (stockout_engine, [ [] ]).
Proof. vm_compute. reflexivity. Qed.



End alert_properties.

(** ** Both engines *)

Section both_engines.

Lemma deques_bounded_empty {A : Type} (bound : Z) :
  deques_bounded bound (∅ : gmap string (list (Z * A))).
Proof. intros p q Hq. by rewrite lookup_empty in Hq. Qed.

Lemma fresh_engine_within_bound c thr cd si e0 :
  SalesAttribution.__init__ c thr cd si = Some e0 →
  history_within_bound e0
  ∧ SalesAttribution.confirm_intervals e0 = c
  ∧ SalesAttribution.snapshot_interval e0 = si.
Proof.
  unfold SalesAttribution.__init__. destruct (c + 1 <? 0); [done|].
  intros [= <-]. split; [|done]. split; simpl; [lia | by left].
Qed.

(** Appending to a full deque drops its oldest element. *)
Lemma deque_append_full {A : Type} (maxlen : Z) (oldest : A) q x :
  Z.of_nat (length (oldest :: q)) = maxlen →
  deque_append (Z.to_nat maxlen) (oldest :: q) x = q ++ [x].
Proof.
  intros <-. rewrite Nat2Z.id. unfold deque_append.
  cbn [length Nat.eqb]. rewrite length_app. cbn [length app].
  assert ((S (length q) <? S (length q) + 1)%nat = true) as ->
    by (apply Nat.ltb_lt; lia).
  done.
Qed.

Section for_items_split.
Context {I : Type}
  (body : Alerts.AlertEngine → I → option (Alerts.AlertEngine * option Alerts.Alert)).

(** The loop seen from one of its items: the step of that item is taken in
    a state that the earlier steps have not disturbed, its alert is one of
    the alerts of the loop, and the later steps do not disturb what it
    establishes. *)
Lemma for_items_split (key : I → string) (Pre Post : Alerts.AlertEngine → Prop) item items :
  NoDup (key <$> items) → item ∈ items →
  (∀ e other r, key other ≠ key item → Pre e → body e other = Some r → Pre r.1) →
  (∀ e other r, key other ≠ key item → Post e → body e other = Some r → Post r.1) →
  ∀ e e' alerts,
    Pre e → Alerts.for_items body e items = Some (e', alerts) →
    ∃ e_in e_out alert,
      Pre e_in
      ∧ body e_in item = Some (e_out, alert)
      ∧ (∀ a, alert = Some a → a ∈ alerts)
      ∧ (Post e_out → Post e').
Proof.
  intros Hnd Hin Hpre Hpost.
  induction items as [|first rest IH]; [by apply elem_of_nil in Hin|].
  rewrite fmap_cons in Hnd. apply NoDup_cons in Hnd as [Hfirst Hnd].
  intros e e' alerts He (e1 & alert & later & Hb & Hrest & ->)%for_items_cons.
  apply elem_of_cons in Hin as [<- | Hin].
  - exists e, e1, alert. split_and!; [done | done | |].
    + intros a ->. apply elem_of_app. left. simpl. left.
    + intros HP. eapply (for_items_invariant body Post rest); [|exact HP|exact Hrest].
      intros e2 other e3 alert' Hother HP2 Hs.
      apply (Hpost e2 other (e3, alert')); [|done|done].
      intros Heq. apply Hfirst. rewrite <- Heq. apply list_elem_of_fmap. by exists other.
  - destruct (IH Hnd Hin e1 e' later) as (e_in & e_out & alert' & HPre & Hstep & Hal & HPost);
      [|exact Hrest|].
    + apply (Hpre e first (e1, alert)); [|done|done].
      intros Heq. apply Hfirst. rewrite Heq. apply list_elem_of_fmap. by exists item.
    + exists e_in, e_out, alert'. split_and!; [done | done | | done].
      intros a Ha. apply elem_of_app. right. by apply Hal.
Qed.

End for_items_split.

(** A step of the low-stock loop that finds the product at or below its
    threshold and returns no alert leaves the observation appended. *)
Lemma low_stock_step_kept inventory timestamp e p threshold e' q :
  Alerts.low_stock_step inventory timestamp e (p, threshold) = Some (e', None) →
  dict_get inventory p 0 ≤ threshold →
  Alerts.pending_low_stock e !! p = Some q →
  Alerts.pending_low_stock e' !! p
  = Some (deque_append (Z.to_nat (Alerts.low_stock_confirm_intervals e + 1)) q
            (timestamp, dict_get inventory p 0)).
Proof.
  intros Hstep Hlow Hq. revert Hstep. unfold Alerts.low_stock_step. cbv zeta.
  destruct (_ <=? _) eqn:Hle; [|lia].
  unfold Alerts.pending_deque. rewrite Hq. simpl.
  destruct (Alerts._validate_low_stock _ p threshold).
  - pose proof (alert_check_cooldown_state
                  (Alerts.set_pending_low_stock e
                     (<[p := deque_append
                               (Z.to_nat (Alerts.low_stock_confirm_intervals e + 1)) q
                               (timestamp, dict_get inventory p 0)]>
                        (Alerts.pending_low_stock e)))
                  Alerts.LOW_STOCK p timestamp) as Hstate.
    destruct (Alerts._check_cooldown _ _ _ _) as [[] e2]; [done|].
    simpl in Hstate. destruct Hstate as (_ & Hpl & _).
    intros [= <-]. rewrite Hpl. simpl. by rewrite lookup_insert_eq.
  - intros [= <-]. simpl. by rewrite lookup_insert_eq.
Qed.

Lemma expiration_step_kept timestamp e p freshness_data e' q :
  Alerts.expiration_step timestamp e (p, freshness_data) = Some (e', None) →
  default false (Alerts.is_expired freshness_data) = true →
  Alerts.pending_expiration e !! p = Some q →
  Alerts.pending_expiration e' !! p
  = Some (deque_append (Z.to_nat (Alerts.expiration_confirm_intervals e + 1)) q
            (timestamp, default 0%Q (Alerts.age_days freshness_data))).
Proof.
  intros Hstep Hexp Hq. revert Hstep. unfold Alerts.expiration_step. cbv zeta.
  rewrite Hexp. unfold Alerts.pending_deque. rewrite Hq. simpl.
  destruct (Alerts._validate_expiration _ p).
  - pose proof (alert_check_cooldown_state
                  (Alerts.set_pending_expiration e
                     (<[p := deque_append
                               (Z.to_nat (Alerts.expiration_confirm_intervals e + 1)) q
                               (timestamp, default 0%Q (Alerts.age_days freshness_data))]>
                        (Alerts.pending_expiration e)))
                  Alerts.EXPIRATION p timestamp) as Hstate.
    destruct (Alerts._check_cooldown _ _ _ _) as [[] e2]; [done|].
    simpl in Hstate. destruct Hstate as (_ & _ & Hpe & _).
    intros [= <-]. rewrite Hpe. simpl. by rewrite lookup_insert_eq.
  - intros [= <-]. simpl. by rewrite lookup_insert_eq.
Qed.

(** An evaluation that finds a monitored product at or below its threshold
    with a full deque, and returns no low-stock alert for it, has dropped
    the oldest observation of the deque and appended the new one. *)
Lemma low_stock_deque_overflow e inventory freshness_state timestamp e' alerts
    p threshold oldest q :
  Alerts.evaluate e inventory freshness_state timestamp = Some (e', alerts) →
  Alerts.low_stock_thresholds e !! p = Some threshold →
  dict_get inventory p 0 ≤ threshold →
  Alerts.pending_low_stock e !! p = Some (oldest :: q) →
  Z.of_nat (length (oldest :: q)) = Alerts.low_stock_confirm_intervals e + 1 →
  (∀ a, a ∈ alerts → alert_key a ≠ (Alerts.LOW_STOCK, p)) →
  Alerts.pending_low_stock e' !! p = Some (q ++ [(timestamp, dict_get inventory p 0)]).
Proof.
  intros (e1 & low & e2 & exp & Hlow & Hexp & -> & ->)%evaluate_unfold
    Hthr Hle Hq Hfull Hnone.
  destruct (process_alerts_state e2 (low ++ exp)) as (_ & -> & _).
  destruct (evaluate_expiration_keeps _ _ _ _ _ Hexp) as (_ & -> & _).
  unfold Alerts._evaluate_low_stock in Hlow.
  destruct (for_items_split (Alerts.low_stock_step inventory timestamp) fst
              (λ x, Alerts.pending_low_stock x !! p = Some (oldest :: q)
                    ∧ Alerts.low_stock_confirm_intervals x
                      = Alerts.low_stock_confirm_intervals e)
              (λ x, Alerts.pending_low_stock x !! p
                    = Some (q ++ [(timestamp, dict_get inventory p 0)]))
              (p, threshold) (map_to_list (Alerts.low_stock_thresholds e)))
    with (e := e) (e' := e1) (alerts := low)
    as (e_in & e_out & alert & [Hq_in Hlc] & Hstep & Hal & Hpost).
  - apply NoDup_fst_map_to_list.
  - by apply elem_of_map_to_list.
  - intros x [p' threshold'] [x' alert] Hne [Hx Hlc] Hstep. simpl in *.
    destruct (low_stock_step_spec _ _ _ _ _ _ _ Hstep) as ((_ & <- & _) & _ & Hother & _).
    split; [|done]. rewrite Hother; [done | congruence].
  - intros x [p' threshold'] [x' alert] Hne Hx Hstep. simpl in *.
    destruct (low_stock_step_spec _ _ _ _ _ _ _ Hstep) as (_ & _ & Hother & _).
    rewrite Hother; [done | congruence].
  - done.
  - exact Hlow.
  - apply Hpost. destruct alert as [a|].
    + exfalso. apply (Hnone a).
      * apply elem_of_app. left. by apply Hal.
      * by destruct (low_stock_step_spec _ _ _ _ _ _ _ Hstep)
          as (_ & _ & _ & _ & _ & -> & _).
    + rewrite (low_stock_step_kept _ _ _ _ _ _ _ Hstep Hle Hq_in).
      rewrite Hlc. by rewrite deque_append_full.
Qed.

Lemma expiration_deque_overflow e inventory freshness_state timestamp e' alerts
    p freshness_data oldest q :
  Alerts.evaluate e inventory freshness_state timestamp = Some (e', alerts) →
  freshness_state !! p = Some freshness_data →
  default false (Alerts.is_expired freshness_data) = true →
  Alerts.pending_expiration e !! p = Some (oldest :: q) →
  Z.of_nat (length (oldest :: q)) = Alerts.expiration_confirm_intervals e + 1 →
  (∀ a, a ∈ alerts → alert_key a ≠ (Alerts.EXPIRATION, p)) →
  Alerts.pending_expiration e' !! p
  = Some (q ++ [(timestamp, default 0%Q (Alerts.age_days freshness_data))]).
Proof.
  intros (e1 & low & e2 & exp & Hlow & Hexp & -> & ->)%evaluate_unfold
    Hfd Hexpired Hq Hfull Hnone.
  destruct (process_alerts_state e2 (low ++ exp)) as (_ & _ & -> & _).
  destruct (evaluate_low_stock_keeps _ _ _ _ _ Hlow) as ((_ & _ & Hec1 & _) & Hpe1 & _).
  rewrite <- Hpe1 in Hq. rewrite Hec1 in Hfull.
  unfold Alerts._evaluate_expiration in Hexp.
  destruct (for_items_split (Alerts.expiration_step timestamp) fst
              (λ x, Alerts.pending_expiration x !! p = Some (oldest :: q)
                    ∧ Alerts.expiration_confirm_intervals x
                      = Alerts.expiration_confirm_intervals e1)
              (λ x, Alerts.pending_expiration x !! p
                    = Some (q ++ [(timestamp,
                                   default 0%Q (Alerts.age_days freshness_data))]))
              (p, freshness_data) (map_to_list freshness_state))
    with (e := e1) (e' := e2) (alerts := exp)
    as (e_in & e_out & alert & [Hq_in Hec] & Hstep & Hal & Hpost).
  - apply NoDup_fst_map_to_list.
  - by apply elem_of_map_to_list.
  - intros x [p' fd'] [x' alert] Hne [Hx Hec] Hstep. simpl in *.
    destruct (expiration_step_spec _ _ _ _ _ _ Hstep) as ((_ & _ & <- & _) & _ & Hother & _).
    split; [|done]. rewrite Hother; [done | congruence].
  - intros x [p' fd'] [x' alert] Hne Hx Hstep. simpl in *.
    destruct (expiration_step_spec _ _ _ _ _ _ Hstep) as (_ & _ & Hother & _).
    rewrite Hother; [done | congruence].
  - done.
  - exact Hexp.
  - apply Hpost. destruct alert as [a|].
    + exfalso. apply (Hnone a).
      * apply elem_of_app. right. by apply Hal.
      * destruct (expiration_step_spec _ _ _ _ _ _ Hstep)
          as (_ & _ & _ & _ & _ & Hty & Hp & _).
        unfold alert_key. by rewrite Hty, Hp.
    + rewrite (expiration_step_kept _ _ _ _ _ _ Hstep Hexpired Hq_in).
      rewrite Hec. by rewrite deque_append_full.
Qed.

Lemma sold_out_engine_reached :
  fresh_alert_run {["mango" := 3]} 1 1 3600 (take 3 sold_out_ticks)
  = Some (sold_out_engine, [ [sold_out_alert 0; expired_alert 0]; []; [] ]).
Proof. vm_compute. reflexivity. Qed.

Lemma sold_out_fourth_tick :
  snd <$> Alerts.evaluate sold_out_engine {["mango" := 0]} {["mango" := aged_record]} 15
  = Some [].
Proof. vm_compute. reflexivity. Qed.

Lemma slow_sale_pending :
  (e0 ← SalesAttribution.__init__ 1 1 60 5;
   Some (SalesAttribution.pending_decreases (SalesAttribution.run e0 slow_sale).1
           !! "mango"))
  = Some (Some [(10, -1); (15, -1); (20, -1)]).
Proof. vm_compute. reflexivity. Qed.

(** C4, as the code has it.  After every tick of the alert engine each
    low-stock deque and each expiration deque holds at most
    [confirm_intervals + 1] observations.  When an evaluation appends to a
    deque that is full, which it does for a product whose condition holds
    again while no alert is returned for it, the oldest observation is
    dropped.  The pending list of the sales engine is pruned by age
    instead: after every tick it is not empty and each of its entries is
    younger than [snapshot_interval * (confirm_intervals + 2)]. *)
Theorem pending_queues_bounded :
  (∀ thresholds lc ec cd ticks e' out,
     fresh_alert_run thresholds lc ec cd ticks = Some (e', out) →
     deques_bounded (lc + 1) (Alerts.pending_low_stock e')
     ∧ deques_bounded (ec + 1) (Alerts.pending_expiration e'))
  ∧ (∀ e inventory freshness_state timestamp e' alerts p threshold oldest q,
       Alerts.evaluate e inventory freshness_state timestamp = Some (e', alerts) →
       Alerts.low_stock_thresholds e !! p = Some threshold →
       dict_get inventory p 0 ≤ threshold →
       Alerts.pending_low_stock e !! p = Some (oldest :: q) →
       Z.of_nat (length (oldest :: q)) = Alerts.low_stock_confirm_intervals e + 1 →
       (∀ a, a ∈ alerts → alert_key a ≠ (Alerts.LOW_STOCK, p)) →
       Alerts.pending_low_stock e' !! p
       = Some (q ++ [(timestamp, dict_get inventory p 0)]))
  ∧ (∀ e inventory freshness_state timestamp e' alerts p freshness_data oldest q,
       Alerts.evaluate e inventory freshness_state timestamp = Some (e', alerts) →
       freshness_state !! p = Some freshness_data →
       default false (Alerts.is_expired freshness_data) = true →
       Alerts.pending_expiration e !! p = Some (oldest :: q) →
       Z.of_nat (length (oldest :: q)) = Alerts.expiration_confirm_intervals e + 1 →
       (∀ a, a ∈ alerts → alert_key a ≠ (Alerts.EXPIRATION, p)) →
       Alerts.pending_expiration e' !! p
       = Some (q ++ [(timestamp, default 0%Q (Alerts.age_days freshness_data))]))
  ∧ (∀ c thr cd si e0 snapshots inventory timestamp p entries,
       SalesAttribution.__init__ c thr cd si = Some e0 →
       SalesAttribution.pending_decreases
         (SalesAttribution.run e0 (snapshots ++ [(inventory, timestamp)])).1 !! p
       = Some entries →
       entries ≠ [] ∧ Forall (λ x, timestamp - x.1 < si * (c + 2)) entries).
Proof.
  split; [|split; [|split]].
  - intros thresholds lc ec cd ticks e' out Hrun.
    rewrite fresh_alert_run_unfold in Hrun.
    apply (alert_run_bounded _ _ _ _ Hrun); apply deques_bounded_empty.
  - intros e inventory freshness_state timestamp e' alerts p threshold oldest q.
    apply low_stock_deque_overflow.
  - intros e inventory freshness_state timestamp e' alerts p freshness_data oldest q.
    apply expiration_deque_overflow.
  - intros c thr cd si e0 snapshots inventory timestamp p entries Hinit Hp.
    destruct (fresh_engine_within_bound _ _ _ _ _ Hinit) as (Hb & <- & <-).
    by eapply run_pending_young.
Qed.

Lemma pending_queues_bounded_witness :
  (deques_bounded (1 + 1) (Alerts.pending_low_stock sold_out_engine)
   ∧ deques_bounded (1 + 1) (Alerts.pending_expiration sold_out_engine))
  ∧ (∃ e',
       Alerts.evaluate sold_out_engine {["mango" := 0]} {["mango" := aged_record]} 15
       = Some (e', [])
       ∧ Alerts.pending_low_stock e' !! "mango"
         = Some ([(10, 0)] ++ [(15, dict_get {["mango" := 0]} "mango" 0)])
       ∧ Alerts.pending_expiration e' !! "mango"
         = Some ([(10, (151 # 25)%Q)]
                 ++ [(15, default 0%Q (Alerts.age_days aged_record))]))
  ∧ ([(10, -1); (15, -1); (20, -1)] ≠ []
     ∧ Forall (λ x : Z * Z, 20 - x.1 < 5 * (1 + 2)) [(10, -1); (15, -1); (20, -1)]).
Proof.
  destruct pending_queues_bounded as (Halerts & Hlow & Hexp & Hsales).
  split; [|split].
  - apply (Halerts {["mango" := 3]} 1 1 3600 (take 3 sold_out_ticks) sold_out_engine
             [ [sold_out_alert 0; expired_alert 0]; []; [] ]).
    apply sold_out_engine_reached.
  - pose proof sold_out_fourth_tick as Htick.
    destruct (Alerts.evaluate sold_out_engine {["mango" := 0]}
                {["mango" := aged_record]} 15) as [[e' alerts]|] eqn:Hev;
      [|discriminate Htick].
    injection Htick as ->. exists e'. split; [reflexivity|]. split.
    + apply (Hlow sold_out_engine {["mango" := 0]} {["mango" := aged_record]} 15 e' []
               "mango" 3 (5, 0) [(10, 0)] Hev);
        [reflexivity | vm_compute; discriminate | reflexivity | reflexivity |].
      intros a Ha. destruct (proj1 (elem_of_nil a) Ha).
    + apply (Hexp sold_out_engine {["mango" := 0]} {["mango" := aged_record]} 15 e' []
               "mango" aged_record (5, (151 # 25)%Q) [(10, (151 # 25)%Q)] Hev);
        [reflexivity | reflexivity | reflexivity | reflexivity |].
      intros a Ha. destruct (proj1 (elem_of_nil a) Ha).
  - apply (Hsales 1 1 60 5
             {| SalesAttribution.confirm_intervals := 1;
                SalesAttribution.min_delta_threshold := 1;
                SalesAttribution.cooldown_seconds := 60;
                SalesAttribution.snapshot_interval := 5;
                SalesAttribution.snapshot_history := [];
                SalesAttribution.last_sale_time := ∅;
                SalesAttribution.pending_decreases := ∅;
                SalesAttribution.total_sales_detected := 0;
                SalesAttribution.sales_by_product := ∅;
                SalesAttribution.false_positives_filtered := 0 |}
             (take 4 slow_sale) {["mango" := 6]} 20 "mango").
    + reflexivity.
    + vm_compute. reflexivity.
Defined.

(** C4, as the specification words it, fails for the sales engine: with
    [confirm_intervals = 1] and a cooldown of 60, a product that loses one
    item per tick has three pending decreases after the fifth snapshot,
    more than [confirm_intervals + 1 = 2]. *)
Lemma sales_pending_list_counterexample :
  ¬ (∀ c thr cd si snapshots e0 p entries,
       SalesAttribution.__init__ c thr cd si = Some e0 →
       SalesAttribution.pending_decreases (SalesAttribution.run e0 snapshots).1 !! p
       = Some entries →
       Z.of_nat (length entries) ≤ c + 1).
Proof.
  intros Hclaim.
  specialize (Hclaim 1 1 60 5 slow_sale
    {| SalesAttribution.confirm_intervals := 1;
       SalesAttribution.min_delta_threshold := 1;
       SalesAttribution.cooldown_seconds := 60;
       SalesAttribution.snapshot_interval := 5;
       SalesAttribution.snapshot_history := [];
       SalesAttribution.last_sale_time := ∅;
       SalesAttribution.pending_decreases := ∅;
       SalesAttribution.total_sales_detected := 0;
       SalesAttribution.sales_by_product := ∅;
       SalesAttribution.false_positives_filtered := 0 |}
    "mango" [(10, -1); (15, -1); (20, -1)] eq_refl).
  assert (3 ≤ 1 + 1) as Habsurd; [|lia].
  apply Hclaim. vm_compute. reflexivity.
Qed.

(** C5, as the code has it.  With a cooldown that is not negative, any two
    attributed sales of the same product in a run of the sales engine, and
    any two alerts of the same type and product in a run of the alert
    engine, are at least one cooldown apart; in particular no tick emits
    two of them.  The unattributed ["Unknown"] sale is not covered. *)
Theorem cooldown_spacing :
  (∀ c thr cd si snapshots ticks,
     0 ≤ cd →
     fresh_sales_run c thr cd si snapshots = Some ticks →
     cooldown_spaced SalesAttribution.product_name SalesAttribution.timestamp_utc cd
       (attributed_sales ticks))
  ∧ (∀ thresholds lc ec cd ticks e' out,
       0 ≤ cd →
       fresh_alert_run thresholds lc ec cd ticks = Some (e', out) →
       cooldown_spaced alert_key Alerts.timestamp_utc cd (concat out)).
Proof.
  split.
  - intros c thr cd si snapshots ticks Hcd Hrun. by eapply attributed_sales_spaced.
  - intros thresholds lc ec cd ticks e' out Hcd Hrun.
    rewrite fresh_alert_run_unfold in Hrun.
    pose proof (λ H1 H2, alert_run_cooldown _ _ _ _ [] H1 H2 Hrun) as Hspaced.
    cbn [Alerts.alert_cooldown_seconds Alerts.last_alert_time] in Hspaced.
    destruct (Hspaced Hcd (cooldown_invariant_nil alert_key Alerts.timestamp_utc _ _))
      as [Hs _].
    exact Hs.
Qed.

(** On [slow_sale] with a cooldown of 10 the decrease of the mangos is
    confirmed on every tick from the second on, and a sale is attributed
    at 5 and at 15 only. *)
Lemma slow_sale_two_sales :
  fresh_sales_run 1 1 10 5 slow_sale
  = Some [ []; [attributed_sale "mango" 1 10 9 5]; [];
           [attributed_sale "mango" 1 8 7 15]; [] ].
Proof. vm_compute. reflexivity. Qed.

(** On [sold_out_ticks] with a cooldown of 10 both conditions are confirmed
    on every tick, and the alerts are raised at 0 and at 10 only. *)
Lemma sold_out_two_alerts :
  snd <$> fresh_alert_run {["mango" := 3]} 1 1 10 sold_out_ticks
  = Some [ [sold_out_alert 0; expired_alert 0]; [];
           [sold_out_alert 10; expired_alert 10]; [] ].
Proof. vm_compute. reflexivity. Qed.

Lemma cooldown_spacing_witness :
  cooldown_spaced SalesAttribution.product_name SalesAttribution.timestamp_utc 10
    (attributed_sales
       [ []; [attributed_sale "mango" 1 10 9 5]; [];
         [attributed_sale "mango" 1 8 7 15]; [] ])
  ∧ cooldown_spaced alert_key Alerts.timestamp_utc 10
      (concat [ [sold_out_alert 0; expired_alert 0]; [];
                [sold_out_alert 10; expired_alert 10]; [] ]).
Proof.
  destruct cooldown_spacing as [Hsales Halerts]. split.
  - apply (Hsales 1 1 10 5 slow_sale); [lia | apply slow_sale_two_sales].
  - pose proof sold_out_two_alerts as Hrun.
    destruct (fresh_alert_run {["mango" := 3]} 1 1 10 sold_out_ticks)
      as [[e' out]|] eqn:Hfresh; [|discriminate Hrun].
    injection Hrun as <-.
    apply (Halerts {["mango" := 3]} 1 1 10 sold_out_ticks e' out); [lia | exact Hfresh].
Defined.

(** C5, as the specification words it, fails for the ["Unknown"] sale: on
    [steady_decrease] with a cooldown of 10 it is emitted at 10, at 15 and
    at 20. *)
Lemma unknown_sale_spacing_counterexample :
  ¬ (∀ c thr cd si snapshots ticks,
       0 ≤ cd →
       fresh_sales_run c thr cd si snapshots = Some ticks →
       cooldown_spaced SalesAttribution.product_name SalesAttribution.timestamp_utc cd
         (concat ticks)).
Proof.
  intros Hclaim.
  specialize (Hclaim 2 2 10 5 steady_decrease
    [ []; []; [unknown_sale 4 36 32 10]; [unknown_sale 4 32 28 15];
      [unknown_sale 4 28 24 20] ]).
  assert (10 ≤ 15 - 10) as Habsurd; [|lia].
  apply (Hclaim ltac:(lia) ltac:(vm_compute; reflexivity) 0%nat 1%nat
           (unknown_sale 4 36 32 10) (unknown_sale 4 32 28 15));
    [lia | reflexivity | reflexivity | reflexivity].
Qed.

(** C6.  A tick that contradicts the condition of a product empties its
    pending queue within the tick: a positive delta deletes the pending
    decreases of the product, a count above the threshold clears its
    low-stock deque, and a freshness record that is not expired clears its
    expiration deque. *)
Theorem contradiction_clears_pending :
  (∀ e inventory timestamp p,
     (2 ≤ length (SalesAttribution.snapshot_history
                    (SalesAttribution.append_snapshot e inventory timestamp)))%nat →
     0 < tick_delta (SalesAttribution.append_snapshot e inventory timestamp) p →
     SalesAttribution.pending_decreases
       (SalesAttribution.process_snapshot e inventory timestamp).1 !! p = None)
  ∧ (∀ e inventory freshness_state timestamp e' alerts p threshold,
       Alerts.evaluate e inventory freshness_state timestamp = Some (e', alerts) →
       Alerts.low_stock_thresholds e !! p = Some threshold →
       threshold < dict_get inventory p 0 →
       default [] (Alerts.pending_low_stock e' !! p) = [])
  ∧ (∀ e inventory freshness_state timestamp e' alerts p freshness_data,
       Alerts.evaluate e inventory freshness_state timestamp = Some (e', alerts) →
       freshness_state !! p = Some freshness_data →
       default false (Alerts.is_expired freshness_data) = false →
       default [] (Alerts.pending_expiration e' !! p) = []).
Proof.
  split; [|split].
  - intros e inventory timestamp p. apply increase_clears_pending.
  - intros e inventory freshness_state timestamp e' alerts p threshold.
    apply above_threshold_clears.
  - intros e inventory freshness_state timestamp e' alerts p freshness_data.
    apply not_expired_clears.
Qed.

Lemma contradiction_clears_pending_witness :
  SalesAttribution.pending_decreases
    (SalesAttribution.process_snapshot multi_step_engine {["mango" := 12]} 10).1
    !! "mango" = None
  ∧ ∃ e' alerts,
      Alerts.evaluate stockout_engine {["mango" := 9; "kiwi" := 8]}
        {["mango" := fresh_record]} 5 = Some (e', alerts)
      ∧ default [] (Alerts.pending_low_stock e' !! "mango") = []
      ∧ default [] (Alerts.pending_expiration e' !! "mango") = [].
Proof.
  destruct contradiction_clears_pending as (Hsales & Hlow & Hexp). split.
  - apply Hsales; [vm_compute; lia | vm_compute; reflexivity].
  - destruct (Alerts.evaluate stockout_engine {["mango" := 9; "kiwi" := 8]}
                {["mango" := fresh_record]} 5) as [[e' alerts]|] eqn:Hev.
    + exists e', alerts. split; [reflexivity|]. split.
      * apply (Hlow _ _ _ _ _ _ "mango" 3 Hev); [reflexivity | vm_compute; reflexivity].
      * apply (Hexp _ _ _ _ _ _ "mango" fresh_record Hev); reflexivity.
    + vm_compute in Hev. discriminate Hev.
Defined.

End both_engines.

(** ** The silent engine and the unattributed sale *)

Section construction.


End construction.

Section unattributed.
Import SalesAttribution.

Implicit Types (e : SalesAttributionEngine) (p q : string) (ev : SaleEvent).

(** C10.  A tick that emits the unattributed sale leaves [last_sale_time]
    as it was, and the fallback does not read it.  So on
    [steady_decrease], whose total drops on every tick, the ["Unknown"]
    sale is emitted on every tick from the third on, 5 apart under a
    cooldown of 10. *)
Theorem unknown_sale_bypasses_cooldown :
  (∀ e inventory timestamp ev,
     ev ∈ (process_snapshot e inventory timestamp).2 →
     validated ev = false →
     last_sale_time (process_snapshot e inventory timestamp).1 = last_sale_time e)
  ∧ (∀ e m now cur prev sales_events,
       (unattributed_fallback (set_last_sale_time e m) now cur prev sales_events).2
       = (unattributed_fallback e now cur prev sales_events).2)
  ∧ strictly_decreasing (map (λ s, dict_sum s.1) steady_decrease)
  ∧ fresh_sales_run 2 2 10 5 steady_decrease
    = Some [ []; []; [unknown_sale 4 36 32 10]; [unknown_sale 4 32 28 15];
             [unknown_sale 4 28 24 20] ].
Proof.
  split; [|split; [|split]].
  - intros e inventory timestamp ev. apply unattributed_sale_keeps_cooldown.
  - intros e m now cur prev sales_events. apply unattributed_fallback_ignores_cooldown.
  - assert (map (λ s : gmap string Z * Z, dict_sum s.1) steady_decrease
            = [40; 36; 32; 28; 24]) as -> by (vm_compute; reflexivity).
    apply consistently_decreasing_spec. reflexivity.
  - vm_compute. reflexivity.
Qed.

Lemma unknown_sale_bypasses_cooldown_witness :
  last_sale_time (process_snapshot steady_engine (crate 8) 10).1
  = last_sale_time steady_engine.
Proof.
  destruct unknown_sale_bypasses_cooldown as (Hkeeps & _).
  apply (Hkeeps steady_engine (crate 8) 10 (unknown_sale 4 36 32 10)).
  - rewrite steady_engine_tick3. apply list_elem_of_singleton. reflexivity.
  - reflexivity.
Defined.

End unattributed.

(** ** Further lemmas on the sales engine *)

Section sales_further.
Import SalesAttribution.

Implicit Types (e : SalesAttributionEngine) (p q : string) (ev : SaleEvent).

(** *** The two snapshots that a tick compares *)

Lemma deque_append_rev {A : Type} (maxlen : nat) (q : list A) (x : A) :
  maxlen ≠ 0%nat →
  (2 ≤ length (deque_append maxlen q x))%nat →
  ∃ y rest, rev (deque_append maxlen q x) = x :: y :: rest ∧ head (rev q) = Some y.
Proof.
  intros Hmax. unfold deque_append.
  destruct (maxlen =? 0)%nat eqn:H0; [by apply Nat.eqb_eq in H0|].
  destruct (maxlen <? length (q ++ [x]))%nat.
  - destruct q as [|a q]; simpl; [lia|].
    rewrite length_app. simpl. intros Hlen.
    rewrite rev_app_distr. simpl.
    destruct (rev q) as [|y rest] eqn:Hrev.
    { apply (f_equal length) in Hrev. rewrite length_rev in Hrev. simpl in Hrev. lia. }
    exists y, rest. split; [done|]. by simpl.
  - rewrite length_app. simpl. intros Hlen. rewrite rev_app_distr. simpl.
    destruct (rev q) as [|y rest] eqn:Hrev.
    { apply (f_equal length) in Hrev. rewrite length_rev in Hrev. simpl in Hrev. lia. }
    by exists y, rest.
Qed.

Lemma append_snapshot_inventories e inventory timestamp :
  let e1 := append_snapshot e inventory timestamp in
  (length (snapshot_history e) ≤ Z.to_nat (confirm_intervals e + 1))%nat →
  (2 ≤ length (snapshot_history e1))%nat →
  current_inventory e1 = inventory ∧ previous_inventory e1 = current_inventory e.
Proof.
  cbv zeta. intros Hbound Hlen. unfold current_inventory, previous_inventory.
  simpl in *.
  assert (Z.to_nat (confirm_intervals e + 1) ≠ 0%nat) as Hmax.
  { intros H0. rewrite H0 in *. unfold deque_append in Hlen. simpl in Hlen. lia. }
  destruct (deque_append_rev _ _ _ Hmax Hlen) as (y & rest & -> & Hhead).
  split; [done|]. destruct y as [ts inv].
  destruct (rev (snapshot_history e)) as [|[ts' inv'] rest']; simplify_eq/=. done.
Qed.

(** *** What a tick leaves in a pending list *)

(** After the loop body has handled [p], the pending list of [p] is empty,
    unchanged, or extended by this tick's negative delta. *)
Lemma attribute_product_pending now cur prev e p entries :
  pending_decreases (attribute_product now cur prev e p).1 !! p = Some entries →
  entries = []
  ∨ pending_decreases e !! p = Some entries
  ∨ ∃ delta, delta < 0 ∧ min_delta_threshold e ≤ Z.abs delta
             ∧ entries = default [] (pending_decreases e !! p) ++ [(now, delta)].
Proof.
  assert (∀ delta, record_delta e p now delta !! p = Some entries →
            entries = []
            ∨ pending_decreases e !! p = Some entries
            ∨ ∃ delta, delta < 0 ∧ min_delta_threshold e ≤ Z.abs delta
                ∧ entries = default [] (pending_decreases e !! p) ++ [(now, delta)])
    as Hrecord.
  { intros delta. unfold record_delta.
    destruct ((delta <? 0) && (Z.abs delta >=? min_delta_threshold e)) eqn:Hdec.
    - apply andb_true_iff in Hdec as [Hneg Hthr].
      rewrite lookup_insert_eq. intros [= <-]. right. right. exists delta.
      split; [lia|]. split; [lia|done].
    - destruct ((delta =? 0) && _); [by right; left|].
      destruct (delta >? 0); [|by right; left].
      destruct (pending_decreases e !! p) eqn:Hp.
      + rewrite lookup_insert_eq. intros [= <-]. by left.
      + rewrite Hp. done. }
  rewrite attribute_product_unfold. cbv zeta.
  destruct (record_delta e p now _ !! p) as [[|[ts0 d0] rest]|] eqn:Hq; simpl.
  - rewrite Hq. intros [= <-]. by left.
  - destruct (_validate_decrease e p now); simpl.
    + destruct (_check_cooldown e p now); simpl.
      * rewrite lookup_insert_eq. intros [= <-]. by left.
      * rewrite Hq. intros [= <-]. eapply Hrecord, Hq.
    + rewrite Hq. intros [= <-]. eapply Hrecord, Hq.
  - by rewrite Hq.
Qed.

Lemma attribute_products_pending now cur prev e l p entries :
  NoDup l →
  pending_decreases (attribute_products now cur prev e l).1 !! p = Some entries →
  entries = []
  ∨ pending_decreases e !! p = Some entries
  ∨ ∃ delta, delta < 0 ∧ min_delta_threshold e ≤ Z.abs delta
             ∧ entries = default [] (pending_decreases e !! p) ++ [(now, delta)].
Proof.
  intros Hnd Hq. destruct (decide (p ∈ l)) as [Hin | Hout].
  - destruct (attribute_products_state now cur prev e l p Hnd Hin) as (_ & Hpend & _).
    rewrite <- Hpend in Hq. by apply attribute_product_pending in Hq.
  - destruct (attribute_products_frame now cur prev e l p Hout) as (_ & Hpend & _).
    rewrite <- Hpend in Hq. by right; left.
Qed.

(** The pending list of a product after a tick that compared two
    snapshots: what the loop left, pruned by age, and not empty. *)
Lemma process_snapshot_pending e inventory timestamp p entries :
  (2 ≤ length (snapshot_history (append_snapshot e inventory timestamp)))%nat →
  pending_decreases (process_snapshot e inventory timestamp).1 !! p = Some entries →
  entries ≠ []
  ∧ ∃ base,
      entries = filter (λ x, timestamp - x.1
                             < snapshot_interval e * (confirm_intervals e + 2)) base
      ∧ (pending_decreases e !! p = Some base
         ∨ ∃ delta, delta < 0 ∧ min_delta_threshold e ≤ Z.abs delta
                    ∧ base = default [] (pending_decreases e !! p)
                               ++ [(timestamp, delta)]).
Proof.
  intros Hlen.
  destruct (process_snapshot_state e inventory timestamp Hlen) as (_ & _ & ->).
  set (e1 := append_snapshot e inventory timestamp) in *.
  rewrite cleanup_lookup.
  pose proof (attribute_products_settings timestamp (current_inventory e1)
                (previous_inventory e1) e1 (tick_products e1))
    as (Hc & _ & _ & Hsi & _).
  rewrite <- Hc, <- Hsi.
  change (confirm_intervals e1) with (confirm_intervals e).
  change (snapshot_interval e1) with (snapshot_interval e).
  intros (base & Hbase & Hclean)%bind_Some.
  unfold cleanup_entry in Hclean.
  destruct (filter _ base) as [|x kept] eqn:Hf; [done|].
  injection Hclean as <-. split; [done|].
  apply attribute_products_pending in Hbase; [|apply tick_products_NoDup].
  change (pending_decreases e1) with (pending_decreases e) in Hbase.
  change (min_delta_threshold e1) with (min_delta_threshold e) in Hbase.
  destruct Hbase as [-> | [Hold | Hnew]]; [done | |].
  - exists base. by split; [|left].
  - exists base. by split; [|right].
Qed.

(** *** The statistics are written by [process_snapshot] only *)

Lemma attribute_product_statistics now cur prev e p :
  total_sales_detected (attribute_product now cur prev e p).1 = total_sales_detected e
  ∧ sales_by_product (attribute_product now cur prev e p).1 = sales_by_product e.
Proof.
  rewrite attribute_product_unfold. cbv zeta.
  destruct (record_delta e p now _ !! p) as [[|[ts0 d0] rest]|]; [done | | done].
  destruct (_validate_decrease e p now); [|done].
  by destruct (_check_cooldown e p now).
Qed.

Lemma attribute_products_statistics now cur prev e l :
  total_sales_detected (attribute_products now cur prev e l).1 = total_sales_detected e
  ∧ sales_by_product (attribute_products now cur prev e l).1 = sales_by_product e.
Proof.
  revert e. induction l as [|p l IH]; intros e; simpl; [done|].
  pose proof (attribute_product_statistics now cur prev e p) as [Ht Hs].
  destruct (attribute_product now cur prev e p) as [e1 sale].
  specialize (IH e1).
  destruct (attribute_products now cur prev e1 l) as [e2 sales]. simpl in *.
  destruct IH as [-> ->]. done.
Qed.

Lemma unattributed_fallback_statistics e now cur prev sales_events :
  let r := unattributed_fallback e now cur prev sales_events in
  total_sales_detected r.1 = total_sales_detected e
  ∧ sales_by_product r.1 = sales_by_product e
  ∧ (false_positives_filtered r.1 = false_positives_filtered e
     ∨ sales_events = [] ∧ r.2 = []
       ∧ false_positives_filtered r.1 = false_positives_filtered e + 1).
Proof.
  cbv zeta. unfold unattributed_fallback, _validate_total_decrease. cbv zeta.
  destruct ((_ <? 0) && bool_decide (sales_events = [])) eqn:Hguard;
    [|by split_and!; [..|left]].
  apply andb_true_iff in Hguard as [_ Hnil%bool_decide_eq_true]. subst.
  destruct (Z.abs _ <? _); simpl; [by split_and!; [..|right]|].
  destruct (Z.of_nat _ <? _); simpl; [by split_and!; [..|left]|].
  destruct (consistently_decreasing _); simpl; [by split_and!; [..|left]|].
  by split_and!; [..|right].
Qed.

(** The statistics after a tick: the counter grows by the number of
    events returned and the per-product totals are updated by
    [record_sales]. *)
Lemma process_snapshot_statistics e inventory timestamp :
  let r := process_snapshot e inventory timestamp in
  total_sales_detected r.1 = total_sales_detected e + Z.of_nat (length r.2)
  ∧ sales_by_product r.1 = record_sales (sales_by_product e) r.2.
Proof.
  cbv zeta. rewrite process_snapshot_unfold. cbv zeta.
  set (e1 := append_snapshot e inventory timestamp).
  destruct (length (snapshot_history e1) <? 2)%nat eqn:Hlen; simpl.
  { split; [lia | done]. }
  apply Nat.ltb_ge in Hlen. rewrite (detect_unfold e1 timestamp Hlen).
  pose proof (attribute_products_statistics timestamp (current_inventory e1)
                (previous_inventory e1) e1 (tick_products e1)) as [Ht Hs].
  destruct (attribute_products timestamp (current_inventory e1)
              (previous_inventory e1) e1 (tick_products e1)) as [e2 sales].
  pose proof (unattributed_fallback_statistics (_cleanup_pending_decreases e2 timestamp)
                timestamp (current_inventory e1) (previous_inventory e1) sales)
    as (Ht' & Hs' & _).
  destruct (unattributed_fallback _ _ _ _ _) as [e3 events]. simpl in *.
  rewrite Ht', Hs', Ht, Hs. done.
Qed.

(** *** Events of a tick carry distinct product names *)

Lemma attribute_products_names now cur prev e l :
  (product_name <$> (attribute_products now cur prev e l).2) `sublist_of` l.
Proof.
  revert e. induction l as [|p l IH]; intros e; simpl; [done|].
  pose proof (attribute_product_validated now cur prev e p) as Hp.
  destruct (attribute_product now cur prev e p) as [e1 sale].
  specialize (IH e1).
  destruct (attribute_products now cur prev e1 l) as [e2 sales]. simpl in *.
  destruct sale as [ev|]; simpl.
  - destruct (Hp ev eq_refl) as (_ & -> & _). by apply sublist_skip.
  - by apply sublist_cons.
Qed.

(** The events of a tick: the attributed sales of the loop or, when there
    is none, possibly the one unattributed sale. *)
Lemma process_snapshot_cases e inventory timestamp :
  let e1 := append_snapshot e inventory timestamp in
  let r := process_snapshot e inventory timestamp in
  r.2 = []
  ∨ ((2 ≤ length (snapshot_history e1))%nat
     ∧ r.2 = (attribute_products timestamp (current_inventory e1)
                (previous_inventory e1) e1 (tick_products e1)).2)
  ∨ ((2 ≤ length (snapshot_history e1))%nat
     ∧ (attribute_products timestamp (current_inventory e1)
          (previous_inventory e1) e1 (tick_products e1)).2 = []
     ∧ dict_sum (current_inventory e1) - dict_sum (previous_inventory e1) < 0
     ∧ confirm_intervals e + 1 ≤ Z.of_nat (length (snapshot_history e1))
     ∧ r.2 = [ {| product_name := "Unknown";
                  quantity_delta :=
                    Z.abs (dict_sum (current_inventory e1)
                           - dict_sum (previous_inventory e1));
                  inventory_before := dict_sum (previous_inventory e1);
                  inventory_after := dict_sum (current_inventory e1);
                  timestamp_utc := timestamp;
                  validated := false |} ]).
Proof.
  cbv zeta. rewrite process_snapshot_events. cbv zeta.
  set (e1 := append_snapshot e inventory timestamp).
  destruct (length (snapshot_history e1) <? 2)%nat eqn:Hlen; [by left|].
  apply Nat.ltb_ge in Hlen.
  destruct (unattributed_fallback_events
              (_cleanup_pending_decreases
                 (attribute_products timestamp (current_inventory e1)
                    (previous_inventory e1) e1 (tick_products e1)).1 timestamp)
              timestamp (current_inventory e1) (previous_inventory e1)
              (attribute_products timestamp (current_inventory e1)
                 (previous_inventory e1) e1 (tick_products e1)).2)
    as [Hsame | (Hnil & Hneg & Hok & Hunknown)].
  - right; left. by split.
  - right; right. split_and!; [done..| |done].
    apply validate_total_decrease_spec in Hok as (_ & Hfull & _).
    pose proof (attribute_products_settings timestamp (current_inventory e1)
                  (previous_inventory e1) e1 (tick_products e1))
      as (Hc & _ & _ & _ & Hh).
    simpl in Hfull. by rewrite <- Hc, <- Hh in Hfull.
Qed.

End sales_further.

(** ** Sale events and statistics *)

Section sale_events.
Import SalesAttribution.

Implicit Types (e : SalesAttributionEngine) (p q : string) (ev : SaleEvent).

(** The event that the loop body builds for [p], with its delta. *)
Lemma attribute_product_event_delta now cur prev e p ev :
  (attribute_product now cur prev e p).2 = Some ev →
  let delta := dict_get cur p 0 - dict_get prev p 0 in
  delta ≤ 0
  ∧ product_name ev = p
  ∧ inventory_after ev = dict_get cur p 0
  ∧ timestamp_utc ev = now
  ∧ validated ev = true
  ∧ _validate_decrease e p now = true
  ∧ ∃ ts0 d0 rest,
      record_delta e p now delta !! p = Some ((ts0, d0) :: rest)
      ∧ quantity_delta ev = (if delta <? 0 then Z.abs delta else Z.abs d0)
      ∧ inventory_before ev
        = (if delta =? 0 then dict_get prev p 0 + Z.abs d0 else dict_get prev p 0).
Proof.
  intros (ts0 & d0 & rest & Hq & Hval & _ & ->)%attribute_product_event. cbv zeta.
  assert (dict_get cur p 0 - dict_get prev p 0 ≤ 0) as Hle.
  { destruct (decide (0 < dict_get cur p 0 - dict_get prev p 0)) as [Hpos|]; [|lia].
    destruct (record_delta_increase e p now _ Hpos); congruence. }
  simpl. split_and!; try done.
  exists ts0, d0, rest. split_and!; [done..|].
  destruct (_ =? 0) eqn:H0; [|done].
  apply Z.eqb_eq in H0. rewrite H0. done.
Qed.

(** A negative sum has a negative term. *)
Lemma sum_negative_has_negative {A : Type} (f : A → Z) (l : list A) :
  foldr Z.add 0 (f <$> l) < 0 → ∃ x, x ∈ l ∧ f x < 0.
Proof.
  induction l as [|x l IH]; csimpl; [lia|]. intros Hneg.
  destruct (decide (f x < 0)) as [Hx | Hx].
  - exists x. split; [left | done].
  - destruct IH as (y & Hy & Hlt); [lia|]. exists y. split; [by right | done].
Qed.

(** X1 ([process_snapshot], [_detect_attributed_sales]):
    for every event returned by a call, attributed or not, the quantity is
    the difference of the two inventory fields, it is not negative, and
    the event carries the timestamp of the call. *)
Theorem sale_event_balance e inventory timestamp ev :
  ev ∈ (process_snapshot e inventory timestamp).2 →
  inventory_before ev - inventory_after ev = quantity_delta ev
  ∧ 0 ≤ quantity_delta ev
  ∧ timestamp_utc ev = timestamp.
Proof.
  destruct (process_snapshot_cases e inventory timestamp)
    as [-> | [(Hlen & ->) | (Hlen & _ & Hneg & _ & ->)]].
  - intros Hin. apply elem_of_nil in Hin. destruct Hin.
  - intros (p & _ & Hev)%attribute_products_events; [|apply tick_products_NoDup].
    apply attribute_product_event_delta in Hev. cbv zeta in Hev.
    destruct Hev as (Hle & _ & -> & -> & _ & _ & ts0 & d0 & rest & _ & -> & ->).
    destruct (_ <? 0) eqn:Hlt; destruct (_ =? 0) eqn:H0; split_and!; lia.
  - intros ->%list_elem_of_singleton. simpl. split_and!; [lia | lia | done].
Qed.

Lemma sale_event_balance_witness :
  inventory_before multi_step_sale - inventory_after multi_step_sale
  = quantity_delta multi_step_sale
  ∧ 0 ≤ quantity_delta multi_step_sale
  ∧ timestamp_utc multi_step_sale = 10.
Proof.
  apply (sale_event_balance multi_step_engine {["mango" := 7]} 10 multi_step_sale).
  rewrite multi_step_tick3. apply list_elem_of_singleton. reflexivity.
Defined.

(** X2 ([_detect_attributed_sales]): the events
    returned by one call carry pairwise distinct product names, whatever
    the state of the engine. *)
Theorem one_event_per_product_name e inventory timestamp :
  NoDup (product_name <$> (process_snapshot e inventory timestamp).2).
Proof.
  destruct (process_snapshot_cases e inventory timestamp)
    as [-> | [(Hlen & ->) | (Hlen & _ & _ & _ & ->)]].
  - apply NoDup_nil_2.
  - eapply sublist_NoDup; [|apply attribute_products_names].
    apply tick_products_NoDup.
  - apply NoDup_singleton.
Qed.

(** X3 ([_detect_attributed_sales], the
    fallback): an event that is not validated is the only event of its
    call; it is named ["Unknown"], its inventory fields are the totals of
    the previous and of the current snapshot, its quantity is their
    positive difference, and some product's count dropped on this tick. *)
Theorem unattributed_sale_stands_alone e inventory timestamp ev :
  ev ∈ (process_snapshot e inventory timestamp).2 →
  validated ev = false →
  let e1 := append_snapshot e inventory timestamp in
  (process_snapshot e inventory timestamp).2 = [ev]
  ∧ product_name ev = "Unknown"
  ∧ inventory_before ev = dict_sum (previous_inventory e1)
  ∧ inventory_after ev = dict_sum (current_inventory e1)
  ∧ quantity_delta ev = inventory_before ev - inventory_after ev
  ∧ 0 < quantity_delta ev
  ∧ ∃ p, p ∈ tick_products e1 ∧ tick_delta e1 p < 0.
Proof.
  cbv zeta.
  destruct (process_snapshot_cases e inventory timestamp)
    as [-> | [(Hlen & ->) | (Hlen & _ & Hneg & _ & ->)]].
  - intros Hin. apply elem_of_nil in Hin. destruct Hin.
  - intros (? & _)%attribute_products_validated. congruence.
  - intros ->%list_elem_of_singleton _. simpl. split_and!; [done.. | lia | lia |].
    rewrite <- sum_of_deltas_total in Hneg.
    by apply sum_negative_has_negative in Hneg.
Qed.

Lemma unattributed_sale_stands_alone_witness :
  let e1 := append_snapshot steady_engine (crate 8) 10 in
  (process_snapshot steady_engine (crate 8) 10).2 = [unknown_sale 4 36 32 10]
  ∧ product_name (unknown_sale 4 36 32 10) = "Unknown"
  ∧ inventory_before (unknown_sale 4 36 32 10) = dict_sum (previous_inventory e1)
  ∧ inventory_after (unknown_sale 4 36 32 10) = dict_sum (current_inventory e1)
  ∧ quantity_delta (unknown_sale 4 36 32 10)
    = inventory_before (unknown_sale 4 36 32 10) - inventory_after (unknown_sale 4 36 32 10)
  ∧ 0 < quantity_delta (unknown_sale 4 36 32 10)
  ∧ ∃ p, p ∈ tick_products e1 ∧ tick_delta e1 p < 0.
Proof.
  apply (unattributed_sale_stands_alone steady_engine (crate 8) 10
           (unknown_sale 4 36 32 10)).
  - rewrite steady_engine_tick3. apply list_elem_of_singleton. reflexivity.
  - reflexivity.
Defined.

(** X4 ([_validate_total_decrease],
    [process_snapshot]): one call raises [false_positives_filtered] by at
    most one, and only when it returns no event. *)
Theorem false_positive_counter_step e inventory timestamp :
  let r := process_snapshot e inventory timestamp in
  false_positives_filtered r.1 = false_positives_filtered e
  ∨ (false_positives_filtered r.1 = false_positives_filtered e + 1 ∧ r.2 = []).
Proof.
  cbv zeta. rewrite process_snapshot_unfold. cbv zeta.
  set (e1 := append_snapshot e inventory timestamp).
  destruct (length (snapshot_history e1) <? 2)%nat eqn:Hlen; simpl; [by left|].
  apply Nat.ltb_ge in Hlen. rewrite (detect_unfold e1 timestamp Hlen).
  pose proof (attribute_products_filtered timestamp (current_inventory e1)
                (previous_inventory e1) e1 (tick_products e1)) as Hf.
  destruct (attribute_products timestamp (current_inventory e1)
              (previous_inventory e1) e1 (tick_products e1)) as [e2 sales].
  pose proof (unattributed_fallback_statistics (_cleanup_pending_decreases e2 timestamp)
                timestamp (current_inventory e1) (previous_inventory e1) sales)
    as (_ & _ & Hcount).
  destruct (unattributed_fallback _ _ _ _ _) as [e3 events]. simpl in *.
  destruct Hcount as [-> | (_ & -> & ->)]; [left | right]; by rewrite ?Hf.
Qed.

(** The per-product totals written by [record_sales]. *)
Lemma record_sales_lookup (by_product : gmap string Z) (sales_events : list SaleEvent) p :
  dict_get (record_sales by_product sales_events) p 0
  = dict_get by_product p 0
    + foldr Z.add 0 (quantity_delta <$> filter (λ ev, product_name ev = p) sales_events).
Proof.
  revert by_product. induction sales_events as [|ev rest IH]; intros by_product; simpl.
  { lia. }
  rewrite IH. unfold dict_get at 1.
  destruct (decide (product_name ev = p)) as [Heq | Hne].
  - rewrite filter_cons_True by done. rewrite Heq, lookup_insert_eq. csimpl. lia.
  - rewrite lookup_insert_ne by done. rewrite filter_cons_False by done.
    fold (dict_get by_product p 0). lia.
Qed.

Lemma run_statistics e snapshots p :
  total_sales_detected (run e snapshots).1
  = total_sales_detected e + Z.of_nat (length (concat (run e snapshots).2))
  ∧ dict_get (sales_by_product (run e snapshots).1) p 0
    = dict_get (sales_by_product e) p 0
      + foldr Z.add 0
          (quantity_delta <$> filter (λ ev, product_name ev = p)
                                (concat (run e snapshots).2)).
Proof.
  revert e. induction snapshots as [|[inventory timestamp] rest IH]; intros e; simpl.
  { split; lia. }
  pose proof (process_snapshot_statistics e inventory timestamp) as [Ht Hs].
  cbv zeta in Ht, Hs.
  destruct (process_snapshot e inventory timestamp) as [e1 events].
  specialize (IH e1). destruct (run e1 rest) as [e2 later]. simpl in *.
  destruct IH as [-> ->]. rewrite Ht, Hs, record_sales_lookup.
  rewrite length_app, filter_app, fmap_app, foldr_app.
  split; [lia|].
  generalize (quantity_delta <$> filter (λ ev, product_name ev = p) events).
  intros l. generalize (foldr Z.add 0
    (quantity_delta <$> filter (λ ev, product_name ev = p) (concat later))).
  intros z. induction l as [|x l IHl]; simpl; lia.
Qed.

(** X5 ([get_statistics], [process_snapshot]):
    after any sequence of calls, ['total_sales_detected'] has grown by the
    number of events returned and the ['sales_by_product'] entry of every
    product by the quantities of the events returned under its name. *)
Theorem statistics_count_the_events e snapshots now p :
  let r := run e snapshots in
  stat_total_sales_detected (get_statistics r.1 now)
  = stat_total_sales_detected (get_statistics e now) + Z.of_nat (length (concat r.2))
  ∧ dict_get (stat_sales_by_product (get_statistics r.1 now)) p 0
    = dict_get (stat_sales_by_product (get_statistics e now)) p 0
      + foldr Z.add 0
          (quantity_delta <$> filter (λ ev, product_name ev = p) (concat r.2)).
Proof. cbv zeta. simpl. apply run_statistics. Qed.

(** X6 ([reset], [__init__]): after any
    sequence of calls, [reset] puts the engine back into exactly the state
    in which the constructor built it. *)
Theorem reset_restores_constructed_state c thr cd si e0 snapshots :
  __init__ c thr cd si = Some e0 →
  reset (run e0 snapshots).1 = e0.
Proof.
  unfold __init__. destruct (c + 1 <? 0); [done|]. intros [= <-].
  unfold reset.
  destruct (run_settings
    {| confirm_intervals := c; min_delta_threshold := thr; cooldown_seconds := cd;
       snapshot_interval := si; snapshot_history := []; last_sale_time := ∅;
       pending_decreases := ∅; total_sales_detected := 0; sales_by_product := ∅;
       false_positives_filtered := 0 |} snapshots) as (-> & -> & -> & ->).
  done.
Qed.

Lemma reset_restores_constructed_state_witness :
  reset (run (test_engine 10 [] ∅ ∅ 0 0 ∅) steady_decrease).1
  = test_engine 10 [] ∅ ∅ 0 0 ∅.
Proof.
  apply (reset_restores_constructed_state 2 1 10 5). reflexivity.
Defined.

End sale_events.

(** ** Confirmation of a decrease *)

Section confirmation.
Import SalesAttribution.

Implicit Types (e : SalesAttributionEngine) (p q : string) (ev : SaleEvent).

Lemma decrease_persisted_spec (initial_count : Z) (counts : list Z) :
  decrease_persisted initial_count counts = true
  ↔ Forall (λ count, count < initial_count) counts.
Proof.
  induction counts as [|count rest IH]; simpl.
  { split; [constructor | done]. }
  destruct (count >? initial_count) eqn:Hgt.
  { split; [done|]. intros [Hlt _]%Forall_cons. lia. }
  destruct (count =? initial_count) eqn:Heq.
  { split; [done|]. intros [Hlt _]%Forall_cons. lia. }
  rewrite IH, Forall_cons. split; [|tauto]. intros Hrest. split; [lia | done].
Qed.

(** X7 ([_validate_decrease]): a decrease
    of a product is validated exactly when the history holds
    [confirm_intervals + 1] snapshots and, in the last
    [confirm_intervals + 1] of them, every count after the oldest is
    strictly below the oldest; the counts in between are compared with the
    oldest one and not with each other, and the timestamp is not read. *)
Theorem validate_decrease_characterised e p now :
  _validate_decrease e p now = true ↔
  confirm_intervals e + 1 ≤ Z.of_nat (length (snapshot_history e))
  ∧ ∃ oldest later,
      slice_last (confirm_intervals e + 1) (snapshot_history e) = oldest :: later
      ∧ Forall (λ s, dict_get s.2 p 0 < dict_get oldest.2 p 0) later.
Proof.
  unfold _validate_decrease. cbv zeta.
  destruct (Z.of_nat (length (snapshot_history e)) <? confirm_intervals e + 1) eqn:Hlen.
  { split; [done|]. intros [Hfull _]. lia. }
  destruct (slice_last (confirm_intervals e + 1) (snapshot_history e))
    as [|oldest later]; simpl.
  { split; [done|]. by intros (_ & ? & ? & ? & _). }
  rewrite decrease_persisted_spec, Forall_fmap. split.
  - intros Hall. split; [lia|]. by exists oldest, later.
  - by intros (_ & ? & ? & [= <- <-] & Hall).
Qed.

Lemma validate_decrease_short e p now :
  Z.of_nat (length (snapshot_history e)) < confirm_intervals e + 1 →
  _validate_decrease e p now = false.
Proof.
  intros Hshort. unfold _validate_decrease.
  destruct (_ <? _) eqn:Hlen; [done | lia].
Qed.

Lemma attribute_products_unvalidated now cur prev e l :
  (∀ p, _validate_decrease e p now = false) →
  (attribute_products now cur prev e l).2 = [].
Proof.
  revert e. induction l as [|p l IH]; intros e Hno; simpl; [done|].
  pose proof (attribute_product_settings now cur prev e p) as Hset.
  pose proof (attribute_product_unfold now cur prev e p) as Hunfold.
  cbv zeta in Hunfold. rewrite Hno in Hunfold.
  destruct (attribute_product now cur prev e p) as [e1 sale]. simpl in *.
  assert (sale = None) as ->.
  { destruct (record_delta e p now _ !! p) as [[|[ts0 d0] rest]|];
      by injection Hunfold as _ ->. }
  specialize (IH e1).
  destruct (attribute_products now cur prev e1 l) as [e2 sales]. simpl in *.
  apply IH. intros r. by rewrite <- (validate_decrease_settings e e1).
Qed.

(** While the history is short of [confirm_intervals + 1] snapshots a call
    returns nothing. *)
Lemma process_snapshot_short e inventory timestamp :
  Z.of_nat (length (snapshot_history (append_snapshot e inventory timestamp)))
  < confirm_intervals e + 1 →
  (process_snapshot e inventory timestamp).2 = [].
Proof.
  intros Hshort.
  destruct (process_snapshot_cases e inventory timestamp)
    as [-> | [(Hlen & ->) | (Hlen & _ & _ & Hfull & _)]]; [done | | lia].
  apply attribute_products_unvalidated. intros p.
  by apply validate_decrease_short.
Qed.

Lemma process_snapshot_settings e inventory timestamp :
  confirm_intervals (process_snapshot e inventory timestamp).1 = confirm_intervals e
  ∧ min_delta_threshold (process_snapshot e inventory timestamp).1 = min_delta_threshold e
  ∧ cooldown_seconds (process_snapshot e inventory timestamp).1 = cooldown_seconds e
  ∧ snapshot_interval (process_snapshot e inventory timestamp).1 = snapshot_interval e.
Proof.
  pose proof (run_settings e [(inventory, timestamp)]) as H. simpl in H.
  by destruct (process_snapshot e inventory timestamp).
Qed.

Lemma process_snapshot_history e inventory timestamp :
  snapshot_history (process_snapshot e inventory timestamp).1
  = snapshot_history (append_snapshot e inventory timestamp).
Proof.
  destruct (decide (length (snapshot_history
              (append_snapshot e inventory timestamp)) < 2)%nat) as [Hsmall | Hlen].
  - by rewrite append_snapshot_length_small.
  - apply Nat.nlt_ge in Hlen.
    by destruct (process_snapshot_state e inventory timestamp Hlen)
      as ((_ & _ & _ & _ & <-) & _ & _).
Qed.

Lemma deque_append_grows {A : Type} (maxlen : nat) (q : list A) (x : A) :
  (length (deque_append maxlen q x) ≤ S (length q))%nat.
Proof.
  unfold deque_append. destruct (maxlen =? 0)%nat; [lia|].
  destruct (maxlen <? length (q ++ [x]))%nat;
    rewrite ?tail_length, length_app; simpl; lia.
Qed.

Lemma run_warm_up e snapshots k events :
  (run e snapshots).2 !! k = Some events →
  Z.of_nat (length (snapshot_history e)) + Z.of_nat k < confirm_intervals e →
  events = [].
Proof.
  revert e k. induction snapshots as [|[inventory timestamp] rest IH]; intros e k; simpl.
  { done. }
  pose proof (process_snapshot_short e inventory timestamp) as Hshort.
  pose proof (process_snapshot_settings e inventory timestamp) as (Hc & _).
  pose proof (process_snapshot_history e inventory timestamp) as Hh.
  pose proof (deque_append_grows (Z.to_nat (confirm_intervals e + 1))
                (snapshot_history e) (timestamp, inventory)) as Hgrow.
  destruct (process_snapshot e inventory timestamp) as [e1 evs].
  specialize (IH e1). destruct (run e1 rest) as [e2 later]. simpl in *.
  destruct k as [|k]; simpl.
  - intros [= <-] Hk. apply Hshort. lia.
  - intros Hlater Hk. apply (IH k Hlater). rewrite Hc, Hh. lia.
Qed.

(** X8 ([process_snapshot], [_validate_decrease],
    [_validate_total_decrease]): a newly constructed engine returns no
    event, attributed or not, on its first [confirm_intervals] calls,
    whatever the snapshots are. *)
Theorem warm_up_is_silent c thr cd si snapshots ticks k events :
  fresh_sales_run c thr cd si snapshots = Some ticks →
  ticks !! k = Some events →
  Z.of_nat k < c →
  events = [].
Proof.
  unfold fresh_sales_run, __init__. destruct (c + 1 <? 0); [done|]. simpl.
  intros [= <-] Hk Hlt. eapply run_warm_up; [done|]. simpl. lia.
Qed.

Lemma warm_up_is_silent_witness : @nil SaleEvent = [].
Proof.
  apply (warm_up_is_silent 2 2 10 5 steady_decrease
           [ []; []; [unknown_sale 4 36 32 10]; [unknown_sale 4 32 28 15];
             [unknown_sale 4 28 24 20] ] 1 []).
  - vm_compute. reflexivity.
  - reflexivity.
  - lia.
Defined.

(** *** Quantities are positive *)

Lemma process_snapshot_pending_negative e inventory timestamp :
  pending_negative e → pending_negative (process_snapshot e inventory timestamp).1.
Proof.
  intros Hneg p entries.
  destruct (decide (length (snapshot_history
              (append_snapshot e inventory timestamp)) < 2)%nat) as [Hsmall | Hlen].
  { rewrite append_snapshot_length_small by done. apply Hneg. }
  apply Nat.nlt_ge in Hlen.
  intros (_ & base & -> & Hbase)%process_snapshot_pending; [|done].
  apply Forall_forall. intros x [_ Hx]%list_elem_of_filter. revert x Hx.
  apply Forall_forall.
  destruct Hbase as [Hold | (delta & Hdelta & _ & ->)]; [by eapply Hneg|].
  apply Forall_app. split; [|by repeat constructor].
  destruct (pending_decreases e !! p) as [old|] eqn:Hold; simpl; [|constructor].
  by eapply Hneg.
Qed.

Lemma process_snapshot_quantity_positive e inventory timestamp ev :
  pending_negative e →
  ev ∈ (process_snapshot e inventory timestamp).2 →
  0 < quantity_delta ev.
Proof.
  intros Hneg.
  destruct (process_snapshot_cases e inventory timestamp)
    as [-> | [(Hlen & ->) | (Hlen & _ & Htotal & _ & ->)]].
  - intros Hin. apply elem_of_nil in Hin. destruct Hin.
  - intros (p & _ & Hev)%attribute_products_events; [|apply tick_products_NoDup].
    apply attribute_product_event_delta in Hev. cbv zeta in Hev.
    destruct Hev as (Hle & _ & _ & _ & _ & _ & ts0 & d0 & rest & Hq & -> & _).
    destruct (_ <? 0) eqn:Hlt; [lia|].
    assert (dict_get (current_inventory (append_snapshot e inventory timestamp)) p 0
            - dict_get (previous_inventory (append_snapshot e inventory timestamp)) p 0
            = 0) as H0 by lia.
    rewrite H0, record_delta_stable in Hq.
    apply Hneg in Hq. apply Forall_cons in Hq as [Hd0 _]. simpl in Hd0. lia.
  - intros ->%list_elem_of_singleton. simpl. lia.
Qed.

Lemma run_quantity_positive e snapshots ev :
  pending_negative e → ev ∈ concat (run e snapshots).2 → 0 < quantity_delta ev.
Proof.
  revert e. induction snapshots as [|[inventory timestamp] rest IH]; intros e Hneg; simpl.
  { intros Hin. apply elem_of_nil in Hin. destruct Hin. }
  pose proof (process_snapshot_pending_negative e inventory timestamp Hneg) as Hneg1.
  pose proof (process_snapshot_quantity_positive e inventory timestamp ev Hneg) as Hpos.
  destruct (process_snapshot e inventory timestamp) as [e1 evs].
  specialize (IH e1 Hneg1). destruct (run e1 rest) as [e2 later]. simpl in *.
  intros [Hin | Hin]%elem_of_app; [by apply Hpos | by apply IH].
Qed.

(** X9 ([_detect_attributed_sales]): every event
    that a newly constructed engine ever returns, attributed or not, has a
    strictly positive quantity, for every configuration (also a zero or
    negative [min_delta_threshold]). *)
Theorem sale_quantity_positive c thr cd si snapshots ticks ev :
  fresh_sales_run c thr cd si snapshots = Some ticks →
  ev ∈ concat ticks →
  0 < quantity_delta ev.
Proof.
  unfold fresh_sales_run, __init__. destruct (c + 1 <? 0); [done|]. simpl.
  intros [= <-]. apply run_quantity_positive.
  intros p entries. simpl. by rewrite lookup_empty.
Qed.

Lemma sale_quantity_positive_witness : 0 < quantity_delta (unknown_sale 4 32 28 15).
Proof.
  apply (sale_quantity_positive 2 2 10 5 steady_decrease
           [ []; []; [unknown_sale 4 36 32 10]; [unknown_sale 4 32 28 15];
             [unknown_sale 4 28 24 20] ]).
  - vm_compute. reflexivity.
  - simpl. right. left.
Defined.

End confirmation.

(** ** Inventories that never decrease *)

Section restocking.
Import SalesAttribution.

Implicit Types (e : SalesAttributionEngine) (p q : string) (ev : SaleEvent).

Lemma set_pending_decreases_same e :
  set_pending_decreases e (pending_decreases e) = e.
Proof. by destruct e. Qed.

Lemma record_delta_no_decrease e p now delta :
  0 ≤ delta → pending_decreases e !! p = None →
  record_delta e p now delta = pending_decreases e.
Proof.
  intros Hdelta Hnone. unfold record_delta. rewrite Hnone.
  destruct (delta <? 0) eqn:Hlt; [lia|]. simpl.
  by repeat case_match.
Qed.

Lemma attribute_products_no_decrease now cur prev e l :
  pending_decreases e = ∅ →
  (∀ p, dict_get prev p 0 ≤ dict_get cur p 0) →
  attribute_products now cur prev e l = (e, []).
Proof.
  intros Hempty Hle. induction l as [|p l IH]; simpl; [done|].
  assert (attribute_product now cur prev e p = (e, None)) as ->.
  { unfold attribute_product. cbv zeta.
    rewrite record_delta_no_decrease, set_pending_decreases_same;
      [|specialize (Hle p); lia | by rewrite Hempty, lookup_empty].
    by rewrite Hempty, lookup_empty. }
  by rewrite IH.
Qed.

Lemma sum_nonnegative {A : Type} (f : A → Z) (l : list A) :
  (∀ x, 0 ≤ f x) → 0 ≤ foldr Z.add 0 (f <$> l).
Proof.
  intros Hf. induction l as [|x l IH]; csimpl; [lia|]. specialize (Hf x). lia.
Qed.

(** A tick on which no count dropped, met with nothing pending, returns
    nothing and leaves nothing pending. *)
Lemma process_snapshot_no_decrease e inventory timestamp :
  let e1 := append_snapshot e inventory timestamp in
  pending_decreases e = ∅ →
  ((2 ≤ length (snapshot_history e1))%nat →
   ∀ p, dict_get (previous_inventory e1) p 0 ≤ dict_get (current_inventory e1) p 0) →
  (process_snapshot e inventory timestamp).2 = []
  ∧ pending_decreases (process_snapshot e inventory timestamp).1 = ∅.
Proof.
  cbv zeta. intros Hempty Hle.
  destruct (decide (length (snapshot_history
              (append_snapshot e inventory timestamp)) < 2)%nat) as [Hsmall | Hlen].
  { by rewrite append_snapshot_length_small. }
  apply Nat.nlt_ge in Hlen. specialize (Hle Hlen).
  rewrite process_snapshot_unfold. cbv zeta.
  pose proof Hlen as Hlen'. apply Nat.ltb_ge in Hlen'. rewrite Hlen'.
  rewrite (detect_unfold _ timestamp Hlen).
  set (e1 := append_snapshot e inventory timestamp) in *.
  rewrite attribute_products_no_decrease by done.
  unfold unattributed_fallback. cbv zeta.
  assert (dict_sum (current_inventory e1) - dict_sum (previous_inventory e1) <? 0 = false)
    as ->.
  { apply Z.ltb_ge. rewrite <- sum_of_deltas_total. apply sum_nonnegative.
    intros p. unfold tick_delta. specialize (Hle p). lia. }
  simpl. split; [done|]. change (pending_decreases e1) with (pending_decreases e).
  rewrite Hempty. apply omap_empty.
Qed.

(** The newest snapshot of a history that is not empty. *)
Lemma append_snapshot_current e inventory timestamp :
  (length (snapshot_history e) ≤ Z.to_nat (confirm_intervals e + 1))%nat →
  snapshot_history (append_snapshot e inventory timestamp) ≠ [] →
  current_inventory (append_snapshot e inventory timestamp) = inventory.
Proof.
  intros Hbound. unfold current_inventory. simpl. unfold deque_append.
  destruct (Z.to_nat (confirm_intervals e + 1) =? 0)%nat eqn:H0.
  { apply Nat.eqb_eq in H0. rewrite H0 in Hbound.
    destruct (snapshot_history e); [done | simpl in Hbound; lia]. }
  intros _. destruct (_ <? _)%nat eqn:Hfull.
  - destruct (snapshot_history e) as [|a q] eqn:Hq; simpl.
    { apply Nat.ltb_lt in Hfull. simpl in Hfull. apply Nat.eqb_neq in H0. lia. }
    by rewrite rev_app_distr.
  - by rewrite rev_app_distr.
Qed.

Lemma run_no_decrease e snapshots events :
  pending_decreases e = ∅ →
  (length (snapshot_history e) ≤ Z.to_nat (confirm_intervals e + 1))%nat →
  never_decreasing snapshots →
  (∀ first, head snapshots = Some first → snapshot_history e ≠ [] →
            ∀ p, dict_get (current_inventory e) p 0 ≤ dict_get first.1 p 0) →
  events ∈ (run e snapshots).2 → events = [].
Proof.
  revert e. induction snapshots as [|[inventory timestamp] rest IH];
    intros e Hempty Hbound Hmono Hfirst; simpl.
  { intros Hin. apply elem_of_nil in Hin. destruct Hin. }
  pose proof (process_snapshot_no_decrease e inventory timestamp) as Hstep.
  cbv zeta in Hstep. destruct Hstep as [Hnone Hempty1]; [done | |].
  { intros Hlen p.
    destruct (append_snapshot_inventories e inventory timestamp Hbound Hlen) as [-> ->].
    apply (Hfirst (inventory, timestamp) eq_refl).
    intros Hnil. simpl in Hlen. rewrite Hnil in Hlen.
    pose proof (deque_append_grows (Z.to_nat (confirm_intervals e + 1)) []
                  (timestamp, inventory)). simpl in *. lia. }
  pose proof (process_snapshot_settings e inventory timestamp) as (Hc & _).
  pose proof (process_snapshot_history e inventory timestamp) as Hh.
  pose proof (append_snapshot_current e inventory timestamp Hbound) as Hcur.
  pose proof (deque_append_length (Z.to_nat (confirm_intervals e + 1))
                (snapshot_history e) (timestamp, inventory) Hbound) as Hbound1.
  unfold current_inventory in Hcur. rewrite <- Hh in Hcur.
  change (snapshot_history (append_snapshot e inventory timestamp))
    with (deque_append (Z.to_nat (confirm_intervals e + 1)) (snapshot_history e)
            (timestamp, inventory)) in Hh.
  rewrite <- Hh, <- Hc in Hbound1.
  destruct (process_snapshot e inventory timestamp) as [e1 evs].
  specialize (IH e1). destruct (run e1 rest) as [e2 later]. simpl in *.
  intros [-> | Hin]%elem_of_cons; [done|].
  apply IH; try done.
  - intros i a b p Ha Hb. by apply (Hmono (S i) a b p).
  - intros first Hhead Hne p. unfold current_inventory. rewrite Hcur by done.
    destruct rest as [|second rest']; simplify_eq/=.
    by apply (Hmono 0%nat (inventory, timestamp) first p).
Qed.

(** X10 ([process_snapshot],
    [_detect_attributed_sales]; the case of [test_no_false_positives]
    generalised): if no product's count ever drops from one snapshot to
    the next, a newly constructed engine returns no event on any call,
    whatever the timestamps and the configuration. *)
Theorem restocking_never_sells c thr cd si snapshots ticks events :
  fresh_sales_run c thr cd si snapshots = Some ticks →
  never_decreasing snapshots →
  events ∈ ticks →
  events = [].
Proof.
  unfold fresh_sales_run, __init__. destruct (c + 1 <? 0); [done|]. simpl.
  intros [= <-] Hmono. apply run_no_decrease; simpl; try done. lia.
Qed.

Lemma restocking_never_sells_witness : @nil SaleEvent = [].
Proof.
  apply (restocking_never_sells 2 1 10 5
           [ ({["mango" := 5]}, 0); ({["mango" := 5]}, 5); ({["mango" := 7]}, 10) ]
           [ []; []; [] ] []).
  - vm_compute. reflexivity.
  - intros i a b p Ha Hb.
    destruct i as [|[|[|i]]]; simplify_eq/=; unfold dict_get;
      destruct (decide (p = "mango")) as [-> | Hne];
      rewrite ?lookup_singleton_eq, ?lookup_singleton_ne by done; simpl; lia.
  - left.
Defined.

End restocking.

(** ** The confirmation window, the order of the product loop and the
    cooldown statistic *)

Section window.
Import SalesAttribution.

Implicit Types (e : SalesAttributionEngine) (p q : string) (ev : SaleEvent).

Lemma newest_is_later {A : Type} (h : list A) (x y : A) (rest : list A) :
  rev h = x :: y :: rest → ∃ oldest later, h = oldest :: later ∧ x ∈ later.
Proof.
  intros Hrev. apply (f_equal (@rev A)) in Hrev. rewrite rev_involutive in Hrev.
  simpl in Hrev. subst h.
  destruct (rev rest) as [|o l]; simpl.
  - exists y, [x]. split; [done | left].
  - exists o, ((l ++ [y]) ++ [x]). split; [done|].
    apply elem_of_app. right. left.
Qed.

Lemma slice_last_all {A : Type} (n : Z) (l : list A) :
  Z.of_nat (length l) ≤ n → slice_last n l = l.
Proof.
  intros Hlen. unfold slice_last. destruct (n =? 0) eqn:H0; [done|].
  apply Z.eqb_neq in H0.
  destruct (0 <? n) eqn:Hpos; [apply Z.ltb_lt in Hpos | apply Z.ltb_ge in Hpos; lia].
  replace (length l - Z.to_nat n)%nat with 0%nat by lia. done.
Qed.

(** X11 ([_validate_decrease],
    [_detect_attributed_sales]): in a run of a newly constructed engine
    with [confirm_intervals >= 1], an attributed sale is returned only by a
    call that finds the history full, and the count it reports as
    [inventory_after], the product's count in the snapshot just fed, is
    strictly below the product's count in the oldest retained snapshot. *)
Theorem attributed_sale_below_oldest c thr cd si e0 snapshots inventory timestamp ev :
  __init__ c thr cd si = Some e0 →
  1 ≤ c →
  let e := (run e0 snapshots).1 in
  ev ∈ (process_snapshot e inventory timestamp).2 →
  validated ev = true →
  let e1 := append_snapshot e inventory timestamp in
  Z.of_nat (length (snapshot_history e1)) = c + 1
  ∧ inventory_after ev = dict_get inventory (product_name ev) 0
  ∧ ∃ oldest, head (snapshot_history e1) = Some oldest
              ∧ inventory_after ev < dict_get oldest.2 (product_name ev) 0.
Proof.
  intros Hinit Hc. cbv zeta. intros Hin Hval.
  destruct (fresh_engine_within_bound c thr cd si e0 Hinit) as (Hwithin & Hc0 & _).
  pose proof (run_within_bound e0 snapshots Hwithin) as [Hbound _].
  destruct (run_settings e0 snapshots) as (Hcrun & _).
  set (e := (run e0 snapshots).1) in *.
  assert (confirm_intervals e = c) as Hce by congruence.
  destruct (proj1 (process_snapshot_attributed e inventory timestamp ev) (conj Hin Hval))
    as (Hlen & p & _ & Hev).
  apply attribute_product_event_delta in Hev. cbv zeta in Hev.
  destruct Hev as (_ & -> & -> & _ & _ & Hok & _).
  destruct (append_snapshot_inventories e inventory timestamp Hbound Hlen) as [Hcur _].
  rewrite Hcur.
  pose proof (deque_append_length _ _ (timestamp, inventory) Hbound) as Hbound1.
  set (e1 := append_snapshot e inventory timestamp) in *.
  change (deque_append _ _ _) with (snapshot_history e1) in Hbound1.
  unfold _validate_decrease in Hok. cbv zeta in Hok.
  change (confirm_intervals e1) with (confirm_intervals e) in Hok.
  destruct (_ <? _) eqn:Hfull; [done|]. apply Z.ltb_ge in Hfull.
  assert (Z.of_nat (length (snapshot_history e1)) = c + 1) as Hexact by lia.
  rewrite slice_last_all in Hok by lia.
  assert (Z.to_nat (confirm_intervals e + 1) ≠ 0%nat) as Hmax by lia.
  destruct (deque_append_rev _ (snapshot_history e) (timestamp, inventory) Hmax Hlen)
    as (y & rest & Hrev & _).
  change (deque_append _ _ _) with (snapshot_history e1) in Hrev.
  destruct (newest_is_later _ _ _ _ Hrev) as (oldest & later & Hh & Hnew).
  rewrite Hh in Hok |- *. simpl in Hok.
  apply decrease_persisted_spec in Hok.
  rewrite Forall_fmap, Forall_forall in Hok. specialize (Hok _ Hnew). simpl in Hok.
  split_and!; [by rewrite <- Hh | done |]. by exists oldest.
Qed.

Lemma attributed_sale_below_oldest_witness :
  let e := (run (test_engine 10 [] ∅ ∅ 0 0 ∅)
              [ ({["mango" := 10]}, 0); ({["mango" := 8]}, 5) ]).1 in
  let e1 := append_snapshot e {["mango" := 7]} 10 in
  Z.of_nat (length (snapshot_history e1)) = 2 + 1
  ∧ inventory_after multi_step_sale = dict_get {["mango" := 7]} (product_name multi_step_sale) 0
  ∧ ∃ oldest, head (snapshot_history e1) = Some oldest
              ∧ inventory_after multi_step_sale
                < dict_get oldest.2 (product_name multi_step_sale) 0.
Proof.
  apply (attributed_sale_below_oldest 2 1 10 5 (test_engine 10 [] ∅ ∅ 0 0 ∅)
           [ ({["mango" := 10]}, 0); ({["mango" := 8]}, 5) ] {["mango" := 7]} 10
           multi_step_sale).
  - reflexivity.
  - lia.
  - rewrite multi_step_engine_reached. simpl. rewrite multi_step_tick3. left.
  - reflexivity.
Defined.

(** *** The order in which the products are visited *)

Lemma engine_eq e1 e2 :
  same_settings e1 e2 →
  last_sale_time e1 = last_sale_time e2 →
  pending_decreases e1 = pending_decreases e2 →
  total_sales_detected e1 = total_sales_detected e2 →
  sales_by_product e1 = sales_by_product e2 →
  false_positives_filtered e1 = false_positives_filtered e2 →
  e1 = e2.
Proof.
  destruct e1, e2. unfold same_settings. simpl.
  intros (-> & -> & -> & -> & ->) -> -> -> -> ->. done.
Qed.

Lemma attribute_products_at now cur prev e l p :
  NoDup l →
  agree_on p (if decide (p ∈ l) then (attribute_product now cur prev e p).1 else e)
    (attribute_products now cur prev e l).1.
Proof.
  intros Hnd. destruct (decide (p ∈ l)) as [Hin | Hout].
  - by apply attribute_products_state.
  - by apply attribute_products_frame.
Qed.

(** Two orders of visiting the same products. *)
Lemma attribute_products_perm now cur prev e l1 l2 :
  NoDup l1 → l1 ≡ₚ l2 →
  (attribute_products now cur prev e l1).1 = (attribute_products now cur prev e l2).1
  ∧ (attribute_products now cur prev e l1).2 ≡ₚ (attribute_products now cur prev e l2).2.
Proof.
  intros Hnd1 Hperm.
  assert (NoDup l2) as Hnd2 by by rewrite <- Hperm.
  split.
  - pose proof (attribute_products_settings now cur prev e l1) as Hs1.
    pose proof (attribute_products_settings now cur prev e l2) as Hs2.
    pose proof (attribute_products_statistics now cur prev e l1) as [Ht1 Hb1].
    pose proof (attribute_products_statistics now cur prev e l2) as [Ht2 Hb2].
    pose proof (attribute_products_filtered now cur prev e l1) as Hf1.
    pose proof (attribute_products_filtered now cur prev e l2) as Hf2.
    assert (∀ p, agree_on p (attribute_products now cur prev e l1).1
                           (attribute_products now cur prev e l2).1) as Hagree.
    { intros p.
      pose proof (attribute_products_at now cur prev e l1 p Hnd1) as H1.
      pose proof (attribute_products_at now cur prev e l2 p Hnd2) as H2.
      destruct (decide (p ∈ l1)) as [Hin | Hout];
        destruct (decide (p ∈ l2)) as [Hin' | Hout'];
        try (by eapply agree_on_trans; [apply agree_on_sym, H1 | apply H2]).
      - rewrite Hperm in Hin. done.
      - rewrite <- Hperm in Hin'. done. }
    apply engine_eq; try congruence.
    + eapply same_settings_trans; [apply same_settings_sym, Hs1 | apply Hs2].
    + apply map_eq. intros p. by destruct (Hagree p) as (_ & _ & ?).
    + apply map_eq. intros p. by destruct (Hagree p) as (_ & ? & _).
  - apply NoDup_Permutation.
    + eapply (NoDup_fmap_1 product_name), sublist_NoDup;
        [apply Hnd1 | apply attribute_products_names].
    + eapply (NoDup_fmap_1 product_name), sublist_NoDup;
        [apply Hnd2 | apply attribute_products_names].
    + intros ev. rewrite !attribute_products_events by done.
      by setoid_rewrite Hperm.
Qed.

(** X12 ([_detect_attributed_sales], the
    loop [for product_name in all_products] over a Python [set], whose
    iteration order is not specified): whatever the order in which the
    products are visited, the loop leaves the engine in the same state and
    appends the same events, up to their order in the list. *)
Theorem product_loop_order_independent now cur prev e l1 l2 :
  NoDup l1 → l1 ≡ₚ l2 →
  (attribute_products now cur prev e l1).1 = (attribute_products now cur prev e l2).1
  ∧ (attribute_products now cur prev e l1).2 ≡ₚ (attribute_products now cur prev e l2).2.
Proof. apply attribute_products_perm. Qed.

Lemma product_loop_order_independent_witness :
  (attribute_products 10 {["mango" := 7]} {["mango" := 8]}
     (append_snapshot multi_step_engine {["mango" := 7]} 10) ["kiwi"; "mango"]).1
  = (attribute_products 10 {["mango" := 7]} {["mango" := 8]}
       (append_snapshot multi_step_engine {["mango" := 7]} 10) ["mango"; "kiwi"]).1
  ∧ (attribute_products 10 {["mango" := 7]} {["mango" := 8]}
       (append_snapshot multi_step_engine {["mango" := 7]} 10) ["kiwi"; "mango"]).2
    ≡ₚ (attribute_products 10 {["mango" := 7]} {["mango" := 8]}
          (append_snapshot multi_step_engine {["mango" := 7]} 10) ["mango"; "kiwi"]).2.
Proof.
  apply product_loop_order_independent.
  - apply NoDup_cons_2; [|apply NoDup_singleton].
    intros Hin. apply list_elem_of_singleton in Hin. discriminate Hin.
  - apply perm_swap.
Defined.

(** *** Products on cooldown *)

Lemma check_cooldown_refuses e p now :
  _check_cooldown e p now = false
  ↔ ∃ t, last_sale_time e !! p = Some t ∧ now - t < cooldown_seconds e.
Proof.
  unfold _check_cooldown. destruct (last_sale_time e !! p) as [t|]; cbv zeta.
  - destruct (now - t <? cooldown_seconds e) eqn:Hlt.
    + split; [|done]. intros _. exists t. split; [done | lia].
    + split; [done|]. intros (? & [= <-] & ?). lia.
  - split; [done|]. by intros (? & ? & _).
Qed.

(** X13 ([get_statistics],
    [_check_cooldown]): the ['products_on_cooldown'] entry read at time
    [now] is the number of products for which [_check_cooldown] would
    refuse a sale at [now]; it is zero exactly when no product is
    refused. *)
Theorem products_on_cooldown_counts_refusals e now :
  stat_products_on_cooldown (get_statistics e now)
  = Z.of_nat (size (filter (λ p, _check_cooldown e p now = false)
                      (dom (last_sale_time e))))
  ∧ (stat_products_on_cooldown (get_statistics e now) = 0
     ↔ ∀ p, _check_cooldown e p now = true).
Proof.
  simpl. split.
  - f_equal. rewrite <- size_dom. f_equal. apply set_eq. intros p.
    rewrite elem_of_dom, elem_of_filter, elem_of_dom, check_cooldown_refuses.
    unfold is_Some. setoid_rewrite map_lookup_filter_Some. simpl.
    split; [intros (t & Ht & Hlt) | intros ((t & Ht & Hlt) & _)]; eauto.
  - rewrite <- Nat2Z.inj_0, Nat2Z.inj_iff, map_size_empty_iff, map_empty_filter.
    split.
    + intros Hall p. destruct (_check_cooldown e p now) eqn:Hp; [done|].
      apply check_cooldown_refuses in Hp as (t & Ht & Hlt).
      by destruct (Hall p t Ht).
    + intros Hall p t Ht Hlt. simpl in Hlt.
      assert (_check_cooldown e p now = false) as Hp
        by (apply check_cooldown_refuses; eauto).
      rewrite Hall in Hp. done.
Qed.

End window.

(** ** Small decreases, and the state after a sale *)

Section threshold.
Import SalesAttribution.

Implicit Types (e : SalesAttributionEngine) (p q : string) (ev : SaleEvent).

Lemma record_delta_unrecorded e p now delta :
  pending_decreases e !! p = None →
  (delta < 0 → Z.abs delta < min_delta_threshold e) →
  record_delta e p now delta = pending_decreases e.
Proof.
  intros Hnone Hsmall. unfold record_delta. rewrite Hnone.
  destruct ((delta <? 0) && (Z.abs delta >=? min_delta_threshold e)) eqn:Hrec.
  { apply andb_true_iff in Hrec as [Hneg Hbig]. lia. }
  by repeat case_match.
Qed.

Lemma attribute_products_unrecorded now cur prev e l :
  pending_decreases e = ∅ →
  (∀ p, dict_get prev p 0 - dict_get cur p 0 < min_delta_threshold e) →
  attribute_products now cur prev e l = (e, []).
Proof.
  intros Hempty Hsmall. induction l as [|p l IH]; simpl; [done|].
  assert (attribute_product now cur prev e p = (e, None)) as ->.
  { unfold attribute_product. cbv zeta.
    rewrite record_delta_unrecorded, set_pending_decreases_same;
      [|by rewrite Hempty, lookup_empty | specialize (Hsmall p); lia].
    by rewrite Hempty, lookup_empty. }
  by rewrite IH.
Qed.

Lemma process_snapshot_unrecorded e inventory timestamp :
  let e1 := append_snapshot e inventory timestamp in
  pending_decreases e = ∅ →
  ((2 ≤ length (snapshot_history e1))%nat →
   ∀ p, dict_get (previous_inventory e1) p 0 - dict_get (current_inventory e1) p 0
        < min_delta_threshold e) →
  (∀ ev, ev ∈ (process_snapshot e inventory timestamp).2 → validated ev = false)
  ∧ pending_decreases (process_snapshot e inventory timestamp).1 = ∅.
Proof.
  cbv zeta. intros Hempty Hsmall.
  destruct (decide (length (snapshot_history
              (append_snapshot e inventory timestamp)) < 2)%nat) as [Hshort | Hlen].
  { rewrite append_snapshot_length_small by done. split; [|done].
    intros ev Hin. apply elem_of_nil in Hin. destruct Hin. }
  apply Nat.nlt_ge in Hlen. specialize (Hsmall Hlen).
  destruct (process_snapshot_state e inventory timestamp Hlen) as (_ & _ & Hpending).
  set (e1 := append_snapshot e inventory timestamp) in *.
  assert (attribute_products timestamp (current_inventory e1) (previous_inventory e1)
            e1 (tick_products e1) = (e1, [])) as Hloop
    by by apply attribute_products_unrecorded.
  split.
  - destruct (process_snapshot_cases e inventory timestamp)
      as [-> | [(_ & ->) | (_ & _ & _ & _ & ->)]].
    + intros ev Hin. apply elem_of_nil in Hin. destruct Hin.
    + fold e1. rewrite Hloop. intros ev Hin. apply elem_of_nil in Hin. destruct Hin.
    + by intros ev ->%list_elem_of_singleton.
  - rewrite Hpending, Hloop. simpl. rewrite Hempty. apply omap_empty.
Qed.

Lemma run_unrecorded e snapshots ev :
  pending_decreases e = ∅ →
  (length (snapshot_history e) ≤ Z.to_nat (confirm_intervals e + 1))%nat →
  drops_below (min_delta_threshold e) snapshots →
  (∀ first, head snapshots = Some first → snapshot_history e ≠ [] →
            ∀ p, dict_get (current_inventory e) p 0 - dict_get first.1 p 0
                 < min_delta_threshold e) →
  ev ∈ concat (run e snapshots).2 → validated ev = false.
Proof.
  revert e. induction snapshots as [|[inventory timestamp] rest IH];
    intros e Hempty Hbound Hsmall Hfirst; simpl.
  { intros Hin. apply elem_of_nil in Hin. destruct Hin. }
  pose proof (process_snapshot_unrecorded e inventory timestamp) as Hstep.
  cbv zeta in Hstep. destruct Hstep as [Hnone Hempty1]; [done | |].
  { intros Hlen p.
    destruct (append_snapshot_inventories e inventory timestamp Hbound Hlen) as [-> ->].
    apply (Hfirst (inventory, timestamp) eq_refl).
    intros Hnil. simpl in Hlen. rewrite Hnil in Hlen.
    pose proof (deque_append_grows (Z.to_nat (confirm_intervals e + 1)) []
                  (timestamp, inventory)). simpl in *. lia. }
  pose proof (process_snapshot_settings e inventory timestamp) as (Hc & Hthr & _).
  pose proof (process_snapshot_history e inventory timestamp) as Hh.
  pose proof (append_snapshot_current e inventory timestamp Hbound) as Hcur.
  pose proof (deque_append_length (Z.to_nat (confirm_intervals e + 1))
                (snapshot_history e) (timestamp, inventory) Hbound) as Hbound1.
  unfold current_inventory in Hcur. rewrite <- Hh in Hcur.
  change (snapshot_history (append_snapshot e inventory timestamp))
    with (deque_append (Z.to_nat (confirm_intervals e + 1)) (snapshot_history e)
            (timestamp, inventory)) in Hh.
  rewrite <- Hh, <- Hc in Hbound1.
  destruct (process_snapshot e inventory timestamp) as [e1 evs].
  specialize (IH e1). destruct (run e1 rest) as [e2 later]. simpl in *.
  intros [Hin | Hin]%elem_of_app; [by apply Hnone|].
  apply IH; try done.
  - rewrite Hthr. intros i a b p Ha Hb. by apply (Hsmall (S i) a b p).
  - rewrite Hthr. intros first Hhead Hne p. unfold current_inventory.
    rewrite Hcur by done.
    destruct rest as [|second rest']; simplify_eq/=.
    by apply (Hsmall 0%nat (inventory, timestamp) first p).
Qed.

(** X14 ([_detect_attributed_sales],
    the test [abs(delta) >= self.min_delta_threshold]): if no product's
    count ever drops by [min_delta_threshold] or more from one snapshot to
    the next, a newly constructed engine never returns an attributed sale;
    whatever it returns is an unvalidated ["Unknown"] event of the
    fallback. *)
Theorem small_decreases_are_never_attributed c thr cd si snapshots ticks ev :
  fresh_sales_run c thr cd si snapshots = Some ticks →
  drops_below thr snapshots →
  ev ∈ concat ticks →
  validated ev = false.
Proof.
  unfold fresh_sales_run, __init__. destruct (c + 1 <? 0); [done|]. simpl.
  intros [= <-] Hsmall. apply run_unrecorded; simpl; try done. lia.
Qed.

Lemma small_decreases_are_never_attributed_witness :
  validated (unknown_sale 4 36 32 10) = false.
Proof.
  apply (small_decreases_are_never_attributed 2 2 10 5 steady_decrease
           [ []; []; [unknown_sale 4 36 32 10]; [unknown_sale 4 32 28 15];
             [unknown_sale 4 28 24 20] ]).
  - vm_compute. reflexivity.
  - intros i a b p Ha Hb.
    assert (∀ n, dict_get (crate n) p 0 = if decide (p ∈ ["apple"; "kiwi"; "mango"; "pear"])
                                          then n else 0) as Hcrate.
    { intros n. unfold dict_get, crate.
      destruct (decide (p = "apple")) as [-> | ?]; [by rewrite lookup_insert_eq|].
      rewrite lookup_insert_ne by done.
      destruct (decide (p = "kiwi")) as [-> | ?]; [by rewrite lookup_insert_eq|].
      rewrite lookup_insert_ne by done.
      destruct (decide (p = "mango")) as [-> | ?]; [by rewrite lookup_insert_eq|].
      rewrite lookup_insert_ne by done.
      destruct (decide (p = "pear")) as [-> | ?]; [by rewrite lookup_singleton_eq|].
      rewrite lookup_singleton_ne by done. simpl.
      destruct (decide _) as [Hin | _]; [|done].
      repeat (apply elem_of_cons in Hin as [-> | Hin]; [done|]).
      by apply elem_of_nil in Hin. }
    destruct i as [|[|[|[|[|i]]]]]; simplify_eq/=; rewrite !Hcrate;
      destruct (decide _); lia.
  - simpl. left.
Defined.

(** X15 ([_detect_attributed_sales]): after a
    call that returned an attributed sale of a product, the cooldown record
    of that product is the timestamp of the call, its pending list is
    gone, and [_check_cooldown] refuses the product at every time less than
    [cooldown_seconds] later. *)
Theorem attributed_sale_updates_state e inventory timestamp ev :
  ev ∈ (process_snapshot e inventory timestamp).2 →
  validated ev = true →
  let r := process_snapshot e inventory timestamp in
  last_sale_time r.1 !! product_name ev = Some timestamp
  ∧ pending_decreases r.1 !! product_name ev = None
  ∧ ∀ later, later - timestamp < cooldown_seconds e →
             _check_cooldown r.1 (product_name ev) later = false.
Proof.
  intros Hin Hval. cbv zeta.
  destruct (proj1 (process_snapshot_attributed e inventory timestamp ev) (conj Hin Hval))
    as (Hlen & p & Hp & Hev).
  destruct (process_snapshot_state e inventory timestamp Hlen)
    as ((_ & _ & Hcd & _) & Hlast & Hpending).
  set (e1 := append_snapshot e inventory timestamp) in *.
  destruct (attribute_products_state timestamp (current_inventory e1)
              (previous_inventory e1) e1 (tick_products e1) p
              (tick_products_NoDup e1) Hp) as (_ & Hpend_p & Hlast_p).
  assert (product_name ev = p
          ∧ last_sale_time (attribute_product timestamp (current_inventory e1)
                              (previous_inventory e1) e1 p).1 !! p = Some timestamp
          ∧ pending_decreases (attribute_product timestamp (current_inventory e1)
                                 (previous_inventory e1) e1 p).1 !! p = Some [])
    as (-> & Hl & Hq).
  { revert Hev. rewrite attribute_product_unfold. cbv zeta.
    destruct (record_delta e1 p timestamp _ !! p) as [[|[ts0 d0] rest]|]; [done | | done].
    destruct (_validate_decrease e1 p timestamp); [|done].
    destruct (_check_cooldown e1 p timestamp); [|done].
    simpl. intros [= <-]. simpl. by rewrite !lookup_insert_eq. }
  assert (last_sale_time (process_snapshot e inventory timestamp).1 !! p
          = Some timestamp) as Hrecord by (rewrite Hlast, <- Hlast_p; exact Hl).
  split_and!.
  - done.
  - rewrite Hpending, cleanup_lookup, <- Hpend_p, Hq. done.
  - intros later Hlater. unfold _check_cooldown. rewrite Hrecord. cbv zeta.
    rewrite <- Hcd. change (cooldown_seconds e1) with (cooldown_seconds e).
    destruct (_ <? _) eqn:Hlt; [done | lia].
Qed.

Lemma attributed_sale_updates_state_witness :
  let r := process_snapshot multi_step_engine {["mango" := 7]} 10 in
  last_sale_time r.1 !! product_name multi_step_sale = Some 10
  ∧ pending_decreases r.1 !! product_name multi_step_sale = None
  ∧ ∀ later, later - 10 < cooldown_seconds multi_step_engine →
             _check_cooldown r.1 (product_name multi_step_sale) later = false.
Proof.
  apply (attributed_sale_updates_state multi_step_engine {["mango" := 7]} 10
           multi_step_sale).
  - rewrite multi_step_tick3. left.
  - reflexivity.
Defined.

End threshold.

(** ** The snapshot schedule of the tracker *)

Section schedule.
Import SalesAttribution.

Implicit Types (e : SalesAttributionEngine) (p q : string) (ev : SaleEvent).

(** *** Aged lists *)

Lemma filter_rev {A : Type} (P : A → Prop) `{∀ x, Decision (P x)} (l : list A) :
  filter P (rev l) = rev (filter P l).
Proof.
  induction l as [|a l IH]; simpl; [done|].
  rewrite filter_app, IH. destruct (decide (P a)).
  - rewrite !filter_cons_True by done. done.
  - rewrite !filter_cons_False by done. by rewrite app_nil_r.
Qed.

Lemma filter_lookup_ge {A : Type} (P : A → Prop) `{∀ x, Decision (P x)}
    (l : list A) (k : nat) (x : A) :
  filter P l !! k = Some x → ∃ j, (k ≤ j)%nat ∧ l !! j = Some x.
Proof.
  revert k. induction l as [|a l IH]; intros k; [done|].
  destruct (decide (P a)).
  - rewrite filter_cons_True by done. destruct k as [|k]; simpl.
    + intros [= <-]. exists 0%nat. split; [lia | done].
    + intros (j & Hj & Hx)%IH. exists (S j). split; [lia | done].
  - rewrite filter_cons_False by done.
    intros (j & Hj & Hx)%IH. exists (S j). split; [lia | done].
Qed.

Lemma entries_aged_filter (P : Z * Z → Prop) `{∀ x, Decision (P x)}
    (interval now : Z) (entries : list (Z * Z)) :
  0 ≤ interval →
  entries_aged interval now entries → entries_aged interval now (filter P entries).
Proof.
  intros Hpos Haged k x. rewrite <- filter_rev.
  intros (j & Hj & Hx)%filter_lookup_ge. specialize (Haged j x Hx). nia.
Qed.

Lemma entries_aged_later (interval now later : Z) (entries : list (Z * Z)) :
  now ≤ later → entries_aged interval now entries → entries_aged interval later entries.
Proof. intros Hle Haged k x Hx. specialize (Haged k x Hx). lia. Qed.

Lemma entries_aged_append (interval now later delta : Z) (entries : list (Z * Z)) :
  interval ≤ later - now →
  entries_aged interval now entries →
  entries_aged interval later (entries ++ [(later, delta)]).
Proof.
  intros Hgap Haged k x. rewrite rev_app_distr. simpl.
  destruct k as [|k]; simpl.
  - intros [= <-]. simpl. lia.
  - intros Hx. specialize (Haged k x Hx). lia.
Qed.

Lemma entries_aged_nil (interval now : Z) : entries_aged interval now [].
Proof. by intros k x. Qed.

Lemma entries_aged_bound (interval now bound : Z) (entries : list (Z * Z)) :
  0 < interval → 0 ≤ bound →
  entries_aged interval now entries →
  Forall (λ x, now - x.1 < interval * bound) entries →
  Z.of_nat (length entries) ≤ bound.
Proof.
  intros Hpos Hbound Haged Hyoung.
  destruct (rev entries) as [|x rest] eqn:Hrev.
  { apply (f_equal length) in Hrev. rewrite length_rev in Hrev. simpl in Hrev. lia. }
  assert (length entries = S (length rest)) as Hlen.
  { apply (f_equal length) in Hrev. by rewrite length_rev in Hrev. }
  destruct (lookup_lt_is_Some_2 (x :: rest) (length rest)) as [oldest Hk];
    [simpl; lia|].
  rewrite <- Hrev in Hk. specialize (Haged _ _ Hk).
  assert (oldest ∈ entries) as Hin.
  { apply list_elem_of_In, in_rev, list_elem_of_In.
    by eapply list_elem_of_lookup_2. }
  rewrite Forall_forall in Hyoung. specialize (Hyoung _ Hin). simpl in Hyoung.
  rewrite Hlen. nia.
Qed.

(** *** Spaced histories *)

Lemma deque_append_spaced {A : Type} (maxlen : nat) (q : list (Z * A)) (x : Z * A)
    (gap : Z) :
  (∀ i a b, q !! i = Some a → q !! S i = Some b → gap ≤ b.1 - a.1) →
  (∀ a, last q = Some a → gap ≤ x.1 - a.1) →
  ∀ i a b, deque_append maxlen q x !! i = Some a →
           deque_append maxlen q x !! S i = Some b → gap ≤ b.1 - a.1.
Proof.
  intros Hq Hlast.
  assert (∀ i a b, (q ++ [x]) !! i = Some a → (q ++ [x]) !! S i = Some b →
                   gap ≤ b.1 - a.1) as Happ.
  { intros i a b Ha Hb.
    apply lookup_app_Some in Ha as [Ha | [Hi Ha]];
      apply lookup_app_Some in Hb as [Hb | [Hi' Hb]].
    - by eapply Hq.
    - apply list_lookup_singleton_Some in Hb as [Hz <-].
      apply Hlast. rewrite last_lookup. rewrite <- Ha. f_equal. lia.
    - apply lookup_lt_Some in Hb. lia.
    - apply list_lookup_singleton_Some in Ha as [Hz _].
      apply list_lookup_singleton_Some in Hb as [Hz' _]. lia. }
  unfold deque_append. destruct (maxlen =? 0)%nat; [done|].
  destruct (maxlen <? length (q ++ [x]))%nat; [|done].
  intros i a b. rewrite !lookup_tail. apply Happ.
Qed.

Lemma deque_append_last {A : Type} (maxlen : nat) (q : list A) (x a : A) :
  (length q ≤ maxlen)%nat →
  last (deque_append maxlen q x) = Some a → a = x.
Proof.
  intros Hbound. unfold deque_append.
  destruct (maxlen =? 0)%nat eqn:H0.
  { apply Nat.eqb_eq in H0. destruct q; [done | simpl in Hbound; lia]. }
  destruct (maxlen <? length (q ++ [x]))%nat.
  - destruct q as [|y q]; simpl; [done|]. rewrite last_snoc. by intros [= <-].
  - rewrite last_snoc. by intros [= <-].
Qed.

(** *** One due snapshot *)

Lemma small_history_nothing_pending e inventory timestamp :
  history_within_bound e →
  (length (snapshot_history (append_snapshot e inventory timestamp)) < 2)%nat →
  pending_decreases e = ∅.
Proof.
  intros [Hbound [Hempty | Htwo]] Hsmall; [done|].
  pose proof (deque_append_keeps_two (Z.to_nat (confirm_intervals e + 1))
                (snapshot_history e) (timestamp, inventory) (conj Htwo Hbound)).
  simpl in Hsmall. lia.
Qed.

Lemma process_snapshot_on_schedule interval last_time e inventory timestamp :
  on_schedule interval last_time e →
  interval ≤ timestamp - last_time →
  on_schedule interval timestamp (process_snapshot e inventory timestamp).1.
Proof.
  intros (Hsi & Hwithin & Hspaced & Hlast & Hpending) Hdue.
  pose proof (process_snapshot_settings e inventory timestamp) as (Hc & _ & _ & Hsi').
  pose proof (process_snapshot_history e inventory timestamp) as Hh.
  split_and!.
  - congruence.
  - by apply process_snapshot_within_bound.
  - rewrite Hh. simpl. apply deque_append_spaced; [done|].
    intros a Ha. specialize (Hlast a Ha). simpl. lia.
  - rewrite Hh. simpl. intros a Ha.
    apply deque_append_last in Ha; [|apply Hwithin]. subst a. simpl. lia.
  - intros Hpos p entries. rewrite Hc.
    destruct (decide (length (snapshot_history
                (append_snapshot e inventory timestamp)) < 2)%nat) as [Hsmall | Hlen].
    { rewrite append_snapshot_length_small by done. simpl.
      rewrite (small_history_nothing_pending e inventory timestamp Hwithin Hsmall).
      by rewrite lookup_empty. }
    apply Nat.nlt_ge in Hlen.
    intros (_ & base & -> & Hbase)%process_snapshot_pending; [|done].
    rewrite Hsi. split.
    + apply entries_aged_filter; [done|].
      destruct Hbase as [Hold | (delta & _ & _ & ->)].
      * apply (entries_aged_later interval last_time); [lia|].
        by eapply Hpending.
      * apply (entries_aged_append interval last_time); [done|].
        destruct (pending_decreases e !! p) as [old|] eqn:Hold; simpl.
        -- by eapply Hpending.
        -- apply entries_aged_nil.
    + apply Forall_forall. by intros x [Hx _]%list_elem_of_filter.
Qed.

Lemma fresh_engine_on_schedule c thr cd si e0 last_time :
  __init__ c thr cd si = Some e0 → on_schedule si last_time e0.
Proof.
  intros Hinit.
  destruct (fresh_engine_within_bound c thr cd si e0 Hinit) as (Hwithin & _ & Hsi).
  unfold __init__ in Hinit. destruct (c + 1 <? 0); [done|]. injection Hinit as <-.
  split_and!; try done; intros _ p entries; simpl; by rewrite lookup_empty.
Qed.

End schedule.

Section tracker.
Import InventoryPersistent.

Implicit Types (t : PersistentInventoryTracker).

Lemma update_unfold t current_inventory current_time :
  update t current_inventory current_time =
  if negb (enable_persistence t) then (t, [])
  else if current_time - last_snapshot_time t >=? snapshot_interval t then
    match sales_attribution t with
    | Some e =>
        ({| enable_persistence := enable_persistence t;
            snapshot_interval := snapshot_interval t;
            last_snapshot_time := current_time;
            sales_attribution :=
              Some (SalesAttribution.process_snapshot e current_inventory current_time).1 |},
         (SalesAttribution.process_snapshot e current_inventory current_time).2)
    | None =>
        ({| enable_persistence := enable_persistence t;
            snapshot_interval := snapshot_interval t;
            last_snapshot_time := current_time;
            sales_attribution := None |}, [])
    end
  else (t, []).
Proof.
  unfold update, _detect_and_log_sales.
  destruct (negb (enable_persistence t)); [done|].
  destruct (_ >=? _); [|done].
  destruct (sales_attribution t) as [e|] eqn:He; simpl; [|by rewrite He].
  by destruct (SalesAttribution.process_snapshot e current_inventory current_time).
Qed.

Lemma update_on_schedule t current_inventory current_time :
  (∀ e, sales_attribution t = Some e →
        on_schedule (snapshot_interval t) (last_snapshot_time t) e) →
  ∀ e, sales_attribution (update t current_inventory current_time).1 = Some e →
       on_schedule (snapshot_interval (update t current_inventory current_time).1)
         (last_snapshot_time (update t current_inventory current_time).1) e.
Proof.
  intros Ht. rewrite update_unfold.
  destruct (negb (enable_persistence t)); [done|].
  destruct (current_time - last_snapshot_time t >=? snapshot_interval t) eqn:Hdue;
    [|done].
  destruct (sales_attribution t) as [e0|] eqn:He0; simpl; [|done].
  intros e [= <-].
  apply (process_snapshot_on_schedule (snapshot_interval t) (last_snapshot_time t));
    [by apply Ht | lia].
Qed.

Lemma update_interval t current_inventory current_time :
  snapshot_interval (update t current_inventory current_time).1 = snapshot_interval t.
Proof.
  rewrite update_unfold.
  destruct (negb (enable_persistence t)); [done|].
  destruct (_ >=? _); [|done].
  by destruct (sales_attribution t).
Qed.

Lemma updates_on_schedule t calls :
  (∀ e, sales_attribution t = Some e →
        on_schedule (snapshot_interval t) (last_snapshot_time t) e) →
  snapshot_interval (updates t calls).1 = snapshot_interval t
  ∧ ∀ e, sales_attribution (updates t calls).1 = Some e →
         on_schedule (snapshot_interval t) (last_snapshot_time (updates t calls).1) e.
Proof.
  revert t. induction calls as [|[current_inventory current_time] rest IH];
    intros t Ht; simpl; [done|].
  pose proof (update_on_schedule t current_inventory current_time Ht) as H1.
  pose proof (update_interval t current_inventory current_time) as Hsi.
  destruct (update t current_inventory current_time) as [t1 logged].
  specialize (IH t1 H1). destruct (updates t1 rest) as [t2 later]. simpl in *.
  by rewrite Hsi in IH.
Qed.

Lemma init_on_schedule si enabled started c thr cd :
  ∀ e, sales_attribution (__init__ si enabled started c thr cd) = Some e →
       SalesAttribution.confirm_intervals e = c
       ∧ on_schedule si 0 e.
Proof.
  intros e. unfold __init__. simpl. destruct (enabled && started); [|done].
  intros Hinit. split; [|by eapply fresh_engine_on_schedule].
  by destruct (fresh_engine_within_bound c thr cd si e Hinit) as (_ & ? & _).
Qed.

End tracker.

(** ** What the tracker guarantees about its sales engine *)

Section tracker_guarantees.
Import InventoryPersistent.

Implicit Types (t : PersistentInventoryTracker).

Lemma tracked_engine_reached :
  sales_attribution (updates (__init__ 5 true true 1 1 60) tracked_sale).1
  = Some tracked_engine.
Proof. vm_compute. reflexivity. Qed.

(** X16 ([PersistentInventoryTracker.update],
    [_detect_and_log_sales], [_cleanup_pending_decreases]): driven by the
    tracker, which feeds the engine only when [snapshot_interval] has
    elapsed since the last snapshot, and with a positive interval, every
    pending list of the sales engine holds at most [confirm_intervals + 2]
    entries after any sequence of [update] calls, whatever the times of
    the calls. *)
Theorem tracker_pending_lists_bounded si enabled started c thr cd calls e p entries :
  0 < si →
  sales_attribution (updates (__init__ si enabled started c thr cd) calls).1 = Some e →
  SalesAttribution.pending_decreases e !! p = Some entries →
  Z.of_nat (length entries) ≤ c + 2.
Proof.
  intros Hsi He Hentries.
  destruct (updates_on_schedule (__init__ si enabled started c thr cd) calls)
    as [_ Hsched].
  { intros e0 He0. by apply init_on_schedule in He0 as [_ ?]. }
  destruct (Hsched e He) as (_ & _ & _ & _ & Hpending).
  destruct (Hpending ltac:(simpl; lia) p entries Hentries) as [Haged Hyoung].
  assert (SalesAttribution.confirm_intervals e = c ∧ 0 ≤ c + 1) as [Hc Hc0].
  { clear Hsched Hpending Haged Hyoung Hentries.
    assert (∀ t calls e,
              sales_attribution (updates t calls).1 = Some e →
              ∃ e0, sales_attribution t = Some e0
                    ∧ SalesAttribution.confirm_intervals e
                      = SalesAttribution.confirm_intervals e0) as Hkeep.
    { clear. intros t calls. revert t.
      induction calls as [|[inventory time] rest IH]; intros t e; simpl.
      { intros He. by exists e. }
      pose proof (update_unfold t inventory time) as Hu.
      destruct (update t inventory time) as [t1 logged].
      specialize (IH t1). destruct (updates t1 rest) as [t2 later]. simpl in *.
      intros (e1 & He1 & ->)%IH.
      destruct (negb (enable_persistence t)); [injection Hu as -> _; by exists e1|].
      destruct (_ >=? _); [|injection Hu as -> _; by exists e1].
      destruct (sales_attribution t) as [e0|]; injection Hu as -> _; [|done].
      simpl in He1. injection He1 as <-. exists e0. split; [done|].
      by destruct (process_snapshot_settings e0 inventory time) as (-> & _). }
    destruct (Hkeep _ _ _ He) as (e0 & He0 & ->).
    revert He0. unfold __init__. simpl. destruct (enabled && started); [|done].
    unfold SalesAttribution.__init__. destruct (c + 1 <? 0) eqn:Hneg; [done|].
    intros [= <-]. simpl. split; [done | lia]. }
  simpl in Hyoung. rewrite Hc in Hyoung.
  apply (entries_aged_bound si
           (last_snapshot_time (updates (__init__ si enabled started c thr cd) calls).1));
    [done | lia | done | done].
Qed.

Lemma tracker_pending_lists_bounded_witness :
  Z.of_nat (length [(110, -1); (115, -1); (120, -1)]) ≤ 1 + 2.
Proof.
  apply (tracker_pending_lists_bounded 5 true true 1 1 60 tracked_sale tracked_engine
           "mango").
  - lia.
  - vm_compute. reflexivity.
  - reflexivity.
Defined.

(** X17 ([PersistentInventoryTracker.update]):
    consecutive snapshots in the history of the tracker's sales engine are
    at least [snapshot_interval] apart, whatever the times of the [update]
    calls, and none is newer than [last_snapshot_time]. *)
Theorem tracker_snapshots_are_spaced si enabled started c thr cd calls e :
  sales_attribution (updates (__init__ si enabled started c thr cd) calls).1 = Some e →
  (∀ i a b, SalesAttribution.snapshot_history e !! i = Some a →
            SalesAttribution.snapshot_history e !! S i = Some b →
            si ≤ b.1 - a.1)
  ∧ (∀ a, last (SalesAttribution.snapshot_history e) = Some a →
          a.1 ≤ last_snapshot_time
                  (updates (__init__ si enabled started c thr cd) calls).1).
Proof.
  intros He.
  destruct (updates_on_schedule (__init__ si enabled started c thr cd) calls)
    as [_ Hsched].
  { intros e0 He0. by apply init_on_schedule in He0 as [_ ?]. }
  by destruct (Hsched e He) as (_ & _ & Hspaced & Hlast & _).
Qed.

Lemma tracker_snapshots_are_spaced_witness :
  (∀ i a b, SalesAttribution.snapshot_history tracked_engine !! i = Some a →
            SalesAttribution.snapshot_history tracked_engine !! S i = Some b →
            5 ≤ b.1 - a.1)
  ∧ (∀ a, last (SalesAttribution.snapshot_history tracked_engine) = Some a →
          a.1 ≤ last_snapshot_time
                  (updates (__init__ 5 true true 1 1 60) tracked_sale).1).
Proof.
  apply (tracker_snapshots_are_spaced 5 true true 1 1 60 tracked_sale tracked_engine).
  vm_compute. reflexivity.
Defined.

(** *** The log of the tracker *)

Lemma updates_are_a_run t calls e :
  enable_persistence t = true →
  sales_attribution t = Some e →
  sales_attribution (updates t calls).1
  = Some (SalesAttribution.run e
            (due_calls (snapshot_interval t) (last_snapshot_time t) calls)).1
  ∧ concat (updates t calls).2
    = concat (SalesAttribution.run e
                (due_calls (snapshot_interval t) (last_snapshot_time t) calls)).2.
Proof.
  revert t e. induction calls as [|[inventory time] rest IH]; intros t e Hon He; simpl.
  { done. }
  rewrite update_unfold, Hon, He. simpl.
  destruct (time - last_snapshot_time t >=? snapshot_interval t) eqn:Hdue.
  - specialize (IH {| enable_persistence := true;
                      snapshot_interval := snapshot_interval t;
                      last_snapshot_time := time;
                      sales_attribution :=
                        Some (SalesAttribution.process_snapshot e inventory time).1 |}
                  (SalesAttribution.process_snapshot e inventory time).1
                  eq_refl eq_refl).
    simpl in IH. simpl.
    destruct (SalesAttribution.process_snapshot e inventory time) as [e1 events].
    simpl in *.
    destruct (updates _ rest) as [t2 later].
    destruct (SalesAttribution.run e1 _) as [e2 ticks]. simpl in *.
    destruct IH as [-> ->]. done.
  - specialize (IH t e Hon He).
    destruct (updates t rest) as [t2 later]. simpl in *. done.
Qed.

(** X18 ([PersistentInventoryTracker.__init__],
    [update], [_detect_and_log_sales]): with persistence on, the sales
    that the tracker logs are exactly the events that its engine returns
    on the calls at which a snapshot is due, in the same order; a call that
    comes before [snapshot_interval] has elapsed is never shown to the
    engine. *)
Theorem tracker_logs_the_due_snapshots si c thr cd e0 calls :
  SalesAttribution.__init__ c thr cd si = Some e0 →
  sales_attribution (updates (__init__ si true true c thr cd) calls).1
  = Some (SalesAttribution.run e0 (due_calls si 0 calls)).1
  ∧ concat (updates (__init__ si true true c thr cd) calls).2
    = concat (SalesAttribution.run e0 (due_calls si 0 calls)).2.
Proof.
  intros Hinit.
  apply (updates_are_a_run (__init__ si true true c thr cd) calls e0); [done|].
  done.
Qed.

Lemma tracker_logs_the_due_snapshots_witness :
  sales_attribution (updates (__init__ 5 true true 1 1 60) tracked_sale).1
  = Some (SalesAttribution.run
            {| SalesAttribution.confirm_intervals := 1;
               SalesAttribution.min_delta_threshold := 1;
               SalesAttribution.cooldown_seconds := 60;
               SalesAttribution.snapshot_interval := 5;
               SalesAttribution.snapshot_history := [];
               SalesAttribution.last_sale_time := ∅;
               SalesAttribution.pending_decreases := ∅;
               SalesAttribution.total_sales_detected := 0;
               SalesAttribution.sales_by_product := ∅;
               SalesAttribution.false_positives_filtered := 0 |}
            (due_calls 5 0 tracked_sale)).1
  ∧ concat (updates (__init__ 5 true true 1 1 60) tracked_sale).2
    = concat (SalesAttribution.run
                {| SalesAttribution.confirm_intervals := 1;
                   SalesAttribution.min_delta_threshold := 1;
                   SalesAttribution.cooldown_seconds := 60;
                   SalesAttribution.snapshot_interval := 5;
                   SalesAttribution.snapshot_history := [];
                   SalesAttribution.last_sale_time := ∅;
                   SalesAttribution.pending_decreases := ∅;
                   SalesAttribution.total_sales_detected := 0;
                   SalesAttribution.sales_by_product := ∅;
                   SalesAttribution.false_positives_filtered := 0 |}
                (due_calls 5 0 tracked_sale)).2.
Proof.
  apply (tracker_logs_the_due_snapshots 5 1 1 60). reflexivity.
Defined.



End tracker_guarantees.

(** ** The alert cache, the alert statistics and the alerts of one
    evaluation *)

Section alert_cache.
Import Alerts.

Implicit Types (e : AlertEngine) (p : string) (a : Alert).

(** *** The loops leave the cache and the counters alone *)

Lemma low_stock_step_cache inventory timestamp e item e' alert :
  low_stock_step inventory timestamp e item = Some (e', alert) →
  total_alerts_triggered e' = total_alerts_triggered e
  ∧ alerts_by_type e' = alerts_by_type e
  ∧ active_alerts e' = active_alerts e.
Proof.
  destruct item as [p threshold]. unfold low_stock_step. cbv zeta.
  destruct (_ <=? _).
  - destruct (pending_deque _ _ p) as [q|]; simpl; [|done].
    destruct (_validate_low_stock _ p threshold).
    + unfold _check_cooldown. simpl. destruct (last_alert_time e !! _) as [t|].
      * destruct (_ <? _); by intros [= <- <-].
      * by intros [= <- <-].
    + by intros [= <- <-].
  - destruct (pending_low_stock e !! p); by intros [= <- <-].
Qed.

Lemma expiration_step_cache timestamp e item e' alert :
  expiration_step timestamp e item = Some (e', alert) →
  total_alerts_triggered e' = total_alerts_triggered e
  ∧ alerts_by_type e' = alerts_by_type e
  ∧ active_alerts e' = active_alerts e.
Proof.
  destruct item as [p freshness_data]. unfold expiration_step. cbv zeta.
  destruct (default false _).
  - destruct (pending_deque _ _ p) as [q|]; simpl; [|done].
    destruct (_validate_expiration _ p).
    + unfold _check_cooldown. simpl. destruct (last_alert_time e !! _) as [t|].
      * destruct (_ <? _); by intros [= <- <-].
      * by intros [= <- <-].
    + by intros [= <- <-].
  - destruct (pending_expiration e !! p); by intros [= <- <-].
Qed.

Lemma loops_cache e inventory freshness_state timestamp e1 low e2 exp :
  _evaluate_low_stock e inventory timestamp = Some (e1, low) →
  _evaluate_expiration e1 freshness_state timestamp = Some (e2, exp) →
  total_alerts_triggered e2 = total_alerts_triggered e
  ∧ alerts_by_type e2 = alerts_by_type e
  ∧ active_alerts e2 = active_alerts e.
Proof.
  unfold _evaluate_low_stock, _evaluate_expiration. intros Hlow Hexp.
  set (P := λ x, total_alerts_triggered x = total_alerts_triggered e
                 ∧ alerts_by_type x = alerts_by_type e
                 ∧ active_alerts x = active_alerts e).
  assert (P e1) as H1.
  { apply (for_items_invariant (low_stock_step inventory timestamp) P
             (map_to_list (low_stock_thresholds e))) with (e := e) (alerts := low);
      [|done|done].
    intros x item x' alert _ (? & ? & ?) Hstep.
    destruct (low_stock_step_cache _ _ _ _ _ _ Hstep) as (? & ? & ?).
    repeat split; congruence. }
  apply (for_items_invariant (expiration_step timestamp) P
           (map_to_list freshness_state)) with (e := e1) (alerts := exp);
    [|done|done].
  intros x item x' alert _ (? & ? & ?) Hstep.
  destruct (expiration_step_cache _ _ _ _ _ Hstep) as (? & ? & ?).
  repeat split; congruence.
Qed.

(** *** What [_process_alert] writes *)

Lemma process_alerts_counters e alerts ty :
  total_alerts_triggered (foldl _process_alert e alerts)
  = total_alerts_triggered e + Z.of_nat (length alerts)
  ∧ dict_get (alerts_by_type (foldl _process_alert e alerts)) ty 0
    = dict_get (alerts_by_type e) ty 0
      + Z.of_nat (length (filter (λ a, alert_type a = ty) alerts)).
Proof.
  revert e. induction alerts as [|a alerts IH]; intros e; simpl.
  { split; lia. }
  destruct (IH (_process_alert e a)) as [-> ->]. simpl. split; [lia|].
  unfold dict_get at 1. destruct (decide (alert_type a = ty)) as [Heq | Hne].
  - rewrite filter_cons_True by done. rewrite Heq, lookup_insert_eq. simpl. lia.
  - rewrite filter_cons_False by done. rewrite lookup_insert_ne by done.
    fold (dict_get (alerts_by_type e) ty 0). lia.
Qed.

Lemma process_alerts_cache e alerts id :
  active_alerts (foldl _process_alert e alerts) !! id
  = match last (filter (λ a, alert_id a = id) alerts) with
    | Some a => Some a
    | None => active_alerts e !! id
    end.
Proof.
  revert e. induction alerts as [|a alerts IH]; intros e; simpl; [done|].
  rewrite IH. simpl. destruct (decide (alert_id a = id)) as [Heq | Hne].
  - rewrite filter_cons_True by done.
    destruct (filter _ alerts) as [|b rest] eqn:Hf; simpl.
    + by rewrite Heq, lookup_insert_eq.
    + change (last (a :: b :: rest)) with (last (b :: rest)).
      by destruct (last (b :: rest)) eqn:Hlast;
        [|rewrite last_lookup in Hlast; apply lookup_ge_None in Hlast;
          simpl in Hlast; lia].
  - rewrite filter_cons_False by done. by rewrite lookup_insert_ne.
Qed.

(** X20 ([evaluate], [_process_alert],
    [get_statistics]): one evaluation raises ['total_alerts_triggered'] by
    the number of alerts it returns and the ['alerts_by_type'] entry of
    every type by the number of returned alerts of that type. *)
Theorem alert_statistics_count_the_alerts e inventory freshness_state timestamp
    e' alerts ty :
  evaluate e inventory freshness_state timestamp = Some (e', alerts) →
  total_alerts_triggered e' = total_alerts_triggered e + Z.of_nat (length alerts)
  ∧ dict_get (alerts_by_type e') ty 0
    = dict_get (alerts_by_type e) ty 0
      + Z.of_nat (length (filter (λ a, alert_type a = ty) alerts)).
Proof.
  intros (e1 & low & e2 & exp & Hlow & Hexp & -> & ->)%evaluate_unfold.
  destruct (loops_cache _ _ _ _ _ _ _ _ Hlow Hexp) as (Ht & Hb & _).
  destruct (process_alerts_counters e2 (low ++ exp) ty) as [-> ->].
  by rewrite Ht, Hb.
Qed.

Lemma alert_statistics_count_the_alerts_witness :
  let r := default (stockout_engine, [])
             (evaluate stockout_engine {["mango" := 0; "kiwi" := 1]}
                {["mango" := expired_record]} 5) in
  total_alerts_triggered r.1
  = total_alerts_triggered stockout_engine + Z.of_nat (length r.2)
  ∧ dict_get (alerts_by_type r.1) LOW_STOCK 0
    = dict_get (alerts_by_type stockout_engine) LOW_STOCK 0
      + Z.of_nat (length (filter (λ a, alert_type a = LOW_STOCK) r.2)).
Proof.
  apply (alert_statistics_count_the_alerts stockout_engine
           {["mango" := 0; "kiwi" := 1]} {["mango" := expired_record]} 5).
  vm_compute. reflexivity.
Defined.

(** *** The alerts of one evaluation *)

Section loop_keys.
Context {I : Type} (body : AlertEngine → I → option (AlertEngine * option Alert)).

(** The alerts of a loop come out in the order of the items, at most one
    per item. *)
Lemma for_items_keys {K : Type} (key : I → K) (f : Alert → K) items :
  (∀ e item e' a, body e item = Some (e', Some a) → f a = key item) →
  ∀ e e' alerts,
    for_items body e items = Some (e', alerts) →
    (f <$> alerts) `sublist_of` (key <$> items).
Proof.
  intros Hstep. induction items as [|item rest IH]; intros e e' alerts.
  - simpl. by intros [= <- <-].
  - intros (e1 & alert & later & Hb & Hrest & ->)%for_items_cons.
    specialize (IH _ _ _ Hrest). destruct alert as [a|]; csimpl.
    + rewrite (Hstep _ _ _ _ Hb). by apply sublist_skip.
    + by apply sublist_cons.
Qed.

End loop_keys.

Lemma low_stock_step_alert inventory timestamp e p threshold e' a :
  low_stock_step inventory timestamp e (p, threshold) = Some (e', Some a) →
  alert_type a = LOW_STOCK ∧ product_name a = p ∧ timestamp_utc a = timestamp.
Proof.
  intros Hstep.
  destruct (low_stock_step_spec _ _ _ _ _ _ _ Hstep) as (_ & _ & _ & _ & _ & -> & _).
  done.
Qed.

(** The alert that the expiration step builds. *)
Lemma expiration_step_alert timestamp e p freshness_data e' a :
  expiration_step timestamp e (p, freshness_data) = Some (e', Some a) →
  is_expired freshness_data = Some true
  ∧ a = {| alert_type := EXPIRATION;
           product_name := p;
           severity := WARNING;
           timestamp_utc := timestamp;
           metadata :=
             ExpirationMetadata (round1 (default 0%Q (age_days freshness_data)))
               (default 5 (expiration_days freshness_data))
               (first_seen_utc freshness_data) |}.
Proof.
  unfold expiration_step. cbv zeta.
  destruct (is_expired freshness_data) as [[]|] eqn:Hexp; simpl.
  - destruct (pending_deque _ _ p) as [q|]; simpl; [|done].
    destruct (_validate_expiration _ p); [|done].
    unfold _check_cooldown. simpl. destruct (last_alert_time e !! _) as [t|].
    + destruct (_ <? _); [done|]. by intros [= <- <-].
    + by intros [= <- <-].
  - by destruct (pending_expiration e !! p).
  - by destruct (pending_expiration e !! p).
Qed.

Lemma evaluate_alert_keys e inventory freshness_state timestamp e1 low e2 exp :
  _evaluate_low_stock e inventory timestamp = Some (e1, low) →
  _evaluate_expiration e1 freshness_state timestamp = Some (e2, exp) →
  NoDup (product_name <$> low) ∧ NoDup (product_name <$> exp)
  ∧ (∀ a, a ∈ low → alert_type a = LOW_STOCK ∧ timestamp_utc a = timestamp)
  ∧ (∀ a, a ∈ exp → alert_type a = EXPIRATION ∧ timestamp_utc a = timestamp).
Proof.
  unfold _evaluate_low_stock, _evaluate_expiration. intros Hlow Hexp. split_and!.
  - eapply sublist_NoDup; [apply (NoDup_fst_map_to_list (low_stock_thresholds e))|].
    apply (for_items_keys (low_stock_step inventory timestamp) fst product_name _)
      with (e := e) (e' := e1); [|done].
    intros x [p threshold] x' a Hstep.
    by destruct (low_stock_step_alert _ _ _ _ _ _ _ Hstep) as (_ & ? & _).
  - eapply sublist_NoDup; [apply (NoDup_fst_map_to_list freshness_state)|].
    apply (for_items_keys (expiration_step timestamp) fst product_name _)
      with (e := e1) (e' := e2); [|done].
    intros x [p fd] x' a Hstep.
    by destruct (expiration_step_alert _ _ _ _ _ _ Hstep) as (_ & ->).
  - intros a Ha.
    destruct (for_items_alerts (low_stock_step inventory timestamp)
                (λ _ a, alert_type a = LOW_STOCK ∧ timestamp_utc a = timestamp)
                (map_to_list (low_stock_thresholds e)))
      with (e := e) (e' := e1) (alerts := low) (a := a) as (_ & _ & ?); try done.
    intros x [p threshold] x' a' Hstep.
    by destruct (low_stock_step_alert _ _ _ _ _ _ _ Hstep) as (? & _ & ?).
  - intros a Ha.
    destruct (for_items_alerts (expiration_step timestamp)
                (λ _ a, alert_type a = EXPIRATION ∧ timestamp_utc a = timestamp)
                (map_to_list freshness_state))
      with (e := e1) (e' := e2) (alerts := exp) (a := a) as (_ & _ & ?); try done.
    intros x [p fd] x' a' Hstep.
    by destruct (expiration_step_alert _ _ _ _ _ _ Hstep) as (_ & ->).
Qed.

Lemma evaluate_alert_ids e inventory freshness_state timestamp e' alerts :
  evaluate e inventory freshness_state timestamp = Some (e', alerts) →
  NoDup (alert_key <$> alerts)
  ∧ ∀ a, a ∈ alerts → alert_id a = (alert_key a, timestamp).
Proof.
  intros (e1 & low & e2 & exp & Hlow & Hexp & -> & _)%evaluate_unfold.
  destruct (evaluate_alert_keys _ _ _ _ _ _ _ _ Hlow Hexp)
    as (Hnd_low & Hnd_exp & Hty_low & Hty_exp).
  split.
  - rewrite fmap_app. apply NoDup_app. split_and!.
    + apply (NoDup_fmap_1 snd). rewrite <- list_fmap_compose. exact Hnd_low.
    + intros k (a & -> & Ha)%list_elem_of_fmap (b & Hk & Hb)%list_elem_of_fmap.
      destruct (Hty_low a Ha) as [Hta _]. destruct (Hty_exp b Hb) as [Htb _].
      unfold alert_key in Hk. injection Hk as Hk _. rewrite Hta, Htb in Hk. done.
    + apply (NoDup_fmap_1 snd). rewrite <- list_fmap_compose. exact Hnd_exp.
  - intros a [Ha | Ha]%elem_of_app; unfold alert_id, alert_key.
    + by destruct (Hty_low a Ha) as [_ ->].
    + by destruct (Hty_exp a Ha) as [_ ->].
Qed.

(** X21 ([evaluate],
    [_evaluate_low_stock], [_evaluate_expiration]): the alerts returned by
    one evaluation have pairwise distinct (type, product) keys, whatever
    the state of the engine and also with a zero or negative cooldown. *)
Theorem one_alert_per_key_per_evaluation e inventory freshness_state timestamp
    e' alerts :
  evaluate e inventory freshness_state timestamp = Some (e', alerts) →
  NoDup (alert_key <$> alerts).
Proof. by intros [? _]%evaluate_alert_ids. Qed.

Lemma one_alert_per_key_per_evaluation_witness :
  NoDup (alert_key <$>
           (default (stockout_engine, [])
              (evaluate stockout_engine {["mango" := 0; "kiwi" := 1]}
                 {["mango" := expired_record]} 5)).2).
Proof.
  apply (one_alert_per_key_per_evaluation stockout_engine
           {["mango" := 0; "kiwi" := 1]} {["mango" := expired_record]} 5
           (default (stockout_engine, [])
              (evaluate stockout_engine {["mango" := 0; "kiwi" := 1]}
                 {["mango" := expired_record]} 5)).1).
  vm_compute. reflexivity.
Defined.

(** X22 ([_evaluate_expiration]): an expiration
    alert returned by [evaluate] is for a product whose freshness record
    says [is_expired]; its severity is always WARNING, its timestamp is the
    one of the call, and its metadata hold the record's [age_days] rounded
    to one decimal (0 when absent), its [expiration_days] (5 when absent)
    and its [first_seen_utc]. *)
Theorem expiration_alert_fields e inventory freshness_state timestamp e' alerts a :
  evaluate e inventory freshness_state timestamp = Some (e', alerts) →
  a ∈ alerts →
  alert_type a = EXPIRATION →
  ∃ freshness_data,
    freshness_state !! product_name a = Some freshness_data
    ∧ is_expired freshness_data = Some true
    ∧ severity a = WARNING
    ∧ timestamp_utc a = timestamp
    ∧ metadata a
      = ExpirationMetadata (round1 (default 0%Q (age_days freshness_data)))
          (default 5 (expiration_days freshness_data))
          (first_seen_utc freshness_data).
Proof.
  intros (e1 & low & e2 & exp & Hlow & Hexp & -> & _)%evaluate_unfold Ha Hty.
  destruct (evaluate_alert_keys _ _ _ _ _ _ _ _ Hlow Hexp) as (_ & _ & Hty_low & _).
  apply elem_of_app in Ha as [Ha | Ha].
  { destruct (Hty_low a Ha) as [Hl _]. rewrite Hl in Hty. done. }
  unfold _evaluate_expiration in Hexp.
  destruct (for_items_alerts (expiration_step timestamp)
              (λ item a,
                 is_expired item.2 = Some true
                 ∧ a = {| alert_type := EXPIRATION;
                          product_name := item.1;
                          severity := WARNING;
                          timestamp_utc := timestamp;
                          metadata :=
                            ExpirationMetadata (round1 (default 0%Q (age_days item.2)))
                              (default 5 (expiration_days item.2))
                              (first_seen_utc item.2) |})
              (map_to_list freshness_state))
    with (e := e1) (e' := e2) (alerts := exp) (a := a)
    as ([p fd] & Hitem & Hexpired & ->); try done.
  { intros x [p fd] x' a' Hstep. by apply expiration_step_alert in Hstep. }
  apply elem_of_map_to_list in Hitem. simpl in *. by exists fd.
Qed.

Lemma expiration_alert_fields_witness :
  ∃ freshness_data,
    ({["mango" := aged_record]} : gmap string FreshnessData) !! "mango"
    = Some freshness_data
    ∧ is_expired freshness_data = Some true
    ∧ WARNING = WARNING
    ∧ 5 = 5
    ∧ ExpirationMetadata 6 5 (Some 0)
      = ExpirationMetadata (round1 (default 0%Q (age_days freshness_data)))
          (default 5 (expiration_days freshness_data))
          (first_seen_utc freshness_data).
Proof.
  apply (expiration_alert_fields stockout_engine {["mango" := 0; "kiwi" := 1]}
           {["mango" := aged_record]} 5
           (default (stockout_engine, [])
              (evaluate stockout_engine {["mango" := 0; "kiwi" := 1]}
                 {["mango" := aged_record]} 5)).1
           (default (stockout_engine, [])
              (evaluate stockout_engine {["mango" := 0; "kiwi" := 1]}
                 {["mango" := aged_record]} 5)).2
           (expired_alert 5)).
  - vm_compute. reflexivity.
  - vm_compute. right. right. left.
  - reflexivity.
Defined.

End alert_cache.

(** ** Acknowledging alerts *)

Section acknowledge.
Import Alerts.

Implicit Types (e : AlertEngine) (p : string) (a : Alert).

Lemma NoDup_fmap_eq {A B : Type} (f : A → B) (l : list A) (x y : A) :
  NoDup (f <$> l) → x ∈ l → y ∈ l → f x = f y → x = y.
Proof.
  intros Hnd [i Hi]%list_elem_of_lookup_1 [j Hj]%list_elem_of_lookup_1 Heq.
  assert (i = j) as ->.
  { apply (NoDup_lookup (f <$> l) i j (f x) Hnd).
    - by rewrite list_lookup_fmap, Hi.
    - by rewrite list_lookup_fmap, Hj, Heq. }
  congruence.
Qed.

(** An alert returned by an evaluation is cached under its id. *)
Lemma evaluate_caches e inventory freshness_state timestamp e' alerts a :
  evaluate e inventory freshness_state timestamp = Some (e', alerts) →
  a ∈ alerts →
  active_alerts e' !! alert_id a = Some a.
Proof.
  intros Hev Ha. destruct (evaluate_alert_ids _ _ _ _ _ _ Hev) as [Hnd Hid].
  apply evaluate_unfold in Hev as (e1 & low & e2 & exp & Hlow & Hexp & -> & ->).
  rewrite process_alerts_cache.
  destruct (last (filter (λ b, alert_id b = alert_id a) (low ++ exp))) as [b|] eqn:Hlast.
  - assert (b ∈ filter (λ b, alert_id b = alert_id a) (low ++ exp)) as Hb.
    { rewrite last_lookup in Hlast. by eapply list_elem_of_lookup_2. }
    apply list_elem_of_filter in Hb as [Hsame Hb]. f_equal.
    apply (NoDup_fmap_eq alert_key (low ++ exp)); try done.
    rewrite (Hid a Ha), (Hid b Hb) in Hsame. congruence.
  - assert (a ∈ filter (λ b, alert_id b = alert_id a) (low ++ exp)) as Hin
      by by apply list_elem_of_filter.
    destruct (filter _ (low ++ exp)) as [|x rest]; [by apply elem_of_nil in Hin|].
    rewrite last_lookup in Hlast. apply lookup_ge_None in Hlast. simpl in Hlast. lia.
Qed.

Lemma acknowledge_alert_cache e id :
  acknowledge_alert e id = with_active_alerts e (delete id (active_alerts e)).
Proof.
  unfold acknowledge_alert, with_active_alerts.
  destruct (active_alerts e !! id) eqn:Hid; [done|].
  rewrite delete_id by done. by destruct e.
Qed.

(** X23 ([_process_alert],
    [get_active_alerts], [acknowledge_alert]): every alert returned by an
    evaluation is among the active alerts afterwards, cached under its own
    id; acknowledging it by that id removes exactly that entry, so that
    the number of active alerts drops by one. *)
Theorem returned_alert_is_active_until_acknowledged e inventory freshness_state
    timestamp e' alerts a :
  evaluate e inventory freshness_state timestamp = Some (e', alerts) →
  a ∈ alerts →
  a ∈ get_active_alerts e'
  ∧ active_alerts e' !! alert_id a = Some a
  ∧ active_alerts (acknowledge_alert e' (alert_id a)) = delete (alert_id a) (active_alerts e')
  ∧ length (get_active_alerts (acknowledge_alert e' (alert_id a)))
    = pred (length (get_active_alerts e')).
Proof.
  intros Hev Ha. pose proof (evaluate_caches _ _ _ _ _ _ _ Hev Ha) as Hcached.
  split_and!.
  - unfold get_active_alerts. apply list_elem_of_fmap.
    exists (alert_id a, a). split; [done|]. by apply elem_of_map_to_list.
  - done.
  - by rewrite acknowledge_alert_cache.
  - unfold get_active_alerts. rewrite !length_fmap, !length_map_to_list.
    rewrite acknowledge_alert_cache. simpl.
    apply map_size_delete_Some. by rewrite Hcached.
Qed.

Lemma returned_alert_is_active_until_acknowledged_witness :
  let e' := (default (stockout_engine, [])
               (evaluate stockout_engine {["mango" := 0; "kiwi" := 1]}
                  {["mango" := expired_record]} 5)).1 in
  out_of_stock_alert ∈ get_active_alerts e'
  ∧ active_alerts e' !! alert_id out_of_stock_alert = Some out_of_stock_alert
  ∧ active_alerts (acknowledge_alert e' (alert_id out_of_stock_alert))
    = delete (alert_id out_of_stock_alert) (active_alerts e')
  ∧ length (get_active_alerts (acknowledge_alert e' (alert_id out_of_stock_alert)))
    = pred (length (get_active_alerts e')).
Proof.
  apply (returned_alert_is_active_until_acknowledged stockout_engine
           {["mango" := 0; "kiwi" := 1]} {["mango" := expired_record]} 5
           (default (stockout_engine, [])
              (evaluate stockout_engine {["mango" := 0; "kiwi" := 1]}
                 {["mango" := expired_record]} 5)).1
           (default (stockout_engine, [])
              (evaluate stockout_engine {["mango" := 0; "kiwi" := 1]}
                 {["mango" := expired_record]} 5)).2).
  - vm_compute. reflexivity.
  - vm_compute. right. left.
Defined.

(** *** The cache is never read by an evaluation *)

Lemma low_stock_step_with_active inventory timestamp e cache item :
  low_stock_step inventory timestamp (with_active_alerts e cache) item
  = (λ r, (with_active_alerts r.1 cache, r.2)) <$> low_stock_step inventory timestamp e item.
Proof.
  destruct item as [p threshold]. unfold low_stock_step. cbv zeta. simpl.
  destruct (_ <=? _).
  - destruct (pending_deque _ _ p) as [q|]; simpl; [|done].
    unfold _validate_low_stock. simpl.
    destruct (if _ <? _ then false else all_at_most threshold _); [|done].
    unfold _check_cooldown. simpl. destruct (last_alert_time e !! _) as [t|]; [|done].
    by destruct (_ <? _).
  - by destruct (pending_low_stock e !! p).
Qed.

Lemma expiration_step_with_active timestamp e cache item :
  expiration_step timestamp (with_active_alerts e cache) item
  = (λ r, (with_active_alerts r.1 cache, r.2)) <$> expiration_step timestamp e item.
Proof.
  destruct item as [p freshness_data]. unfold expiration_step. cbv zeta. simpl.
  destruct (default false _).
  - destruct (pending_deque _ _ p) as [q|]; simpl; [|done].
    unfold _validate_expiration. simpl.
    destruct (_ <? _); [done|].
    unfold _check_cooldown. simpl. destruct (last_alert_time e !! _) as [t|]; [|done].
    by destruct (_ <? _).
  - by destruct (pending_expiration e !! p).
Qed.

Lemma for_items_with_active {I : Type}
    (body : AlertEngine → I → option (AlertEngine * option Alert)) cache items :
  (∀ e item, body (with_active_alerts e cache) item
             = (λ r, (with_active_alerts r.1 cache, r.2)) <$> body e item) →
  ∀ e, for_items body (with_active_alerts e cache) items
       = (λ r, (with_active_alerts r.1 cache, r.2)) <$> for_items body e items.
Proof.
  intros Hbody. induction items as [|item rest IH]; intros e; simpl; [done|].
  rewrite Hbody. destruct (body e item) as [[e1 alert]|]; simpl; [|done].
  rewrite IH. by destruct (for_items body e1 rest) as [[e2 later]|].
Qed.

Lemma process_alerts_with_active e cache alerts :
  foldl _process_alert (with_active_alerts e cache) alerts
  = with_active_alerts (foldl _process_alert e alerts)
      (foldl (λ c a, <[alert_id a := a]> c) cache alerts).
Proof.
  revert e cache. induction alerts as [|a alerts IH]; intros e cache; simpl; [done|].
  rewrite <- IH. done.
Qed.

Lemma evaluate_with_active e cache inventory freshness_state timestamp :
  evaluate (with_active_alerts e cache) inventory freshness_state timestamp
  = (λ r, (with_active_alerts r.1 (foldl (λ c a, <[alert_id a := a]> c) cache r.2), r.2))
      <$> evaluate e inventory freshness_state timestamp.
Proof.
  unfold evaluate, _evaluate_low_stock, _evaluate_expiration.
  change (low_stock_thresholds (with_active_alerts e cache)) with (low_stock_thresholds e).
  rewrite (for_items_with_active (low_stock_step inventory timestamp) cache)
    by (intros; apply low_stock_step_with_active).
  destruct (for_items (low_stock_step inventory timestamp) e _) as [[e1 low]|];
    simpl; [|done].
  rewrite (for_items_with_active (expiration_step timestamp) cache)
    by (intros; apply expiration_step_with_active).
  destruct (for_items (expiration_step timestamp) e1 _) as [[e2 exp]|]; simpl; [|done].
  by rewrite process_alerts_with_active.
Qed.

Lemma run_with_active e cache ticks :
  snd <$> run (with_active_alerts e cache) ticks = snd <$> run e ticks.
Proof.
  revert e cache.
  induction ticks as [|[[inventory freshness_state] timestamp] rest IH];
    intros e cache; simpl; [done|].
  rewrite evaluate_with_active.
  destruct (evaluate e inventory freshness_state timestamp) as [[e1 alerts]|];
    simpl; [|done].
  specialize (IH e1 (foldl (λ c a, <[alert_id a := a]> c) cache alerts)).
  destruct (run (with_active_alerts e1 _) rest) as [[e2 later]|];
    destruct (run e1 rest) as [[e2' later']|]; simplify_eq/=; done.
Qed.

(** X24 ([acknowledge_alert], [evaluate],
    [_check_cooldown]): acknowledging an alert changes nothing but the
    cache of active alerts; the alerts returned by every later sequence of
    evaluations are the same as without the acknowledgement, so the
    cooldown of the acknowledged alert keeps running. *)
Theorem acknowledge_does_not_rearm e id ticks :
  acknowledge_alert e id = with_active_alerts e (delete id (active_alerts e))
  ∧ snd <$> run (acknowledge_alert e id) ticks = snd <$> run e ticks.
Proof.
  split; [apply acknowledge_alert_cache|].
  rewrite acknowledge_alert_cache. apply run_with_active.
Qed.

End acknowledge.

(** ** When an evaluation raises, and what a low-stock alert requires *)

Section alert_errors.
Import Alerts.

Implicit Types (e : AlertEngine) (p : string) (a : Alert).

Section loops.
Context {I : Type} (body : AlertEngine → I → option (AlertEngine * option Alert)).


(** A loop with an item whose step raises whenever it is reached,
    raises. *)
Lemma for_items_raises (key : I → string) (R : AlertEngine → Prop) item items :
  item ∈ items →
  (∀ e, R e → body e item = None) →
  (∀ e other r, key other ≠ key item → R e → body e other = Some r → R r.1) →
  NoDup (key <$> items) →
  ∀ e, R e → for_items body e items = None.
Proof.
  intros Hin Hraise Hkeep.
  induction items as [|first rest IH]; [by apply elem_of_nil in Hin|].
  rewrite fmap_cons. intros [Hfirst Hnd]%NoDup_cons e HR. simpl.
  apply elem_of_cons in Hin as [<- | Hin].
  { by rewrite Hraise. }
  destruct (body e first) as [[e1 alert]|] eqn:Hb; simpl; [|done].
  rewrite (IH Hin Hnd e1); [done|].
  apply (Hkeep e first (e1, alert)); [|done|done].
  intros Heq. apply Hfirst. rewrite Heq. apply list_elem_of_fmap. by exists item.
Qed.

(** An alert of the loop is emitted by the step of its item, taken in a
    state that the steps of the other items have not disturbed. *)
Lemma for_items_emitted (key : I → string) (Pre : I → AlertEngine → Prop) items :
  NoDup (key <$> items) →
  (∀ item other e r, key other ≠ key item → Pre item e → body e other = Some r →
                     Pre item r.1) →
  ∀ e e' alerts a,
    (∀ item, item ∈ items → Pre item e) →
    for_items body e items = Some (e', alerts) → a ∈ alerts →
    ∃ item e_in e_out,
      item ∈ items ∧ Pre item e_in ∧ body e_in item = Some (e_out, Some a).
Proof.
  intros Hnd Hkeep. induction items as [|first rest IH]; intros e e' alerts a Hpre.
  { simpl. intros [= <- <-] Ha. by apply elem_of_nil in Ha. }
  rewrite fmap_cons in Hnd. apply NoDup_cons in Hnd as [Hfirst Hnd].
  intros (e1 & alert & later & Hb & Hrest & ->)%for_items_cons [Ha | Ha]%elem_of_app.
  - destruct alert as [a'|]; simpl in Ha; [|by apply elem_of_nil in Ha].
    apply list_elem_of_singleton in Ha as ->.
    exists first, e, e1. split_and!; [left | apply Hpre; left | done].
  - destruct (IH Hnd e1 e' later a) as (item & e_in & e_out & Hitem & Hin & Hout);
      [|done|done|].
    + intros item Hitem. apply (Hkeep item first e (e1, alert)); [|by apply Hpre; right|done].
      intros Heq. apply Hfirst. rewrite Heq. apply list_elem_of_fmap. by exists item.
    + exists item, e_in, e_out. split_and!; [by right | done | done].
Qed.

(** What the step of one item establishes from what held before the loop. *)
Lemma for_items_focus (key : I → string) (Pre Post : AlertEngine → Prop) item items :
  NoDup (key <$> items) → item ∈ items →
  (∀ e other r, key other ≠ key item → Pre e → body e other = Some r → Pre r.1) →
  (∀ e other r, key other ≠ key item → Post e → body e other = Some r → Post r.1) →
  (∀ e r, Pre e → body e item = Some r → Post r.1) →
  ∀ e e' alerts, Pre e → for_items body e items = Some (e', alerts) → Post e'.
Proof.
  intros Hnd Hin Hpre Hpost Hstep.
  induction items as [|first rest IH]; [by apply elem_of_nil in Hin|].
  rewrite fmap_cons in Hnd. apply NoDup_cons in Hnd as [Hfirst Hnd].
  intros e e' alerts He (e1 & alert & later & Hb & Hrest & _)%for_items_cons.
  apply elem_of_cons in Hin as [<- | Hin].
  - eapply (for_items_invariant body Post rest); [| |exact Hrest].
    + intros e2 other e3 alert' Hother HP Hs.
      apply (Hpost e2 other (e3, alert')); [|done|done].
      intros Heq. apply Hfirst. rewrite <- Heq. apply list_elem_of_fmap. by exists other.
    + by apply (Hstep e (e1, alert)).
  - eapply (IH Hnd Hin); [|exact Hrest].
    apply (Hpre e first (e1, alert)); [|done|done].
    intros Heq. apply Hfirst. rewrite Heq. apply list_elem_of_fmap. by exists item.
Qed.

End loops.

(** *** Evaluations that return *)






(** *** Evaluations that raise *)

(** An engine with [low_stock_confirm_intervals < -1] that holds no deque
    for a monitored product raises when it finds that product at or below
    its threshold. *)
Lemma negative_confirm_intervals_raise e inventory freshness_state timestamp p threshold :
  low_stock_confirm_intervals e < -1 →
  pending_low_stock e !! p = None →
  low_stock_thresholds e !! p = Some threshold →
  dict_get inventory p 0 ≤ threshold →
  evaluate e inventory freshness_state timestamp = None.
Proof.
  intros Hlc Hnone Hthr Hlow. unfold evaluate, _evaluate_low_stock.
  rewrite (for_items_raises (low_stock_step inventory timestamp) fst
             (λ x, low_stock_confirm_intervals x = low_stock_confirm_intervals e
                   ∧ pending_low_stock x !! p = None)
             (p, threshold) (map_to_list (low_stock_thresholds e))); try done.
  - by apply elem_of_map_to_list.
  - intros x [Hx Hnone']. unfold low_stock_step. cbv zeta.
    destruct (_ <=? _) eqn:Hle; [|lia].
    unfold pending_deque. rewrite Hnone', Hx.
    destruct (_ <? 0) eqn:Hneg; [done | lia].
  - intros x [q thr'] [x' alert] Hne [Hx Hnone'] Hstep. simpl in *.
    destruct (low_stock_step_spec _ _ _ _ _ _ _ Hstep) as ((_ & <- & _) & _ & Hother & _).
    split; [done|]. rewrite Hother; [done | congruence].
  - apply NoDup_fst_map_to_list.
Qed.

(** X26
    ([AlertEngine.__init__], [_evaluate_low_stock]): an engine constructed
    with [low_stock_confirm_intervals < -1] is accepted by the constructor,
    and its first evaluation that finds a monitored product at or below its
    threshold raises, because the deque of that product cannot be built. *)
Theorem negative_confirm_intervals_raise_on_first_use thresholds lc ec cd
    enable_email_alerts email_notifier_built
    inventory freshness_state timestamp p threshold :
  lc < -1 →
  thresholds !! p = Some threshold →
  dict_get inventory p 0 ≤ threshold →
  is_Some (__init__ (Some thresholds) lc ec cd false email_notifier_built)
  ∧ ∀ e, __init__ (Some thresholds) lc ec cd enable_email_alerts email_notifier_built
         = Some e →
         evaluate e inventory freshness_state timestamp = None.
Proof.
  intros Hlc Hthr Hlow. split; [done|].
  intros e. unfold __init__.
  destruct (enable_email_alerts && negb email_notifier_built); [done|].
  intros [= <-]. by apply (negative_confirm_intervals_raise _ _ _ _ p threshold).
Qed.

Lemma negative_confirm_intervals_raise_on_first_use_witness :
  ∃ e, __init__ (Some stockout_thresholds) (-2) 2 3600 false false = Some e
       ∧ evaluate e {["mango" := 0; "kiwi" := 1]} ∅ 0 = None.
Proof.
  destruct (negative_confirm_intervals_raise_on_first_use stockout_thresholds (-2) 2 3600
              false false {["mango" := 0; "kiwi" := 1]} ∅ 0 "mango" 3)
    as [[e He] Hraise].
  - lia.
  - reflexivity.
  - vm_compute. discriminate.
  - exists e. split; [exact He | apply Hraise, He].
Defined.

End alert_errors.

(** ** A low-stock alert needs a streak of low counts *)

Section streak.
Import Alerts.

Implicit Types (e : AlertEngine) (p : string) (a : Alert).

Lemma counts_seen_snoc p ticks inventory freshness_state timestamp :
  counts_seen p (ticks ++ [(inventory, freshness_state, timestamp)])
  = dict_get inventory p 0 :: counts_seen p ticks.
Proof. unfold counts_seen. by rewrite map_app, rev_app_distr. Qed.

(** What the step of [p] leaves in the deque of [p], and what an alert
    requires of it. *)
Lemma low_stock_step_pending inventory timestamp e p threshold e' alert :
  low_stock_step inventory timestamp e (p, threshold) = Some (e', alert) →
  let count := dict_get inventory p 0 in
  let q' := deque_append (Z.to_nat (low_stock_confirm_intervals e + 1))
              (default [] (pending_low_stock e !! p)) (timestamp, count) in
  (pending_low_stock e' !! p = None
   ∨ pending_low_stock e' !! p = Some []
   ∨ (count ≤ threshold ∧ pending_low_stock e' !! p = Some q'))
  ∧ (∀ a, alert = Some a →
          count ≤ threshold ∧ low_stock_confirm_intervals e ≤ Z.of_nat (length q')).
Proof.
  unfold low_stock_step. cbv zeta.
  destruct (_ <=? _) eqn:Hlow.
  - apply Z.leb_le in Hlow.
    destruct (pending_deque _ _ p) as [q|] eqn:Hq; simpl; [|done].
    assert (q = default [] (pending_low_stock e !! p)) as ->.
    { unfold pending_deque in Hq. destruct (pending_low_stock e !! p); simpl.
      - by injection Hq.
      - destruct (_ <? 0); [done | by injection Hq]. }
    unfold _validate_low_stock. simpl. rewrite lookup_insert_eq. simpl.
    destruct (_ <? low_stock_confirm_intervals e) eqn:Hlen; simpl.
    { intros [= <- <-]. simpl. rewrite lookup_insert_eq.
      split; [by right; right | done]. }
    apply Z.ltb_ge in Hlen.
    destruct (all_at_most threshold _).
    + unfold _check_cooldown. simpl. destruct (last_alert_time e !! _) as [t|].
      * destruct (_ <? _); intros [= <- <-]; simpl; rewrite ?lookup_insert_eq.
        -- split; [by right; right | done].
        -- split; [by right; left|]. by intros a _.
      * intros [= <- <-]. simpl. rewrite lookup_insert_eq.
        split; [by right; left|]. by intros a _.
    + intros [= <- <-]. simpl. rewrite lookup_insert_eq.
      split; [by right; right | done].
  - destruct (pending_low_stock e !! p) eqn:Hp; intros [= <- <-]; simpl.
    + rewrite lookup_insert_eq. split; [by right; left | done].
    + rewrite Hp. split; [by left | done].
Qed.

(** One more low count extends the streak that a deque records. *)
Lemma streak_step (maxlen : nat) (q : list (Z * Z)) (x : Z * Z)
    (seen : list Z) (count threshold : Z) :
  count ≤ threshold →
  (∀ j, (j < length q)%nat → ∃ c, seen !! j = Some c ∧ c ≤ threshold) →
  ∀ j, (j < length (deque_append maxlen q x))%nat →
       ∃ c, (count :: seen) !! j = Some c ∧ c ≤ threshold.
Proof.
  intros Hcount Hq j Hj.
  pose proof (deque_append_grows maxlen q x) as Hgrow.
  destruct j as [|j]; simpl; [by exists count|].
  apply Hq. lia.
Qed.

Lemma evaluate_streak e before inventory freshness_state timestamp e' alerts :
  streak_recorded e before →
  evaluate e inventory freshness_state timestamp = Some (e', alerts) →
  streak_recorded e' (before ++ [(inventory, freshness_state, timestamp)])
  ∧ ∀ a, a ∈ alerts → alert_type a = LOW_STOCK →
         ∃ threshold,
           low_stock_thresholds e !! product_name a = Some threshold
           ∧ ∀ j, Z.of_nat j < low_stock_confirm_intervals e →
                  ∃ count,
                    counts_seen (product_name a)
                      (before ++ [(inventory, freshness_state, timestamp)]) !! j
                    = Some count
                    ∧ count ≤ threshold.
Proof.
  intros Hbefore (e1 & low & e2 & exp & Hlow & Hexp & -> & ->)%evaluate_unfold.
  destruct (process_alerts_state e2 (low ++ exp)) as ((Hthr3 & _) & Hpl3 & _).
  destruct (evaluate_expiration_keeps _ _ _ _ _ Hexp) as ((Hthr2 & _) & Hpl2 & _).
  destruct (evaluate_low_stock_keeps _ _ _ _ _ Hlow) as ((Hthr1 & _) & _).
  destruct (evaluate_alert_keys _ _ _ _ _ _ _ _ Hlow Hexp) as (_ & _ & _ & Hty_exp).
  unfold _evaluate_low_stock in Hlow. split.
  - intros p q threshold. rewrite Hpl3, Hpl2, <- Hthr3, <- Hthr2, <- Hthr1.
    intros Hq Hthr. revert q Hq. rewrite counts_seen_snoc.
    apply (for_items_focus (low_stock_step inventory timestamp) fst
             (λ x, low_stock_confirm_intervals x = low_stock_confirm_intervals e
                   ∧ pending_low_stock x !! p = pending_low_stock e !! p)
             (λ x, ∀ q, pending_low_stock x !! p = Some q →
                        ∀ j, (j < length q)%nat →
                             ∃ c, (dict_get inventory p 0 :: counts_seen p before) !! j
                                  = Some c ∧ c ≤ threshold)
             (p, threshold) (map_to_list (low_stock_thresholds e)))
      with (e := e) (alerts := low); try done.
    + apply NoDup_fst_map_to_list.
    + by apply elem_of_map_to_list.
    + intros x [r thr'] [x' alert] Hne [Hlc Hp] Hstep. simpl in *.
      destruct (low_stock_step_spec _ _ _ _ _ _ _ Hstep) as ((_ & <- & _) & _ & Hother & _).
      split; [done|]. rewrite Hother; [done | congruence].
    + intros x [r thr'] [x' alert] Hne Hpost Hstep. simpl in *.
      destruct (low_stock_step_spec _ _ _ _ _ _ _ Hstep) as (_ & _ & Hother & _).
      intros q. rewrite Hother; [apply Hpost | congruence].
    + intros x [x' alert] [Hlc Hp] Hstep. simpl.
      destruct (low_stock_step_pending _ _ _ _ _ _ _ Hstep) as [Hcases _].
      cbv zeta in Hcases. intros q Hq.
      destruct Hcases as [Hnone | [Hnil | [Hcount Hq']]]; [congruence | |].
      * rewrite Hnil in Hq. injection Hq as <-. simpl. lia.
      * rewrite Hq' in Hq. injection Hq as <-. rewrite Hp.
        apply streak_step; [done|].
        destruct (pending_low_stock e !! p) as [q0|] eqn:Hq0; simpl; [|lia].
        by eapply Hbefore.
  - intros a [Ha | Ha]%elem_of_app Hty;
      [|destruct (Hty_exp a Ha) as [Hexp_ty _]; rewrite Hexp_ty in Hty; done].
    destruct (for_items_emitted (low_stock_step inventory timestamp) fst
                (λ item x, low_stock_confirm_intervals x = low_stock_confirm_intervals e
                           ∧ pending_low_stock x !! item.1 = pending_low_stock e !! item.1)
                (map_to_list (low_stock_thresholds e)))
      with (e := e) (e' := e1) (alerts := low) (a := a)
      as ([p threshold] & e_in & e_out & Hitem & [Hlc Hp] & Hstep); try done.
    + apply NoDup_fst_map_to_list.
    + intros [r thr] [r' thr'] x [x' alert] Hne [Hlc Hp] Hstep. simpl in *.
      destruct (low_stock_step_spec _ _ _ _ _ _ _ Hstep) as ((_ & <- & _) & _ & Hother & _).
      split; [done|]. rewrite Hother; [done | congruence].
    + apply elem_of_map_to_list in Hitem. simpl in *.
      destruct (low_stock_step_alert _ _ _ _ _ _ _ Hstep) as (_ & -> & _).
      exists threshold. split; [done|].
      destruct (low_stock_step_pending _ _ _ _ _ _ _ Hstep) as [_ Halert].
      cbv zeta in Halert. destruct (Halert a eq_refl) as [Hcount Hlen].
      rewrite Hlc, Hp in Hlen. intros j Hj. rewrite counts_seen_snoc.
      eapply streak_step; [done | | by apply Nat2Z.inj_lt; eapply Z.lt_le_trans].
      destruct (pending_low_stock e !! p) as [q0|] eqn:Hq0; simpl; [|lia].
      by eapply Hbefore.
Qed.

Lemma run_streak e before ticks e' out alerts a :
  streak_recorded e before →
  run e ticks = Some (e', out) →
  last out = Some alerts → a ∈ alerts → alert_type a = LOW_STOCK →
  ∃ threshold,
    low_stock_thresholds e !! product_name a = Some threshold
    ∧ ∀ j, Z.of_nat j < low_stock_confirm_intervals e →
           ∃ count, counts_seen (product_name a) (before ++ ticks) !! j = Some count
                    ∧ count ≤ threshold.
Proof.
  revert e before out.
  induction ticks as [|[[inventory freshness_state] timestamp] rest IH];
    intros e before out Hbefore.
  { simpl. by intros [= <- <-]. }
  intros (e1 & first & later & Hev & Hrest & ->)%alert_run_cons Hlast Ha Hty.
  destruct (evaluate_streak _ _ _ _ _ _ _ Hbefore Hev) as [Hafter Halerts].
  destruct (evaluate_keeps _ _ _ _ _ _ Hev) as ((Hthr & Hlc & _) & _).
  destruct later as [|second later].
  - destruct rest as [|[[? ?] ?] ?]; [|by apply alert_run_cons in Hrest as (? & ? & ? & _ & _ & ?)].
    simpl in Hlast. injection Hlast as <-. by apply Halerts.
  - replace (before ++ (inventory, freshness_state, timestamp) :: rest)
      with ((before ++ [(inventory, freshness_state, timestamp)]) ++ rest)
      by by rewrite <- app_assoc.
    rewrite Hthr, Hlc. eapply IH; try done.
Qed.

(** X27 ([_evaluate_low_stock],
    [_validate_low_stock]): in a run of a newly constructed engine, a
    low-stock alert is returned only for a monitored product whose count
    was at or below its threshold on each of the last
    [low_stock_confirm_intervals] evaluations, the current one included;
    in particular no such alert is returned during the first
    [low_stock_confirm_intervals - 1] evaluations. *)
Theorem low_stock_alert_needs_streak thresholds lc ec cd ticks e' out alerts a :
  fresh_alert_run thresholds lc ec cd ticks = Some (e', out) →
  last out = Some alerts →
  a ∈ alerts →
  alert_type a = LOW_STOCK →
  ∃ threshold,
    thresholds !! product_name a = Some threshold
    ∧ ∀ j, Z.of_nat j < lc →
           ∃ count, counts_seen (product_name a) ticks !! j = Some count
                    ∧ count ≤ threshold.
Proof.
  rewrite fresh_alert_run_unfold. intros Hrun Hlast Ha Hty.
  apply (λ H, run_streak _ [] ticks e' out alerts a H Hrun);
    try done; intros p q threshold; simpl; by rewrite lookup_empty.
Qed.

Lemma low_stock_alert_needs_streak_witness :
  ∃ threshold,
    stockout_thresholds !! product_name out_of_stock_alert = Some threshold
    ∧ ∀ j, Z.of_nat j < 2 →
           ∃ count, counts_seen (product_name out_of_stock_alert)
                      (take 2 stockout_ticks) !! j = Some count
                    ∧ count ≤ threshold.
Proof.
  apply (low_stock_alert_needs_streak stockout_thresholds 2 2 3600
           (take 2 stockout_ticks)
           (default (stockout_engine, [])
              (fresh_alert_run stockout_thresholds 2 2 3600 (take 2 stockout_ticks))).1
           (default (stockout_engine, [])
              (fresh_alert_run stockout_thresholds 2 2 3600 (take 2 stockout_ticks))).2
           (default []
              (last (default (stockout_engine, [])
                       (fresh_alert_run stockout_thresholds 2 2 3600
                          (take 2 stockout_ticks))).2))).
  - vm_compute. reflexivity.
  - vm_compute. reflexivity.
  - vm_compute. right. left.
  - reflexivity.
Defined.

End streak.

(** ** What an evaluation reads of the inventory *)

Section monitored.
Import Alerts.

Implicit Types (e : AlertEngine) (p : string) (a : Alert).

Lemma for_items_ext {I : Type}
    (body1 body2 : AlertEngine → I → option (AlertEngine * option Alert)) items :
  (∀ e item, item ∈ items → body1 e item = body2 e item) →
  ∀ e, for_items body1 e items = for_items body2 e items.
Proof.
  induction items as [|item rest IH]; intros Hext e; simpl; [done|].
  rewrite (Hext e item) by left.
  destruct (body2 e item) as [[e1 alert]|]; simpl; [|done].
  rewrite IH; [done|]. intros x it Hit. apply Hext. by right.
Qed.

(** X28 ([_evaluate_low_stock]): an
    evaluation reads the inventory at the products of
    [low_stock_thresholds] only; two inventories that agree on the counts
    of those products give the same alerts and the same new state,
    whatever other products they hold. *)
Theorem evaluate_reads_monitored_products_only e inventory1 inventory2
    freshness_state timestamp :
  (∀ p threshold, low_stock_thresholds e !! p = Some threshold →
                  dict_get inventory1 p 0 = dict_get inventory2 p 0) →
  evaluate e inventory1 freshness_state timestamp
  = evaluate e inventory2 freshness_state timestamp.
Proof.
  intros Hagree. unfold evaluate, _evaluate_low_stock.
  rewrite (for_items_ext (low_stock_step inventory1 timestamp)
             (low_stock_step inventory2 timestamp)); [done|].
  intros x [p threshold] Hitem%elem_of_map_to_list.
  unfold low_stock_step. by rewrite (Hagree p threshold Hitem).
Qed.

Lemma evaluate_reads_monitored_products_only_witness :
  evaluate stockout_engine {["mango" := 0; "kiwi" := 1]} {["mango" := expired_record]} 5
  = evaluate stockout_engine {["mango" := 0; "kiwi" := 1; "pear" := 40]}
      {["mango" := expired_record]} 5.
Proof.
  apply evaluate_reads_monitored_products_only.
  intros p threshold Hp. unfold dict_get.
  destruct (decide (p = "mango")) as [-> | Hmango]; [reflexivity|].
  destruct (decide (p = "kiwi")) as [-> | Hkiwi]; [reflexivity|].
  exfalso. revert Hp. simpl. unfold stockout_thresholds.
  rewrite lookup_insert_ne by done. rewrite lookup_singleton_ne by done. discriminate.
Defined.

End monitored.

(** ** Construction and replay *)

Section construction.






End construction.

Section replay_order.
Import SalesAttribution.

Implicit Types (e : SalesAttributionEngine) (p q : string) (ev : SaleEvent).
Implicit Types (order : gset string → list string).

Lemma enumerates_NoDup order X : enumerates order → NoDup (order X).
Proof. intros Horder. rewrite (Horder X). apply NoDup_elements. Qed.

Lemma enumerates_elements : enumerates elements.
Proof. by intros X. Qed.

Lemma enumerates_backwards : enumerates backwards.
Proof. intros X. unfold backwards. symmetry. apply Permutation_rev. Qed.

(** The statistics do not depend on the order of the events. *)
Lemma record_sales_perm (by_product : gmap string Z) (s1 s2 : list SaleEvent) :
  s1 ≡ₚ s2 → record_sales by_product s1 = record_sales by_product s2.
Proof.
  intros Hperm. revert by_product.
  induction Hperm as [|x l1 l2 _ IH|x y l|l1 l2 l3 _ IH1 _ IH2]; intros by_product; simpl.
  - done.
  - apply IH.
  - f_equal. apply map_eq. intros k. unfold dict_get.
    destruct (decide (product_name x = product_name y)) as [Heq | Hne].
    + rewrite Heq. destruct (decide (k = product_name y)) as [Hk | Hk].
      * rewrite Hk, !lookup_insert_eq. simpl. f_equal. lia.
      * by rewrite !lookup_insert_ne.
    + assert (product_name y ≠ product_name x) as Hne' by congruence.
      destruct (decide (k = product_name x)) as [Hkx | Hkx];
        [|destruct (decide (k = product_name y)) as [Hky | Hky]];
        rewrite ?Hkx, ?Hky;
        repeat (rewrite lookup_insert_eq || rewrite lookup_insert_ne by congruence);
        done.
  - by rewrite IH1.
Qed.

(** The fallback only asks whether an attributed sale was emitted. *)
Lemma unattributed_fallback_perm e now cur prev (s1 s2 : list SaleEvent) :
  s1 ≡ₚ s2 →
  (unattributed_fallback e now cur prev s1).1 = (unattributed_fallback e now cur prev s2).1
  ∧ (unattributed_fallback e now cur prev s1).2
    ≡ₚ (unattributed_fallback e now cur prev s2).2.
Proof.
  intros Hperm. unfold unattributed_fallback. cbv zeta.
  assert (bool_decide (s1 = []) = bool_decide (s2 = [])) as ->.
  { apply bool_decide_ext. split; intros ->.
    - by apply Permutation_nil_l in Hperm.
    - by apply Permutation_nil_r in Hperm. }
  destruct (_ && _); [|done].
  destruct (_validate_total_decrease e _ now) as [[] e1]; simpl; [|done].
  split; [done|]. by rewrite Hperm.
Qed.

Lemma detect_in_perm order1 order2 e now :
  enumerates order1 → enumerates order2 →
  (_detect_attributed_sales_in order1 e now).1
  = (_detect_attributed_sales_in order2 e now).1
  ∧ (_detect_attributed_sales_in order1 e now).2
    ≡ₚ (_detect_attributed_sales_in order2 e now).2.
Proof.
  intros Ho1 Ho2. unfold _detect_attributed_sales_in.
  destruct (rev (snapshot_history e)) as [|[t1 cur] [|[t2 prev] rest]]; [done | done |].
  destruct (attribute_products_perm now cur prev e
              (order1 (dom cur ∪ dom prev)) (order2 (dom cur ∪ dom prev)))
    as [Hstate Hevents].
  { by apply enumerates_NoDup. }
  { by rewrite (Ho1 _), (Ho2 _). }
  destruct (attribute_products now cur prev e (order1 _)) as [x1 s1].
  destruct (attribute_products now cur prev e (order2 _)) as [x2 s2].
  simpl in Hstate, Hevents. subst x2.
  by apply unattributed_fallback_perm.
Qed.

(** One tick under two iteration orders: the same state and the same
    events, up to their order. *)
Lemma process_snapshot_in_perm order1 order2 e inventory timestamp :
  enumerates order1 → enumerates order2 →
  (process_snapshot_in order1 e inventory timestamp).1
  = (process_snapshot_in order2 e inventory timestamp).1
  ∧ (process_snapshot_in order1 e inventory timestamp).2
    ≡ₚ (process_snapshot_in order2 e inventory timestamp).2.
Proof.
  intros Ho1 Ho2. unfold process_snapshot_in. cbv zeta.
  destruct (length _ <? 2)%nat; [done|].
  destruct (detect_in_perm order1 order2
              (append_snapshot e inventory timestamp) timestamp Ho1 Ho2)
    as [Hstate Hevents].
  destruct (_detect_attributed_sales_in order1 _ timestamp) as [x1 s1].
  destruct (_detect_attributed_sales_in order2 _ timestamp) as [x2 s2].
  simpl in *. subst x2. split; [|done].
  by rewrite (Permutation_length Hevents), (record_sales_perm _ _ _ Hevents).
Qed.

Lemma run_in_perm order1 order2 e snapshots :
  enumerates order1 → enumerates order2 →
  (run_in order1 e snapshots).1 = (run_in order2 e snapshots).1
  ∧ Forall2 (≡ₚ) (run_in order1 e snapshots).2 (run_in order2 e snapshots).2.
Proof.
  intros Ho1 Ho2. revert e.
  induction snapshots as [|[inventory timestamp] rest IH]; intros e; simpl.
  { split; [done | constructor]. }
  destruct (process_snapshot_in_perm order1 order2 e inventory timestamp Ho1 Ho2)
    as [Hstate Hevents].
  destruct (process_snapshot_in order1 e inventory timestamp) as [x1 s1].
  destruct (process_snapshot_in order2 e inventory timestamp) as [x2 s2].
  simpl in *. subst x2. destruct (IH x1) as [Hrest Hlater].
  destruct (run_in order1 x1 rest) as [y1 l1].
  destruct (run_in order2 x1 rest) as [y2 l2].
  simpl in *. split; [done | by constructor].
Qed.

Lemma run_in_ext order1 order2 e snapshots :
  (∀ X, order1 X = order2 X) →
  run_in order1 e snapshots = run_in order2 e snapshots.
Proof.
  intros Hsame. revert e.
  induction snapshots as [|[inventory timestamp] rest IH]; intros e; simpl; [done|].
  assert (process_snapshot_in order1 e inventory timestamp
          = process_snapshot_in order2 e inventory timestamp) as ->.
  { unfold process_snapshot_in, _detect_attributed_sales_in. cbv zeta.
    destruct (length _ <? 2)%nat; [done|].
    destruct (rev _) as [|[t1 cur] [|[t2 prev] tail]]; [done | done |].
    by rewrite Hsame. }
  destruct (process_snapshot_in order2 e inventory timestamp) as [x1 s1].
  by rewrite IH.
Qed.

(** With the order of [elements] the functions are those of the engine. *)
Lemma run_in_elements e snapshots : run_in elements e snapshots = run e snapshots.
Proof.
  revert e. induction snapshots as [|[inventory timestamp] rest IH]; intros e; simpl;
    [done|].
  change (process_snapshot_in elements e inventory timestamp)
    with (process_snapshot e inventory timestamp).
  destruct (process_snapshot e inventory timestamp) as [x1 s1]. by rewrite IH.
Qed.

(** On [double_sale] both products are sold on the third tick, and the
    two sales come in the order in which the loop visits the products. *)
Lemma double_sale_in_order :
  (run_in elements (test_engine 10 [] ∅ ∅ 0 0 ∅) double_sale).2
  = [ []; []; [attributed_sale "kiwi" 1 5 4 10; attributed_sale "mango" 1 5 4 10] ].
Proof. vm_compute. reflexivity. Qed.

Lemma double_sale_backwards :
  (run_in backwards (test_engine 10 [] ∅ ∅ 0 0 ∅) double_sale).2
  = [ []; []; [attributed_sale "mango" 1 5 4 10; attributed_sale "kiwi" 1 5 4 10] ].
Proof. vm_compute. reflexivity. Qed.

(** C9, as the code has it.  The events of a tick come out in the order
    in which the loop visits the product set, and that order is open.
    Whatever the two orders are, two fresh engines with the same
    configuration that are fed the same snapshots end in the same state
    and return, at every tick, the same events up to their order in the
    list; this holds tick by tick from any state of the engine.  Replays
    that visit the products in the same order return identical lists. *)
Theorem replay_up_to_event_order order1 order2 c thr cd si snapshots e1 e2 :
  enumerates order1 → enumerates order2 →
  __init__ c thr cd si = Some e1 →
  __init__ c thr cd si = Some e2 →
  (run_in order1 e1 snapshots).1 = (run_in order2 e2 snapshots).1
  ∧ Forall2 (≡ₚ) (run_in order1 e1 snapshots).2 (run_in order2 e2 snapshots).2
  ∧ (∀ e inventory timestamp,
       (process_snapshot_in order1 e inventory timestamp).1
       = (process_snapshot_in order2 e inventory timestamp).1
       ∧ (process_snapshot_in order1 e inventory timestamp).2
         ≡ₚ (process_snapshot_in order2 e inventory timestamp).2)
  ∧ ((∀ X, order1 X = order2 X) →
     (run_in order1 e1 snapshots).2 = (run_in order2 e2 snapshots).2)
  ∧ run_in elements e1 snapshots = run e1 snapshots.
Proof.
  intros Ho1 Ho2 H1 H2. rewrite H1 in H2. injection H2 as <-.
  destruct (run_in_perm order1 order2 e1 snapshots Ho1 Ho2) as [Hstate Hevents].
  split_and!; [done | done | | |].
  - intros e inventory timestamp. by apply process_snapshot_in_perm.
  - intros Hsame. by rewrite (run_in_ext order1 order2 e1 snapshots Hsame).
  - apply run_in_elements.
Qed.

Lemma replay_up_to_event_order_witness :
  (run_in elements (test_engine 10 [] ∅ ∅ 0 0 ∅) double_sale).1
  = (run_in backwards (test_engine 10 [] ∅ ∅ 0 0 ∅) double_sale).1
  ∧ Forall2 (≡ₚ)
      [ []; []; [attributed_sale "kiwi" 1 5 4 10; attributed_sale "mango" 1 5 4 10] ]
      [ []; []; [attributed_sale "mango" 1 5 4 10; attributed_sale "kiwi" 1 5 4 10] ].
Proof.
  rewrite <- double_sale_in_order, <- double_sale_backwards.
  destruct (replay_up_to_event_order elements backwards 2 1 10 5 double_sale
              (test_engine 10 [] ∅ ∅ 0 0 ∅) (test_engine 10 [] ∅ ∅ 0 0 ∅)
              enumerates_elements enumerates_backwards eq_refl eq_refl)
    as (Hstate & Hevents & _).
  split; [exact Hstate | exact Hevents].
Defined.

(** C9, as the specification words it, fails: on [double_sale] a replay
    that visits the products in the opposite order returns the two sales
    of the third tick in the opposite order. *)
Lemma replay_order_counterexample :
  ¬ (∀ order1 order2 c thr cd si snapshots e1 e2,
       enumerates order1 → enumerates order2 →
       __init__ c thr cd si = Some e1 →
       __init__ c thr cd si = Some e2 →
       (run_in order1 e1 snapshots).2 = (run_in order2 e2 snapshots).2).
Proof.
  intros Hclaim.
  specialize (Hclaim elements backwards 2 1 10 5 double_sale
                (test_engine 10 [] ∅ ∅ 0 0 ∅) (test_engine 10 [] ∅ ∅ 0 0 ∅)
                enumerates_elements enumerates_backwards eq_refl eq_refl).
  rewrite double_sale_in_order, double_sale_backwards in Hclaim.
  discriminate Hclaim.
Qed.

End replay_order.

